(** * tavern.core: the stage execution engine and the file driver

    A shallow embedding of [src/tavern/core.py]: the diagnostic formatting
    helpers ([format_dict], [format_request], [format_response],
    [assertion_message]), the per-test runner [run_test] and the file driver
    [run].

    Python dictionaries are objects of a heap and are passed by reference, so
    that the sharing between the global configuration and the per-test
    configuration is the one of the source. Exceptions are an explicit result
    type. Every call that leaves [core.py] (plugins, printer, logger, delay,
    sessions, the Box object) is recorded in a trace; the calls that receive
    the configuration record the heap they were given. *)

From stdpp Require Import gmap strings list fin_maps pretty.
From Stdlib Require Import Ascii String ZArith.
From Stdlib.Strings Require Import Byte.

Local Open Scope string_scope.
Local Open Scope list_scope.
Local Open Scope Z_scope.

(** ** Exceptions *)

(** The exception classes [core.py] names. The first group are Python
    built-ins. The second group is imported from [tavern.util.exceptions],
    which is not among the sources. *)
Inductive exc_class :=
  | AssertionError
  | KeyError
  | TypeError
  | UnicodeDecodeError
  | OtherBuiltin (name : string)
  | TavernException
  | MissingFormatError
  | BadSchemaError
  | TestFailError
  | OtherTavern (name : string).

#[global] Instance exc_class_eq_dec : EqDecision exc_class.
Proof. solve_decision. Defined.

(** Modelled from the spec: the class hierarchy of [tavern.util.exceptions]
    (this module is missing from the sources). [core.py] takes from it the
    names [TavernException], [MissingFormatError], [BadSchemaError] and
    [TestFailError]; [TavernException] is the base class of the package's
    errors (section 7 of the specification lists schema violations, dispatch
    failures and request failures as kinds of one taxonomy, and the docstring
    of [run_test] names [TavernException] as what a failing test raises). The
    built-in classes are related to no class of the package: a class defined
    in a package cannot be a base of a built-in. *)
Definition issubclass (c d : exc_class) : bool :=
  if decide (c = d) then true
  else match d, c with
       | TavernException, (MissingFormatError | BadSchemaError | TestFailError | OtherTavern _) => true
       | _, _ => false
       end.

Record exn := Exn { exc_type : exc_class; exc_message : string }.

#[global] Instance exn_eq_dec : EqDecision exn.
Proof. solve_decision. Defined.

(** [isinstance e c]: what [except c:] tests. *)
Definition isinstance (e : exn) (c : exc_class) : bool := issubclass (exc_type e) c.

Inductive result (A : Type) :=
  | Return (a : A)
  | Raise (e : exn).
Arguments Return {A} a.
Arguments Raise {A} e.

(** ** Values, dictionaries and the heap *)

Notation loc := positive.

(** A Python value is immutable data (rendered as text) or a reference to a
    dictionary object of the heap ([dict], [Box]). *)
Inductive value :=
  | VData (d : string)
  | VRef (l : loc).

#[global] Instance value_eq_dec : EqDecision value.
Proof. solve_decision. Defined.

Notation dict := (gmap string value).
Notation heap := (gmap loc (gmap string value)).

(** ** Requests, responses, stages, documents *)

Notation bytes := (list byte).

(** What [format_request] reads of [response.request]. [body] is [None] for
    Python's [None]. *)
Record request := Request {
  method : string;
  url : string;
  request_headers : list (string * string);
  body : option bytes
}.

(** What [format_response] reads of a response. *)
Record response := Response {
  status_code : Z;
  reason : string;
  headers : list (string * string);
  text : string;
  response_request : request
}.

(** A stage is a mapping; [core.py] reads its ["name"] key only, the rest is
    handed to the plugins. *)
Record stage := Stage {
  stage_name : option string;
  stage_spec : string
}.

(** An include fragment: [core.py] reads its ["variables"] key. *)
Record included := Included {
  included_variables : option (gmap string value)
}.

(** A test document as a mapping with the keys [core.py] reads; a field is
    [None] when the key is absent. *)
Record test_spec := TestSpec {
  includes : option (list included);
  test_name : option string;
  stages : option (list stage)
}.

(** A document of a file is [None] (YAML null) or a mapping. *)
Notation document := (option test_spec).

(** Python truthiness of a document: [None] and the empty mapping are
    false. *)
Definition truthy (d : document) : bool :=
  match d with
  | None => false
  | Some (TestSpec None None None) => false
  | Some _ => true
  end.

Notation session := nat.
Notation expected := string.

(** The result of [v.verify(response)]. *)
Record verify_result := VerifyResult {
  errors : list string;
  saved : gmap string value
}.

(** A verifier: its display name and its [verify] method. The verifier was
    built with a reference to the test configuration, so [verify] reads the
    heap as it is when it is called. *)
Record verifier := Verifier {
  verifier_name : string;
  verify : response -> heap -> result verify_result
}.

(** The request object [get_request_type] returns. *)
Record request_type := RequestType {
  request_vars : value;
  request_run : result response
}.

Inductive exit_result :=
  | ExitReturn (suppress : bool)
  | ExitRaise (e : exn).

(** ** What lies outside [core.py] *)

(** Library functions of Python, with no property assumed of them:
    [repr], [textwrap.indent] and [bytes.decode]. *)
Class Builtins := {
  py_repr : string -> string;
  textwrap_indent : string -> string -> string;
  bytes_decode : bytes -> result string
}.

(** The collaborators [core.py] imports: plugins, schema check, environment
    variable check, YAML dump, and the context manager protocol of the
    session objects. The dispatchers receive the stage, the configuration
    (a reference and the heap it lives in) and the sessions. *)
Class Collaborators := {
  os_environ : gmap string value;
  check_env_var_settings : gmap string value -> option exn;
  get_extra_sessions : test_spec -> result (list (string * session));
  session_enter : session -> option exn;
  session_exit : session -> option exn -> exit_result;
  get_request_type : stage -> heap -> loc -> list (string * session) -> result request_type;
  get_expected : stage -> heap -> loc -> list (string * session) -> result expected;
  get_verifiers : stage -> heap -> loc -> list (string * session) -> expected -> result (list verifier);
  verify_tests : test_spec -> option exn;
  yaml_dumps : list stage -> string
}.

(** ** Formatting of the diagnostics *)

Definition nl : string := String "010"%char "".

Section Formatting.
Context `{Builtins}.

(** [assertion_message]: the template of lines 20-33, [name] goes through
    [repr], the other fields through [str]. *)
Definition assertion_message (name file errs stg req resp : string) : string :=
  " Test " +:+ py_repr name +:+ nl +:+
  "file: " +:+ file +:+ nl +:+
  nl +:+
  "failed:" +:+ nl +:+
  errs +:+ nl +:+
  nl +:+
  "stage:" +:+ nl +:+
  stg +:+ nl +:+
  "request:" +:+ nl +:+
  req +:+ nl +:+
  nl +:+
  "response:" +:+ nl +:+
  resp +:+ nl.

(** [format_dict]: one ["k: v"] line per key, in the order of the
    mapping. *)
Definition format_dict (data : list (string * string)) : string :=
  String.concat nl (map (fun kv => fst kv +:+ ": " +:+ snd kv) data).

(** [if request.body:] is false for [None] and for empty bytes. *)
Definition body_truthy (b : option bytes) : bool :=
  match b with
  | None | Some [] => false
  | Some (_ :: _) => true
  end.

Definition format_request (rq : request) : result string :=
  let message := method rq +:+ " " +:+ url rq in
  let message := message +:+ nl +:+ format_dict (request_headers rq) in
  if body_truthy (body rq) then
    match bytes_decode (default [] (body rq)) with
    | Return t => Return (message +:+ nl +:+ nl +:+ t)
    | Raise e => Raise e
    end
  else Return message.

Definition format_response (rs : response) : string :=
  let message := "HTTP/1.1 " +:+ pretty (status_code rs) +:+ " " +:+ reason rs in
  let message := message +:+ nl +:+ format_dict (headers rs) in
  let message := message +:+ nl +:+ nl +:+ text rs in
  message.

(** Line 147: ["- " + "\n- ".join(ret.errors)]. *)
Definition join_errors (errs : list string) : string :=
  "- " +:+ String.concat (nl +:+ "- ") errs.

End Formatting.

(** ** The machine: heap, exit stack, trace *)

Inductive phase := Before | After.

(** The calls that leave [core.py], in the order they are made. *)
Inductive event :=
  | LogWarning (msg : string)
  | LogInfo (msg : string)
  | LogDebug (msg : string)
  | LogFail (st : stage) (v : option string) (exp : option expected)
  | LogPass (st : stage) (vs : list string)
  | CheckEnvVarSettings (vars : gmap string value)
  | GetExtraSessions (spec : test_spec)
  | EnterContext (s : session) (acquired : bool)
  | ExitContext (s : session) (exc : option exn)
  | GetRequestType (st : stage) (cfg : loc) (h : heap)
  | BoxUpdate (box : loc) (key : string) (v : value)
  | GetExpected (st : stage) (cfg : loc) (h : heap)
  | Delay (st : stage) (ph : phase)
  | RequestRun (st : stage)
  | GetVerifiers (st : stage) (cfg : loc) (h : heap)
  | Verify (v : verifier) (resp : response) (cfg : loc) (h : heap)
  | BoxPop (box : loc) (key : string)
  | VerifyTests (spec : test_spec).

(** [exit_callbacks] is the stack of the [ExitStack] of the running test, the
    callback registered last first. *)
Record state := State {
  st_heap : heap;
  exit_callbacks : list session;
  trace : list event
}.

Definition M (A : Type) : Type := state -> result A * state.

Definition ret {A} (a : A) : M A := fun s => (Return a, s).

Definition bind {A B} (c : M A) (k : A -> M B) : M B :=
  fun s => match c s with
           | (Return a, s') => k a s'
           | (Raise e, s') => (Raise e, s')
           end.

Definition raise {A} (e : exn) : M A := fun s => (Raise e, s).

Notation "'let!' x ':=' c 'in' k" := (bind c (fun x => k))
  (at level 10, x name, c at level 100, k at level 200).
Notation "c ';;' k" := (bind c (fun _ => k))
  (at level 100, k at level 200, right associativity).

Definition lift {A} (r : result A) : M A := fun s => (r, s).

Definition lift_check (r : option exn) : M unit :=
  match r with
  | None => ret tt
  | Some e => raise e
  end.

Definition emit (e : event) : M unit :=
  fun s => (Return tt, State (st_heap s) (exit_callbacks s) (trace s ++ [e])).

Definition get_heap : M heap := fun s => (Return (st_heap s), s).

Definition put_heap (h : heap) : M unit :=
  fun s => (Return tt, State h (exit_callbacks s) (trace s)).

(** [try: c except cls: handler; raise]: the handler runs when the exception
    is an instance of [cls], and the exception is raised again. *)
Definition except_reraise {A} (cls : exc_class) (c : M A) (handler : M unit) : M A :=
  fun s => match c s with
           | (Raise e, s') =>
               if isinstance e cls then
                 match handler s' with
                 | (Return _, s'') => (Raise e, s'')
                 | (Raise e', s'') => (Raise e', s'')
                 end
               else (Raise e, s')
           | r => r
           end.

(** [try: c except cls: ...]: [true] when [c] returned, [false] when it
    raised an instance of [cls]; other exceptions propagate. *)
Definition try_except {A} (cls : exc_class) (c : M A) : M bool :=
  fun s => match c s with
           | (Return _, s') => (Return true, s')
           | (Raise e, s') => if isinstance e cls then (Return false, s') else (Raise e, s')
           end.

(** [for x in l: body]. *)
Fixpoint for_each {A} (l : list A) (body : A -> M unit) : M unit :=
  match l with
  | [] => ret tt
  | x :: l' => body x ;; for_each l' body
  end.

(** *** Dictionary objects *)

Definition key_error {A} (k : string) : M A := raise (Exn KeyError k).
Definition type_error {A} (msg : string) : M A := raise (Exn TypeError msg).

(** A new dictionary object. *)
Definition alloc (d : gmap string value) : M loc :=
  let! h := get_heap in
  let l := fresh (dom h) in
  put_heap (<[l := d]> h) ;; ret l.

(** The dictionary a reference points to. *)
Definition load (l : loc) : M (gmap string value) :=
  let! h := get_heap in
  match h !! l with
  | Some d => ret d
  | None => type_error "not a mapping"
  end.

(** [dict(d)]: a new object with the items of [d]; the values are shared. *)
Definition dict_copy (l : loc) : M loc :=
  let! d := load l in alloc d.

(** [k in d]. *)
Definition contains (l : loc) (k : string) : M bool :=
  let! d := load l in ret (bool_decide (is_Some (d !! k))).

(** [d[k]]. *)
Definition getitem (l : loc) (k : string) : M value :=
  let! d := load l in
  match d !! k with
  | Some v => ret v
  | None => key_error k
  end.

(** The object a value refers to; subscripting data is a [TypeError]. *)
Definition as_mapping (v : value) : M loc :=
  match v with
  | VRef l => load l ;; ret l
  | VData _ => type_error "not a mapping"
  end.

(** [d[k] = v]. *)
Definition setitem (l : loc) (k : string) (v : value) : M unit :=
  let! d := load l in
  let! h := get_heap in
  put_heap (<[l := <[k := v]> d]> h).

(** [d.update(other)]: the items of [other] are written over those of [d]. *)
Definition dict_update (l : loc) (other : gmap string value) : M unit :=
  let! d := load l in
  let! h := get_heap in
  put_heap (<[l := other ∪ d]> h).

(** [d.pop(k)]: [KeyError] when [k] is absent. *)
Definition dict_pop (l : loc) (k : string) : M unit :=
  let! d := load l in
  match d !! k with
  | Some _ => let! h := get_heap in put_heap (<[l := delete k d]> h)
  | None => key_error k
  end.

(** [test_block_config["variables"].update(other)] (lines 99 and 157). *)
Definition update_variables (cfg : loc) (other : gmap string value) : M unit :=
  let! vars := getitem cfg "variables" in
  let! vars := as_mapping vars in
  dict_update vars other.

Section Engine.
Context `{Builtins} `{Collaborators}.

(** *** ExitStack *)

(** [stack.enter_context(cm)]: [cm.__enter__()] is called and, when it
    returns, [cm.__exit__] is pushed. *)
Definition enter_context (cm : session) : M unit :=
  match session_enter cm with
  | Some e => emit (EnterContext cm false) ;; raise e
  | None =>
      emit (EnterContext cm true) ;;
      fun s => (Return tt, State (st_heap s) (cm :: exit_callbacks s) (trace s))
  end.

(** [ExitStack.__exit__]: the callbacks are called last first, each with the
    exception pending at that point. A callback returning true clears it, a
    callback that raises replaces it; the remaining callbacks are called in
    both cases. *)
Fixpoint unwind (cbs : list session) (exc : option exn) (pending suppressed : bool)
    (tr : list event) : option exn * bool * bool * list event :=
  match cbs with
  | [] => (exc, pending, suppressed, tr)
  | cb :: cbs' =>
      let tr' := tr ++ [ExitContext cb exc] in
      match session_exit cb exc with
      | ExitReturn true => unwind cbs' None false true tr'
      | ExitReturn false => unwind cbs' exc pending suppressed tr'
      | ExitRaise e => unwind cbs' (Some e) true suppressed tr'
      end
  end.

(** [with ExitStack() as stack: body]. *)
Definition with_ExitStack (body : M unit) : M unit :=
  fun s =>
    let '(r, s1) := body (State (st_heap s) [] (trace s)) in
    let received := match r with Return _ => None | Raise e => Some e end in
    let '(exc, pending, suppressed, tr) :=
      unwind (exit_callbacks s1) received false false (trace s1) in
    let s2 := State (st_heap s1) (exit_callbacks s) tr in
    if pending then
      match exc with Some e => (Raise e, s2) | None => (Return tt, s2) end
    else
      match received with
      | Some e => if suppressed then (Return tt, s2) else (Raise e, s2)
      | None => (Return tt, s2)
      end.

(** *** Calls to the collaborators *)

Definition warning (msg : string) : M unit := emit (LogWarning msg).
Definition info (msg : string) : M unit := emit (LogInfo msg).
Definition debug (msg : string) : M unit := emit (LogDebug msg).

Definition log_fail (st : stage) (v : option verifier) (exp : option expected) : M unit :=
  emit (LogFail st (verifier_name <$> v) exp).

Definition log_pass (st : stage) (vs : list verifier) : M unit :=
  emit (LogPass st (verifier_name <$> vs)).

Definition delay (st : stage) (ph : phase) : M unit := emit (Delay st ph).

Definition call_check_env_var_settings (vars : gmap string value) : M unit :=
  emit (CheckEnvVarSettings vars) ;; lift_check (check_env_var_settings vars).

Definition call_get_extra_sessions (spec : test_spec) : M (list (string * session)) :=
  emit (GetExtraSessions spec) ;; lift (get_extra_sessions spec).

Definition call_get_request_type (st : stage) (cfg : loc) (sessions : list (string * session))
    : M request_type :=
  let! h := get_heap in
  emit (GetRequestType st cfg h) ;; lift (get_request_type st h cfg sessions).

Definition call_get_expected (st : stage) (cfg : loc) (sessions : list (string * session))
    : M expected :=
  let! h := get_heap in
  emit (GetExpected st cfg h) ;; lift (get_expected st h cfg sessions).

Definition call_run (st : stage) (r : request_type) : M response :=
  emit (RequestRun st) ;; lift (request_run r).

Definition call_get_verifiers (st : stage) (cfg : loc) (sessions : list (string * session))
    (exp : expected) : M (list verifier) :=
  let! h := get_heap in
  emit (GetVerifiers st cfg h) ;; lift (get_verifiers st h cfg sessions exp).

Definition call_verify (cfg : loc) (v : verifier) (resp : response) : M verify_result :=
  let! h := get_heap in
  emit (Verify v resp cfg h) ;; lift (verify v resp h).

Definition call_verify_tests (spec : test_spec) : M unit :=
  emit (VerifyTests spec) ;; lift_check (verify_tests spec).

Definition box_update (box : loc) (k : string) (v : value) : M unit :=
  emit (BoxUpdate box k v) ;; setitem box k v.

Definition box_pop (box : loc) (k : string) : M unit :=
  emit (BoxPop box k) ;; dict_pop box k.

(** ** [run_test] *)

(** Lines 149-155: the [AssertionError] of a failing verifier. *)
Definition verification_failure (in_file : string) (st : stage) (v : verifier)
    (resp : response) (errs : list string) : M unit :=
  let! rq := lift (format_request (response_request resp)) in
  raise (Exn AssertionError
           (assertion_message (verifier_name v) in_file (join_errors errs)
              (textwrap_indent (yaml_dumps [st]) "  ")
              (textwrap_indent rq "  ")
              (textwrap_indent (format_response resp) "  "))).

(** Lines 143-157: the body of [for v in verifiers]. *)
Definition run_verifier (in_file : string) (st : stage) (cfg : loc) (exp : expected)
    (resp : response) (v : verifier) : M unit :=
  let! r := call_verify cfg v resp in
  match errors r with
  | _ :: _ =>
      log_fail st (Some v) (Some exp) ;;
      verification_failure in_file st v resp (errors r)
  | [] =>
      update_variables cfg (saved r)
  end.

(** Lines 114-162: the body of [for stage in test_spec["stages"]]. *)
Definition run_stage (in_file : string) (cfg tavern_box : loc)
    (sessions : list (string * session)) (st : stage) : M unit :=
  let! name := match stage_name st with Some n => ret n | None => key_error "name" end in
  let! r := except_reraise MissingFormatError
              (call_get_request_type st cfg sessions)
              (log_fail st None None) in
  box_update tavern_box "request_vars" (request_vars r) ;;
  let! exp := except_reraise TavernException
                (call_get_expected st cfg sessions)
                (log_fail st None None) in
  delay st Before ;;
  info ("Running stage : " +:+ name) ;;
  let! resp := except_reraise TavernException
                 (call_run st r)
                 (log_fail st None (Some exp)) in
  let! verifiers := call_get_verifiers st cfg sessions exp in
  for_each verifiers (run_verifier in_file st cfg exp resp) ;;
  log_pass st verifiers ;;
  box_pop tavern_box "request_vars" ;;
  delay st After.

(** Lines 95-99: the include fragments. *)
Definition merge_include (cfg : loc) (inc : included) : M unit :=
  match included_variables inc with
  | Some vars =>
      call_check_env_var_settings vars ;;
      update_variables cfg vars
  | None => ret tt
  end.

(** Lines 80-89: the configuration of the test, a copy of the global one
    with a ["variables"] mapping that holds the tavern box. The result is
    the pair of [test_block_config] and [tavern_box]. *)
Definition init_test_block_config (global_cfg : loc) : M (loc * loc) :=
  let! test_block_config := dict_copy global_cfg in
  let! has := contains test_block_config "variables" in
  (if has then ret tt
   else let! fresh_vars := alloc ∅ in
        setitem test_block_config "variables" (VRef fresh_vars)) ;;
  let! env_vars := alloc os_environ in
  let! tavern_box := alloc {[ "env_vars" := VRef env_vars ]} in
  let! vars := getitem test_block_config "variables" in
  let! vars := as_mapping vars in
  setitem vars "tavern" (VRef tavern_box) ;;
  ret (test_block_config, tavern_box).

(** Lines 106-162: the body of [with ExitStack() as stack]. *)
Definition test_body (in_file : string) (test_spec : test_spec)
    (test_block_config tavern_box : loc) : M unit :=
  let! sessions := call_get_extra_sessions test_spec in
  for_each sessions (fun ns =>
    debug ("Entering context for " +:+ fst ns) ;;
    enter_context (snd ns)) ;;
  let! sts := match stages test_spec with
              | Some l => ret l
              | None => key_error "stages"
              end in
  for_each sts (run_stage in_file test_block_config tavern_box sessions).

(** Lines 95-162: a document that is not empty. *)
Definition run_test_spec (in_file : string) (test_spec : test_spec)
    (test_block_config tavern_box : loc) : M unit :=
  for_each (default [] (includes test_spec)) (merge_include test_block_config) ;;
  let! test_block_name :=
    match test_name test_spec with
    | Some n => ret n
    | None => key_error "test_name"
    end in
  info ("Running test : " +:+ test_block_name) ;;
  with_ExitStack (test_body in_file test_spec test_block_config tavern_box).

Definition run_test (in_file : string) (doc : document) (global_cfg : loc) : M unit :=
  let! cfg_box := init_test_block_config global_cfg in
  match doc with
  | Some test_spec =>
      if truthy doc
      then run_test_spec in_file test_spec (fst cfg_box) (snd cfg_box)
      else warning ("Empty test block in " +:+ in_file)
  | None => warning ("Empty test block in " +:+ in_file)
  end.

(** ** [run] *)

(** Lines 196-211: the loop over the documents of the file; [passed] is the
    variable of the source. *)
Fixpoint run_documents (in_file : string) (global_cfg : loc) (docs : list document)
    (passed : bool) : M bool :=
  match docs with
  | [] => ret passed
  | doc :: docs' =>
      match doc with
      | Some test_spec =>
          if truthy doc then
            let! valid := try_except BadSchemaError (call_verify_tests test_spec) in
            if valid then
              let! ok := try_except TestFailError (run_test in_file doc global_cfg) in
              run_documents in_file global_cfg docs' (if ok then passed else false)
            else run_documents in_file global_cfg docs' false
          else
            warning ("Empty document in input file '" +:+ in_file +:+ "'") ;;
            run_documents in_file global_cfg docs' passed
      | None =>
          warning ("Empty document in input file '" +:+ in_file +:+ "'") ;;
          run_documents in_file global_cfg docs' passed
      end
  end.

(** [run]: [global_cfg] is the mapping [load_global_config] returned, [docs]
    the documents [yaml.load_all] yields. *)
Definition run (in_file : string) (global_cfg : loc) (docs : list document) : M bool :=
  run_documents in_file global_cfg docs true.

End Engine.


(** ** A concrete world

    An implementation of the library functions on ASCII text and a small
    set of collaborators, used to run the model on concrete documents. *)

Module World.

Definition is_quote (c : ascii) : bool := bool_decide (c = "'"%char).
Definition is_dquote (c : ascii) : bool := bool_decide (c = "034"%char).

Fixpoint string_exists (p : ascii -> bool) (s : string) : bool :=
  match s with
  | EmptyString => false
  | String c s' => p c || string_exists p s'
  end.

Definition hex_digit (n : N) : ascii :=
  ascii_of_N (if (n <? 10)%N then 48 + n else 87 + n)%N.

(** [repr] of one character of an ASCII string delimited by [quote]. *)
Definition repr_char (quote c : ascii) : string :=
  let n := N_of_ascii c in
  if bool_decide (c = quote) || bool_decide (c = "\"%char) then String "\"%char (String c "")
  else if (n =? 9)%N then "\t"
  else if (n =? 10)%N then "\n"
  else if (n =? 13)%N then "\r"
  else if (n <? 32)%N || (n =? 127)%N then
    "\x" +:+ String (hex_digit (n / 16)) (String (hex_digit (n mod 16)) "")
  else String c "".

Fixpoint repr_chars (quote : ascii) (s : string) : string :=
  match s with
  | EmptyString => ""
  | String c s' => repr_char quote c +:+ repr_chars quote s'
  end.

(** Python's [repr] of a [str], for ASCII text: single quotes unless the
    text has a single quote and no double quote. *)
Definition ascii_repr (s : string) : string :=
  let quote := if string_exists is_quote s && negb (string_exists is_dquote s)
               then "034"%char else "'"%char in
  String quote (repr_chars quote s +:+ String quote "").

(** The character ends a line for [str.splitlines] (ASCII). *)
Definition is_linebreak (c : ascii) : bool :=
  let n := N_of_ascii c in
  (n =? 10)%N || (n =? 11)%N || (n =? 12)%N || (n =? 13)%N
  || (n =? 28)%N || (n =? 29)%N || (n =? 30)%N.

(** The character is removed by [str.strip] (ASCII). *)
Definition is_space (c : ascii) : bool :=
  let n := N_of_ascii c in
  ((9 <=? n) && (n <=? 13))%N || ((28 <=? n) && (n <=? 32))%N.

(** [text.splitlines(True)]; [cur] is the line being read. *)
Fixpoint splitlines (cur : string) (s : string) : list string :=
  match s with
  | EmptyString => if bool_decide (cur = "") then [] else [cur]
  | String c s' =>
      if is_linebreak c then
        match s' with
        | String c' s'' =>
            if ((N_of_ascii c =? 13) && (N_of_ascii c' =? 10))%N
            then (cur +:+ String c (String c' "")) :: splitlines "" s''
            else (cur +:+ String c "") :: splitlines "" s'
        | EmptyString => [cur +:+ String c ""]
        end
      else splitlines (cur +:+ String c "") s'
  end.

(** [textwrap.indent(text, prefix)]: the prefix goes before every line that
    is not made of white space only. *)
Definition ascii_indent (text prefix : string) : string :=
  String.concat ""
    (map (fun line => if string_exists (fun c => negb (is_space c)) line
                      then prefix +:+ line else line)
         (splitlines "" text)).

(** Strict UTF-8: [need] continuation bytes are awaited, the next one within
    [lo, hi]. *)
Fixpoint utf8_valid (need : nat) (lo hi : N) (bs : list N) : bool :=
  match bs with
  | [] => bool_decide (need = O)
  | x :: bs' =>
      match need with
      | O =>
          if (x <? 128)%N then utf8_valid 0 128 191 bs'
          else if ((194 <=? x) && (x <=? 223))%N then utf8_valid 1 128 191 bs'
          else if (x =? 224)%N then utf8_valid 2 160 191 bs'
          else if (x =? 237)%N then utf8_valid 2 128 159 bs'
          else if ((225 <=? x) && (x <=? 239))%N then utf8_valid 2 128 191 bs'
          else if (x =? 240)%N then utf8_valid 3 144 191 bs'
          else if ((241 <=? x) && (x <=? 243))%N then utf8_valid 3 128 191 bs'
          else if (x =? 244)%N then utf8_valid 3 128 143 bs'
          else false
      | S n => if ((lo <=? x) && (x <=? hi))%N then utf8_valid n 128 191 bs' else false
      end
  end.

(** [bytes.decode()], text being kept in its UTF-8 encoding. *)
Definition utf8_decode (bs : bytes) : result string :=
  if utf8_valid 0 128 191 (Byte.to_N <$> bs)
  then Return (string_of_list_byte bs)
  else Raise (Exn UnicodeDecodeError "'utf-8' codec can't decode bytes").

#[export] Instance ascii_builtins : Builtins := {
  py_repr := ascii_repr;
  textwrap_indent := ascii_indent;
  bytes_decode := utf8_decode
}.

Definition example_request : request :=
  Request "GET" "http://localhost/ping" [("Accept", "*/*")] None.

Definition example_response (code : Z) (why : string) : response :=
  Response code why [("Content-Type", "text/plain")] "pong" example_request.

(** The status verifier: one error when the status is not 200; on success
    it saves [token]. *)
Definition status_verifier : verifier :=
  Verifier "status" (fun resp _ =>
    if (status_code resp =? 200)%Z
    then Return (VerifyResult [] {[ "token" := VData "abc" ]})
    else Return (VerifyResult ["status code " +:+ pretty (status_code resp) +:+ " != 200"] ∅)).

(** A verifier that reports the variable [token] as missing when the
    configuration it was built with does not hold it. *)
Definition token_verifier (cfg : loc) : verifier :=
  Verifier "token" (fun _ h =>
    match h !! cfg ≫= (.!! "variables") with
    | Some (VRef l) =>
        match h !! l ≫= (.!! "token") with
        | Some _ => Return (VerifyResult [] ∅)
        | None => Return (VerifyResult ["token is not set"] ∅)
        end
    | _ => Return (VerifyResult ["no variables"] ∅)
    end).

(** The behaviour of the plugins is read from the stage: ["undefined"] makes
    request resolution fail on a missing format variable, ["no request"]
    makes it fail on a missing key, ["unexpected"]
    makes expectation resolution fail, ["refused"] makes the transport fail,
    ["failed"] makes the request raise a [TestFailError],
    ["500"] answers with status 500, anything else with status 200. A
    document named ["sessions"] asks for the sessions 1 and 2, a document
    named ["broken sessions"] for the sessions 1 and 13; session 13 cannot
    be opened. *)
#[export] Instance example_collaborators : Collaborators := {
  os_environ := {[ "HOME" := VData "/root" ]};
  check_env_var_settings := fun vars =>
    match vars !! "needs" with
    | Some _ => Some (Exn (OtherTavern "MissingSettingsError") "needs")
    | None => None
    end;
  get_extra_sessions := fun spec =>
    if bool_decide (test_name spec = Some "sessions")
    then Return [("a", 1%nat); ("b", 2%nat)]
    else if bool_decide (test_name spec = Some "broken sessions")
    then Return [("a", 1%nat); ("b", 13%nat)]
    else Return [];
  session_enter := fun s =>
    if bool_decide (s = 13%nat)
    then Some (Exn (OtherBuiltin "ConnectionRefusedError") "session 13")
    else None;
  session_exit := fun _ _ => ExitReturn false;
  get_request_type := fun st _ _ _ =>
    if bool_decide (stage_spec st = "undefined")
    then Raise (Exn MissingFormatError "url")
    else if bool_decide (stage_spec st = "no request")
    then Raise (Exn (OtherTavern "MissingKeysError") "request")
    else Return (RequestType (VData ("spec=" +:+ stage_spec st))
                   (if bool_decide (stage_spec st = "refused")
                    then Raise (Exn (OtherTavern "ConnectionError") "refused")
                    else if bool_decide (stage_spec st = "failed")
                    then Raise (Exn TestFailError "failed")
                    else if bool_decide (stage_spec st = "500")
                    then Return (example_response 500 "Internal Server Error")
                    else Return (example_response 200 "OK")));
  get_expected := fun st _ _ _ =>
    if bool_decide (stage_spec st = "unexpected")
    then Raise (Exn (OtherTavern "KeyMismatchError") "expected")
    else Return "status 200";
  get_verifiers := fun st _ cfg _ _ => Return [status_verifier; token_verifier cfg];
  verify_tests := fun spec =>
    match stages spec with
    | Some _ => None
    | None => Some (Exn BadSchemaError "stages")
    end;
  yaml_dumps := fun sts =>
    String.concat "" (map (fun st => "- name: " +:+ default "" (stage_name st) +:+ nl) sts)
}.

(** A global configuration with a ["variables"] mapping: object 1 is the
    configuration, object 2 its variables. *)
Definition global_heap : heap :=
  {[ 1%positive := {[ "variables" := VRef 2%positive ]};
     2%positive := {[ "host" := VData "localhost" ]} ]}.

Definition global_state : state := State global_heap [] [].

(** A global configuration without variables. *)
Definition plain_state : state :=
  State {[ 1%positive := {[ "verbose" := VData "yes" ]} ]} [] [].

(** The heap as [run_test] has it when the stages start: object 3 is the
    test configuration, object 4 the environment variables, object 5 the
    tavern box. *)
Definition stage_heap : heap :=
  {[ 1%positive := {[ "variables" := VRef 2%positive ]};
     2%positive := {[ "host" := VData "localhost"; "tavern" := VRef 5%positive ]};
     3%positive := {[ "variables" := VRef 2%positive ]};
     4%positive := {[ "HOME" := VData "/root" ]};
     5%positive := {[ "env_vars" := VRef 4%positive ]} ]}.

Definition stage_state : state := State stage_heap [] [].

Definition stage_ok : stage := Stage (Some "ping") "200".
Definition stage_500 : stage := Stage (Some "ping") "500".
Definition stage_undefined : stage := Stage (Some "login") "undefined".
Definition stage_no_request : stage := Stage (Some "login") "no request".
Definition stage_unexpected : stage := Stage (Some "login") "unexpected".
Definition stage_failed : stage := Stage (Some "login") "failed".

End World.

(** * Properties *)

(** ** Running the monad *)

Lemma bind_Return {A B} (c : M A) (k : A -> M B) (s s'' : state) (b : B) :
  bind c k s = (Return b, s'') ->
  exists a s', c s = (Return a, s') /\ k a s' = (Return b, s'').
Proof.
  unfold bind. destruct (c s) as [[a|e] s'] eqn:E; [eauto | discriminate].
Qed.

Lemma bind_Raise {A B} (c : M A) (k : A -> M B) (s s'' : state) (e : exn) :
  bind c k s = (Raise e, s'') ->
  c s = (Raise e, s'') \/ exists a s', c s = (Return a, s') /\ k a s' = (Raise e, s'').
Proof.
  unfold bind. destruct (c s) as [[a|e'] s'] eqn:E; [eauto |].
  intros [= -> ->]. by left.
Qed.

Lemma bind_run_Return {A B} (c : M A) (k : A -> M B) (s s' : state) (a : A) :
  c s = (Return a, s') -> bind c k s = k a s'.
Proof. unfold bind. by intros ->. Qed.

Lemma bind_run_Raise {A B} (c : M A) (k : A -> M B) (s s' : state) (e : exn) :
  c s = (Raise e, s') -> bind c k s = (Raise e, s').
Proof. unfold bind. by intros ->. Qed.


Section StageProperties.
Context `{Builtins} `{Collaborators}.


(** *** What each call does *)

Definition log (s : state) (l : list event) : state :=
  State (st_heap s) (exit_callbacks s) (trace s ++ l).

Lemma log_nil (s : state) : log s [] = s.
Proof. destruct s. unfold log. simpl. by rewrite app_nil_r. Qed.

Lemma log_log (s : state) (l1 l2 : list event) : log (log s l1) l2 = log s (l1 ++ l2).
Proof. unfold log. simpl. by rewrite app_assoc. Qed.

Lemma emit_run (e : event) (s : state) : emit e s = (Return tt, log s [e]).
Proof. reflexivity. Qed.

Lemma call_get_request_type_run st cfg sessions s :
  call_get_request_type st cfg sessions s =
    (get_request_type st (st_heap s) cfg sessions, log s [GetRequestType st cfg (st_heap s)]).
Proof. reflexivity. Qed.

Lemma call_get_expected_run st cfg sessions s :
  call_get_expected st cfg sessions s =
    (get_expected st (st_heap s) cfg sessions, log s [GetExpected st cfg (st_heap s)]).
Proof. reflexivity. Qed.

Lemma call_get_verifiers_run st cfg sessions exp s :
  call_get_verifiers st cfg sessions exp s =
    (get_verifiers st (st_heap s) cfg sessions exp, log s [GetVerifiers st cfg (st_heap s)]).
Proof. reflexivity. Qed.

Lemma call_run_run st r s : call_run st r s = (request_run r, log s [RequestRun st]).
Proof. reflexivity. Qed.

Lemma call_verify_run cfg v resp s :
  call_verify cfg v resp s = (verify v resp (st_heap s), log s [Verify v resp cfg (st_heap s)]).
Proof. reflexivity. Qed.


(** *** Dictionary operations *)

Lemma update_variables_cases (cfg : loc) (other : gmap string value) (s : state) :
  (exists e, update_variables cfg other s = (Raise e, s)) \/
  (exists dc l d,
     st_heap s !! cfg = Some dc /\ dc !! "variables" = Some (VRef l) /\
     st_heap s !! l = Some d /\
     update_variables cfg other s =
       (Return tt, State (<[l := other ∪ d]> (st_heap s)) (exit_callbacks s) (trace s))).
Proof.
  unfold update_variables, getitem, as_mapping, dict_update, load, bind, get_heap, put_heap,
    key_error, type_error, raise, ret.
  simpl. destruct (st_heap s !! cfg) as [dc|] eqn:Hc; simpl; [|eauto].
  destruct (dc !! "variables") as [[d|l]|] eqn:Hv; simpl; [eauto| |eauto].
  destruct (st_heap s !! l) as [d|] eqn:Hl; simpl; [|eauto].
  right. exists dc, l, d. by rewrite Hl.
Qed.

Lemma setitem_cases (l : loc) (k : string) (v : value) (s : state) :
  (exists e, st_heap s !! l = None /\ setitem l k v s = (Raise e, s)) \/
  (exists d, st_heap s !! l = Some d /\
     setitem l k v s =
       (Return tt, State (<[l := <[k := v]> d]> (st_heap s)) (exit_callbacks s) (trace s))).
Proof.
  unfold setitem, load, bind, get_heap, put_heap, type_error, raise, ret. simpl.
  destruct (st_heap s !! l) as [d|] eqn:Hl; simpl; eauto.
Qed.

Lemma dict_pop_cases (l : loc) (k : string) (s : state) :
  (exists e, (st_heap s !! l ≫= (.!! k)) = None /\ dict_pop l k s = (Raise e, s)) \/
  (exists d v, st_heap s !! l = Some d /\ d !! k = Some v /\
     dict_pop l k s =
       (Return tt, State (<[l := delete k d]> (st_heap s)) (exit_callbacks s) (trace s))).
Proof.
  unfold dict_pop, load, bind, get_heap, put_heap, type_error, key_error, raise, ret. simpl.
  destruct (st_heap s !! l) as [d|] eqn:Hl; simpl; [|eauto].
  destruct (d !! k) as [v|] eqn:Hk; simpl; eauto 10.
Qed.




(** *** The verifiers of a stage *)

(** The exception [verification_failure] raises. *)
Definition failure_exn (in_file : string) (st : stage) (v : verifier) (resp : response)
    (errs : list string) : exn :=
  match format_request (response_request resp) with
  | Return rq =>
      Exn AssertionError
        (assertion_message (verifier_name v) in_file (join_errors errs)
           (textwrap_indent (yaml_dumps [st]) "  ")
           (textwrap_indent rq "  ")
           (textwrap_indent (format_response resp) "  "))
  | Raise e => e
  end.

Lemma run_verifier_run in_file st cfg exp resp v s :
  run_verifier in_file st cfg exp resp v s =
    match verify v resp (st_heap s) with
    | Raise e => (Raise e, log s [Verify v resp cfg (st_heap s)])
    | Return rv =>
        match errors rv with
        | [] => update_variables cfg (saved rv) (log s [Verify v resp cfg (st_heap s)])
        | _ :: _ =>
            (Raise (failure_exn in_file st v resp (errors rv)),
             log s [Verify v resp cfg (st_heap s);
                    LogFail st (Some (verifier_name v)) (Some exp)])
        end
    end.
Proof.
  unfold run_verifier. unfold bind at 1. rewrite call_verify_run.
  destruct (verify v resp (st_heap s)) as [rv|e]; [|done].
  destruct (errors rv) as [|e0 errs]; [done|].
  unfold bind, log_fail, verification_failure, failure_exn, lift, raise, bind. simpl.
  unfold log. simpl. rewrite <- app_assoc. simpl.
  by destruct (format_request (response_request resp)).
Qed.





(** *** Exception handlers *)

Lemma except_reraise_Return {A} cls (c : M A) handler s s' (a : A) :
  except_reraise cls c handler s = (Return a, s') -> c s = (Return a, s').
Proof.
  unfold except_reraise. destruct (c s) as [[a'|e] s1]; [done|].
  destruct (isinstance e cls); [|done]. by destruct (handler s1) as [[]].
Qed.

Lemma except_reraise_log_fail {A} cls (c : M A) st v exp s :
  except_reraise cls c (log_fail st v exp) s =
    match c s with
    | (Return a, s') => (Return a, s')
    | (Raise e, s') =>
        (Raise e, log s' (if isinstance e cls then [LogFail st (verifier_name <$> v) exp] else []))
    end.
Proof.
  unfold except_reraise. destruct (c s) as [[a|e] s1]; [done|].
  destruct (isinstance e cls); [done|]. by rewrite log_nil.
Qed.




(** *** One stage *)

(** The events of a stage up to the call of the verifiers. *)
Definition stage_opening (st : stage) (cfg box : loc) (n : string) (r : request_type)
    (h h1 : heap) : list event :=
  [GetRequestType st cfg h; BoxUpdate box "request_vars" (request_vars r);
   GetExpected st cfg h1; Delay st Before; LogInfo ("Running stage : " +:+ n);
   RequestRun st; GetVerifiers st cfg h1].

(** [run_stage], step by step. *)
Lemma run_stage_run in_file cfg box sessions st s :
  run_stage in_file cfg box sessions st s =
    match stage_name st with
    | None => (Raise (Exn KeyError "name"), s)
    | Some n =>
    match get_request_type st (st_heap s) cfg sessions with
    | Raise e =>
        (Raise e, log s (GetRequestType st cfg (st_heap s) ::
                         if isinstance e MissingFormatError then [LogFail st None None] else []))
    | Return r =>
    match st_heap s !! box with
    | None =>
        (Raise (Exn TypeError "not a mapping"),
         log s [GetRequestType st cfg (st_heap s); BoxUpdate box "request_vars" (request_vars r)])
    | Some db =>
    let h1 := <[box := <["request_vars" := request_vars r]> db]> (st_heap s) in
    let s1 l := State h1 (exit_callbacks s) (trace s ++ l) in
    match get_expected st h1 cfg sessions with
    | Raise e =>
        (Raise e, s1 (take 3 (stage_opening st cfg box n r (st_heap s) h1) ++
                      if isinstance e TavernException then [LogFail st None None] else []))
    | Return exp =>
    match request_run r with
    | Raise e =>
        (Raise e, s1 (take 6 (stage_opening st cfg box n r (st_heap s) h1) ++
                      if isinstance e TavernException then [LogFail st None (Some exp)] else []))
    | Return resp =>
    match get_verifiers st h1 cfg sessions exp with
    | Raise e => (Raise e, s1 (stage_opening st cfg box n r (st_heap s) h1))
    | Return vs =>
        (for_each vs (run_verifier in_file st cfg exp resp) ;;
         log_pass st vs ;;
         box_pop box "request_vars" ;;
         delay st After) (s1 (stage_opening st cfg box n r (st_heap s) h1))
    end end end end end end.
Proof.
  unfold run_stage. destruct (stage_name st) as [n|]; [|done].
  unfold bind at 1. simpl.
  unfold bind at 1. rewrite except_reraise_log_fail, call_get_request_type_run.
  destruct (get_request_type st (st_heap s) cfg sessions) as [r|e];
    [|rewrite log_log; by destruct (isinstance _ _)].
  unfold bind at 1. unfold box_update. unfold bind at 1. rewrite emit_run.
  destruct (setitem_cases box "request_vars" (request_vars r)
              (log (log s [GetRequestType st cfg (st_heap s)])
                 [BoxUpdate box "request_vars" (request_vars r)]))
    as [(e & Hb & Hs)|(db & Hb & Hs)]; simpl in Hb; rewrite Hb.
  - rewrite Hs. rewrite log_log. simpl.
    unfold setitem, load, bind, get_heap, type_error, raise in Hs. simpl in Hs.
    rewrite Hb in Hs. by injection Hs as <-.
  - rewrite Hs. simpl.
    unfold bind at 1. rewrite except_reraise_log_fail, call_get_expected_run. simpl.
    destruct (get_expected _ _ _ _) as [exp|e].
    + unfold bind at 1. unfold delay. rewrite emit_run.
      unfold bind at 1. unfold info. rewrite emit_run.
      unfold bind at 1. rewrite except_reraise_log_fail, call_run_run.
      destruct (request_run r) as [resp|e].
      * unfold bind at 1. rewrite call_get_verifiers_run. simpl.
        destruct (get_verifiers _ _ _ _ _) as [vs|e].
        -- unfold log. simpl. rewrite <- !app_assoc. done.
        -- unfold log. simpl. rewrite <- !app_assoc. done.
      * unfold log. simpl. rewrite <- !app_assoc. done.
    + unfold log. simpl. rewrite <- !app_assoc. done.
Qed.




(** C10: request resolution logs a stage failure only for a
    [MissingFormatError]; expectation resolution logs one for every
    [TavernException]. The exception is raised again in both. *)
Theorem C10_dispatch_handlers (in_file : string) (cfg box : loc)
    (sessions : list (string * session)) (st : stage) (n : string) (s : state) :
  stage_name st = Some n ->
  (forall e, get_request_type st (st_heap s) cfg sessions = Raise e ->
     run_stage in_file cfg box sessions st s =
       (Raise e,
        State (st_heap s) (exit_callbacks s)
          (trace s ++ GetRequestType st cfg (st_heap s) ::
             (if isinstance e MissingFormatError then [LogFail st None None] else [])))) /\
  (forall r db e,
     get_request_type st (st_heap s) cfg sessions = Return r ->
     st_heap s !! box = Some db ->
     let h1 := <[box := <["request_vars" := request_vars r]> db]> (st_heap s) in
     get_expected st h1 cfg sessions = Raise e ->
     run_stage in_file cfg box sessions st s =
       (Raise e,
        State h1 (exit_callbacks s)
          (trace s ++ [GetRequestType st cfg (st_heap s);
                       BoxUpdate box "request_vars" (request_vars r);
                       GetExpected st cfg h1] ++
             (if isinstance e TavernException then [LogFail st None None] else [])))).
Proof.
  intros Hn. split.
  - intros e Hr. by rewrite run_stage_run, Hn, Hr.
  - intros r db e Hr Hb h1 He. rewrite run_stage_run, Hn, Hr, Hb. simpl.
    fold h1. by rewrite He.
Qed.

End StageProperties.

(** ** The stage runner on the concrete world *)

Section StageExamples.
Import World.

Lemma C10_dispatch_handlers_witness :
  stage_name stage_undefined = Some "login" /\
  run_stage "f.yaml" 3 5 [] stage_undefined stage_state =
    (Raise (Exn MissingFormatError "url"),
     State stage_heap []
       [GetRequestType stage_undefined 3 stage_heap; LogFail stage_undefined None None]) /\
  run_stage "f.yaml" 3 5 [] stage_no_request stage_state =
    (Raise (Exn (OtherTavern "MissingKeysError") "request"),
     State stage_heap [] [GetRequestType stage_no_request 3 stage_heap]) /\
  let h1 := <[5%positive := {[ "env_vars" := VRef 4%positive;
                               "request_vars" := VData "spec=unexpected" ]}]> stage_heap in
  run_stage "f.yaml" 3 5 [] stage_unexpected stage_state =
    (Raise (Exn (OtherTavern "KeyMismatchError") "expected"),
     State h1 []
       [GetRequestType stage_unexpected 3 stage_heap;
        BoxUpdate 5 "request_vars" (VData "spec=unexpected");
        GetExpected stage_unexpected 3 h1;
        LogFail stage_unexpected None None]).
Proof.
  split; [reflexivity|]. split; [|split].
  - exact (proj1 (C10_dispatch_handlers "f.yaml" 3 5 [] stage_undefined "login" stage_state
                    eq_refl) _ eq_refl).
  - exact (proj1 (C10_dispatch_handlers "f.yaml" 3 5 [] stage_no_request "login" stage_state
                    eq_refl) _ eq_refl).
  - pose proof (proj2 (C10_dispatch_handlers "f.yaml" 3 5 [] stage_unexpected "login"
                         stage_state eq_refl)
                  (RequestType (VData "spec=unexpected") (Return (example_response 200 "OK")))
                  {[ "env_vars" := VRef 4%positive ]}
                  (Exn (OtherTavern "KeyMismatchError") "expected")
                  eq_refl eq_refl eq_refl) as Hrun.
    vm_compute in Hrun. vm_compute. exact Hrun.
Defined.


End StageExamples.

(** ** The verification failure *)

(** [x] occurs in [s] as it is. *)
Definition occurs (x s : string) : Prop := exists a b, s = a +:+ x +:+ b.

Lemma string_app_cons (ch : ascii) (a b : string) :
  String ch a +:+ b = String ch (a +:+ b).
Proof. reflexivity. Qed.

Lemma string_app_nil_l (a : string) : "" +:+ a = a.
Proof. reflexivity. Qed.

Lemma string_app_assoc (a b c : string) : (a +:+ b) +:+ c = a +:+ b +:+ c.
Proof. induction a as [|ch a IH]; [done|]. by rewrite !string_app_cons, IH. Qed.

Lemma string_app_nil_r (a : string) : a +:+ "" = a.
Proof. induction a as [|ch a IH]; [done|]. by rewrite string_app_cons, IH. Qed.

Lemma occurs_here (x : string) : occurs x x.
Proof. exists "", "". by rewrite string_app_nil_l, string_app_nil_r. Qed.

Lemma occurs_app_l (x s t : string) : occurs x s -> occurs x (s +:+ t).
Proof.
  intros (a & b & ->). exists a, (b +:+ t). by rewrite !string_app_assoc.
Qed.

Lemma occurs_app_r (x s t : string) : occurs x t -> occurs x (s +:+ t).
Proof.
  intros (a & b & ->). exists (s +:+ a), b. by rewrite !string_app_assoc.
Qed.

Lemma occurs_concat (sep x : string) (l : list string) :
  x ∈ l -> occurs x (String.concat sep l).
Proof.
  induction l as [|y l IH]; [by intros ?%elem_of_nil|].
  intros [->|Hx]%elem_of_cons; simpl.
  - destruct l; [apply occurs_here|]. apply occurs_app_l, occurs_here.
  - destruct l as [|z l]; [by apply elem_of_nil in Hx|].
    apply occurs_app_r, occurs_app_r. by apply IH.
Qed.

Section Failure.
Context `{Builtins} `{Collaborators}.

Lemma occurs_join_errors (err : string) (errs : list string) :
  err ∈ errs -> occurs err (join_errors errs).
Proof. intros Hin. unfold join_errors. by apply occurs_app_r, occurs_concat. Qed.

Lemma occurs_assertion_message (x name file errs stg req resp : string) :
  occurs x errs -> occurs x (assertion_message name file errs stg req resp).
Proof.
  intros Hx. unfold assertion_message.
  do 9 apply occurs_app_r. by apply occurs_app_l.
Qed.

Lemma for_each_app {A} (l1 l2 : list A) (body : A -> M unit) (s s1 : state) :
  for_each l1 body s = (Return tt, s1) ->
  for_each (l1 ++ l2) body s = for_each l2 body s1.
Proof.
  revert s. induction l1 as [|x l1 IH]; intros s; simpl.
  - by intros [= ->].
  - intros Hrun. apply bind_Return in Hrun as ([] & s0 & Hx & Hrest).
    unfold bind at 1. rewrite Hx. by apply IH.
Qed.

(** C4, as the code has it: the first verifier that reports errors ends the
    stage with an [AssertionError]; its message names the verifier, the
    file, the errors, the stage, the request and the response; no later
    verifier is called. *)
Theorem C4_verification_failure (in_file : string) (st : stage) (cfg : loc) (exp : expected)
    (resp : response) (before : list verifier) (v : verifier) (after : list verifier)
    (s s1 : state) (rv : verify_result) (rq : string) :
  for_each before (run_verifier in_file st cfg exp resp) s = (Return tt, s1) ->
  verify v resp (st_heap s1) = Return rv ->
  errors rv <> [] ->
  format_request (response_request resp) = Return rq ->
  let msg :=
    assertion_message (verifier_name v) in_file (join_errors (errors rv))
      (textwrap_indent (yaml_dumps [st]) "  ")
      (textwrap_indent rq "  ")
      (textwrap_indent (format_response resp) "  ") in
  for_each (before ++ v :: after) (run_verifier in_file st cfg exp resp) s =
    (Raise (Exn AssertionError msg),
     State (st_heap s1) (exit_callbacks s1)
       (trace s1 ++ [Verify v resp cfg (st_heap s1);
                     LogFail st (Some (verifier_name v)) (Some exp)])) /\
  (forall err, err ∈ errors rv -> occurs err msg).
Proof.
  intros Hbefore Hv Herr Hrq msg. split.
  - rewrite (for_each_app _ _ _ _ _ Hbefore). simpl.
    unfold bind. rewrite run_verifier_run, Hv.
    destruct (errors rv) as [|e0 errs] eqn:He; [done|].
    unfold failure_exn. rewrite Hrq. subst msg. done.
  - intros err Hin. by apply occurs_assertion_message, occurs_join_errors.
Qed.

End Failure.

Section FailureExamples.
Import World.

Definition failing_document : document :=
  Some (TestSpec None (Some "login flow") (Some [stage_500])).

Definition failure_message (name : string) : string :=
  assertion_message name "f.yaml" (join_errors ["status code 500 != 200"])
    (textwrap_indent (yaml_dumps [stage_500]) "  ")
    (textwrap_indent ("GET http://localhost/ping" +:+ nl +:+ "Accept: */*") "  ")
    (textwrap_indent (format_response (example_response 500 "Internal Server Error")) "  ").

(** C4 as stated fails: the test is named "login flow", the message names
    the verifier and the name of the test occurs nowhere in it. *)
Lemma C4_counterexample :
  (run_test "f.yaml" failing_document 1 global_state).1 =
    Raise (Exn AssertionError (failure_message "status")) /\
  failure_message "status" <> failure_message "login flow" /\
  index 0 "login flow" (failure_message "status") = None.
Proof.
  split; [vm_compute; reflexivity|]. split; [|vm_compute; reflexivity].
  vm_compute. discriminate.
Defined.

Lemma C4_verification_failure_witness :
  let resp := example_response 500 "Internal Server Error" in
  for_each [status_verifier; token_verifier 3] (run_verifier "f.yaml" stage_500 3 "status 200" resp)
    stage_state =
    (Raise (Exn AssertionError (failure_message "status")),
     State stage_heap []
       [Verify status_verifier resp 3 stage_heap;
        LogFail stage_500 (Some "status") (Some "status 200")]) /\
  occurs "status code 500 != 200" (failure_message "status").
Proof.
  intros resp.
  destruct (C4_verification_failure "f.yaml" stage_500 3 "status 200" resp
              [] status_verifier [token_verifier 3] stage_state stage_state
              (VerifyResult ["status code 500 != 200"] ∅)
              ("GET http://localhost/ping" +:+ nl +:+ "Accept: */*")
              eq_refl eq_refl ltac:(discriminate) eq_refl) as [Hrun Hocc].
  split; [exact Hrun|]. apply Hocc. constructor.
Defined.

End FailureExamples.

(** ** The global configuration and the file driver on the concrete world *)

Section FileExamples.
Import World.

Definition passing_document : document :=
  Some (TestSpec None (Some "ping") (Some [stage_ok])).

Definition test_fail_document : document :=
  Some (TestSpec None (Some "failed") (Some [stage_failed])).

Definition undefined_document : document :=
  Some (TestSpec None (Some "undefined") (Some [stage_undefined])).

(** The sessions the file driver sees being asked for, one per test that
    reaches its [with] block. *)
Definition tests_started (tr : list event) : list (option string) :=
  omap (fun e => match e with GetExtraSessions spec => Some (test_name spec) | _ => None end) tr.

(** C2 fails on the code: [dict(global_cfg)] copies the configuration one
    level deep. With a global configuration [{"variables": {"host":
    "localhost"}}], the mapping of the configuration itself is left as it
    was, but its ["variables"] mapping has gained the ["tavern"] entry after
    an empty document, and the saved variable ["token"] too after a passing
    test. *)
Theorem C2_global_variables_mutated :
  let empty := run_test "f.yaml" None 1 global_state in
  let passed := run_test "f.yaml" passing_document 1 global_state in
  global_heap !! 1%positive = Some {[ "variables" := VRef 2%positive ]} /\
  global_heap !! 2%positive = Some {[ "host" := VData "localhost" ]} /\
  empty.1 = Return tt /\
  st_heap empty.2 !! 1%positive = Some {[ "variables" := VRef 2%positive ]} /\
  st_heap empty.2 !! 2%positive =
    Some {[ "host" := VData "localhost"; "tavern" := VRef 5%positive ]} /\
  passed.1 = Return tt /\
  st_heap passed.2 !! 2%positive =
    Some {[ "host" := VData "localhost"; "tavern" := VRef 5%positive;
            "token" := VData "abc" ]}.
Proof. vm_compute. repeat split. Qed.

(** C3 fails on the code: the [AssertionError] of a failing verifier is not
    a [TestFailError], so it leaves [run]: no boolean is returned and the
    next document is not run. A [TestFailError] is caught: the file goes
    on and the result is false. *)
Theorem C3_verification_failure_leaves_run :
  let out := run "f.yaml" 1 [failing_document; passing_document] global_state in
  let caught := run "f.yaml" 1 [test_fail_document; passing_document] global_state in
  let dispatch := run "f.yaml" 1 [undefined_document; passing_document] global_state in
  out.1 = Raise (Exn AssertionError (failure_message "status")) /\
  tests_started (trace out.2) = [Some "login flow"] /\
  isinstance (Exn AssertionError (failure_message "status")) TestFailError = false /\
  caught.1 = Return false /\
  tests_started (trace caught.2) = [Some "failed"; Some "ping"] /\
  dispatch.1 = Raise (Exn MissingFormatError "url") /\
  tests_started (trace dispatch.2) = [Some "undefined"].
Proof. vm_compute. repeat split. Qed.

End FileExamples.


(** ** The configuration of a test *)

(** The global configuration is a mapping whose ["variables"] entry, when
    there is one, is a mapping. *)
Definition global_ok (h : heap) (g : loc) : Prop :=
  exists dg, h !! g = Some dg /\
    (dg !! "variables" = None \/
     exists lv, dg !! "variables" = Some (VRef lv) /\ is_Some (h !! lv)).

(** [test_block_config["variables"]] as a call that receives [cfg] in the
    heap [h] sees it. *)
Definition variables (h : heap) (cfg : loc) : option (gmap string value) :=
  match h !! cfg ≫= (.!! "variables") with
  | Some (VRef l) => h !! l
  | _ => None
  end.

(** What [init_test_block_config] builds: the configuration [c], the
    variables [lv] it points to, the tavern box [b]. *)
Record test_objects (h h' : heap) (g c lv b : loc) : Prop := TestObjects {
  objects_cfg : exists dc, h' !! c = Some dc /\ dc !! "variables" = Some (VRef lv);
  objects_vars : exists E, h' !! lv = Some E /\ E !! "tavern" = Some (VRef b);
  objects_box : exists db, h' !! b = Some db /\ db !! "request_vars" = None;
  objects_c_lv : c <> lv;
  objects_b_lv : b <> lv;
  objects_b_c : b <> c;
  objects_c_fresh : h !! c = None;
  objects_b_fresh : h !! b = None;
  objects_shared :
    forall dg lv0, h !! g = Some dg -> dg !! "variables" = Some (VRef lv0) ->
      lv = lv0 /\ exists d0, h !! lv0 = Some d0 /\ h' !! lv0 = Some (<["tavern" := VRef b]> d0);
  objects_frame : forall l, is_Some (h !! l) -> l <> lv -> h' !! l = h !! l
}.

(** Lookups through a stack of updates at other objects. *)
Ltac heap_lookup :=
  repeat (rewrite lookup_insert_ne by done); try (rewrite lookup_insert_eq); try done.

Section Init.
Context `{Builtins} `{Collaborators}.

Lemma fresh_lookup (h : heap) : h !! fresh (dom h) = None.
Proof. apply not_elem_of_dom, is_fresh. Qed.

Lemma alloc_run (d : gmap string value) (h : heap) cbs tr :
  alloc d (State h cbs tr) = (Return (fresh (dom h)), State (<[fresh (dom h) := d]> h) cbs tr).
Proof. reflexivity. Qed.

Lemma load_run (l : loc) (d : gmap string value) (h : heap) cbs tr :
  h !! l = Some d -> load l (State h cbs tr) = (Return d, State h cbs tr).
Proof. intros Hl. unfold load, bind, get_heap. simpl. by rewrite Hl. Qed.

Lemma dict_copy_run (l : loc) (d : gmap string value) (h : heap) cbs tr :
  h !! l = Some d ->
  dict_copy l (State h cbs tr) =
    (Return (fresh (dom h)), State (<[fresh (dom h) := d]> h) cbs tr).
Proof.
  intros Hl. unfold dict_copy. by rewrite (bind_run_Return _ _ _ _ _ (load_run _ _ _ _ _ Hl)).
Qed.

Lemma contains_run (l : loc) (k : string) (d : gmap string value) (h : heap) cbs tr :
  h !! l = Some d ->
  contains l k (State h cbs tr) = (Return (bool_decide (is_Some (d !! k))), State h cbs tr).
Proof.
  intros Hl. unfold contains. by rewrite (bind_run_Return _ _ _ _ _ (load_run _ _ _ _ _ Hl)).
Qed.

Lemma getitem_run (l : loc) (k : string) (d : gmap string value) (v : value) (h : heap) cbs tr :
  h !! l = Some d -> d !! k = Some v ->
  getitem l k (State h cbs tr) = (Return v, State h cbs tr).
Proof.
  intros Hl Hk. unfold getitem. rewrite (bind_run_Return _ _ _ _ _ (load_run _ _ _ _ _ Hl)).
  by rewrite Hk.
Qed.

Lemma as_mapping_run (l : loc) (d : gmap string value) (h : heap) cbs tr :
  h !! l = Some d -> as_mapping (VRef l) (State h cbs tr) = (Return l, State h cbs tr).
Proof.
  intros Hl. simpl. by rewrite (bind_run_Return _ _ _ _ _ (load_run _ _ _ _ _ Hl)).
Qed.

Lemma setitem_run (l : loc) (k : string) (v : value) (d : gmap string value) (h : heap) cbs tr :
  h !! l = Some d ->
  setitem l k v (State h cbs tr) = (Return tt, State (<[l := <[k := v]> d]> h) cbs tr).
Proof.
  intros Hl. unfold setitem. by rewrite (bind_run_Return _ _ _ _ _ (load_run _ _ _ _ _ Hl)).
Qed.

Lemma init_test_block_config_run (g : loc) (s : state) :
  global_ok (st_heap s) g ->
  exists c lv b h',
    init_test_block_config g s = (Return (c, b), State h' (exit_callbacks s) (trace s)) /\
    test_objects (st_heap s) h' g c lv b.
Proof.
  intros (dg & Hg & Hvars). destruct s as [h cbs tr]. simpl in *.
  unfold init_test_block_config.
  rewrite (bind_run_Return _ _ _ _ _ (dict_copy_run _ _ _ _ _ Hg)). simpl.
  set (c := fresh (dom h)).
  assert (Hc : h !! c = None) by apply fresh_lookup.
  set (h1 := <[c := dg]> h).
  assert (Hc1 : h1 !! c = Some dg) by apply lookup_insert_eq.
  rewrite (bind_run_Return _ _ _ _ _ (contains_run _ "variables" _ _ _ _ Hc1)).
  destruct Hvars as [Hnone|(lv & Hlv & [d0 Hd0])].
  - (* no variables: a new mapping *)
    rewrite Hnone. rewrite bool_decide_eq_false_2 by (by intros [? ?]).
    unfold bind at 1. unfold bind at 1. rewrite alloc_run. simpl.
    set (lv := fresh (dom h1)).
    assert (Hlv1 : h1 !! lv = None) by apply fresh_lookup.
    assert (Hlvc : lv <> c) by (intros E; rewrite E in Hlv1; congruence).
    set (h2 := <[lv := ∅]> h1).
    assert (Hc2 : h2 !! c = Some dg) by (subst h2; by rewrite lookup_insert_ne).
    rewrite (setitem_run _ _ _ _ _ _ _ Hc2). simpl.
    set (h3 := <[c := <["variables" := VRef lv]> dg]> h2).
    unfold bind at 1. rewrite alloc_run. simpl.
    set (e := fresh (dom h3)).
    assert (He : h3 !! e = None) by apply fresh_lookup.
    set (h4 := <[e := os_environ]> h3).
    unfold bind at 1. rewrite alloc_run. simpl. fold h4.
    set (b := fresh (dom h4)).
    assert (Hb : h4 !! b = None) by apply fresh_lookup.
    set (h5 := <[b := {[ "env_vars" := VRef e ]}]> h4).
    assert (Hec : e <> c) by (intros E; rewrite E in He; subst h3;
                              by rewrite lookup_insert_eq in He).
    assert (Helv : e <> lv).
    { intros E. rewrite E in He. subst h3 h2.
      rewrite lookup_insert_ne in He by done. by rewrite lookup_insert_eq in He. }
    assert (Hbe : b <> e) by (intros E; rewrite E in Hb; subst h4;
                              by rewrite lookup_insert_eq in Hb).
    assert (Hbc : b <> c).
    { intros E. rewrite E in Hb. subst h4 h3.
      rewrite lookup_insert_ne in Hb by done. by rewrite lookup_insert_eq in Hb. }
    assert (Hblv : b <> lv).
    { intros E. rewrite E in Hb. subst h4 h3 h2.
      rewrite (lookup_insert_ne _ e lv), (lookup_insert_ne _ c lv) in Hb by done.
      by rewrite lookup_insert_eq in Hb. }
    assert (Hbh : h !! b = None).
    { subst h4 h3 h2 h1. rewrite !lookup_insert_ne in Hb by done. done. }
    assert (Heh : h !! e = None).
    { subst h3 h2 h1. rewrite !lookup_insert_ne in He by done. done. }
    assert (Hlvh : h !! lv = None).
    { subst h1. rewrite lookup_insert_ne in Hlv1 by done. done. }
    assert (Hc5 : h5 !! c = Some (<["variables" := VRef lv]> dg)).
    { subst h5 h4 h3. heap_lookup. }
    assert (Hlv5 : h5 !! lv = Some ∅).
    { subst h5 h4 h3 h2. heap_lookup. }
    erewrite (bind_run_Return _ _ _ _ _ (getitem_run _ "variables" _ (VRef lv) _ _ _ Hc5 _)).
    Unshelve. 2: by rewrite lookup_insert_eq.
    rewrite (bind_run_Return _ _ _ _ _ (as_mapping_run _ _ _ _ _ Hlv5)).
    unfold bind at 1. rewrite (setitem_run _ _ _ _ _ _ _ Hlv5). simpl.
    eexists c, lv, b, _. split; [reflexivity|].
    split.
    + eexists. rewrite lookup_insert_ne by done. split; [exact Hc5|]. by rewrite lookup_insert_eq.
    + eexists. rewrite lookup_insert_eq. split; [done|]. by rewrite lookup_insert_eq.
    + eexists. rewrite lookup_insert_ne by done. subst h5. rewrite lookup_insert_eq.
      split; [done|]. by rewrite lookup_singleton_ne.
    + done.
    + done.
    + done.
    + done.
    + done.
    + intros dg' lv0 Hg' Hv'. rewrite Hg in Hg'. injection Hg' as <-. congruence.
    + intros l [dl Hl] Hne. subst h5 h4 h3 h2 h1.
      rewrite !lookup_insert_ne; [done|..]; intros <-; congruence.
  - (* the variables of the global configuration *)
    rewrite Hlv. rewrite bool_decide_eq_true_2 by eauto.
    unfold bind at 1. simpl.
    unfold bind at 1. rewrite alloc_run. simpl.
    set (e := fresh (dom h1)).
    assert (He : h1 !! e = None) by apply fresh_lookup.
    set (h4 := <[e := os_environ]> h1).
    unfold bind at 1. rewrite alloc_run. simpl. fold h4.
    set (b := fresh (dom h4)).
    assert (Hb : h4 !! b = None) by apply fresh_lookup.
    set (h5 := <[b := {[ "env_vars" := VRef e ]}]> h4).
    assert (Hec : e <> c) by (intros E; rewrite E in He; congruence).
    assert (Hbe : b <> e) by (intros E; rewrite E in Hb; subst h4;
                              by rewrite lookup_insert_eq in Hb).
    assert (Hbc : b <> c).
    { intros E. rewrite E in Hb. subst h4. rewrite lookup_insert_ne in Hb by done. congruence. }
    assert (Hclv : c <> lv) by (intros E; congruence).
    assert (Helv : e <> lv).
    { intros E. rewrite E in He. subst h1. rewrite lookup_insert_ne in He by done. congruence. }
    assert (Hblv : b <> lv).
    { intros E. rewrite E in Hb. subst h4 h1. rewrite !lookup_insert_ne in Hb by done.
      congruence. }
    assert (Hbh : h !! b = None).
    { subst h4 h1. rewrite !lookup_insert_ne in Hb by done. done. }
    assert (Heh : h !! e = None).
    { subst h1. rewrite !lookup_insert_ne in He by done. done. }
    assert (Hc5 : h5 !! c = Some dg).
    { subst h5 h4. by rewrite !lookup_insert_ne. }
    assert (Hlv5 : h5 !! lv = Some d0).
    { subst h5 h4 h1. by rewrite !lookup_insert_ne. }
    rewrite (bind_run_Return _ _ _ _ _ (getitem_run _ "variables" _ (VRef lv) _ _ _ Hc5 Hlv)).
    rewrite (bind_run_Return _ _ _ _ _ (as_mapping_run _ _ _ _ _ Hlv5)).
    unfold bind at 1. rewrite (setitem_run _ _ _ _ _ _ _ Hlv5). simpl.
    eexists c, lv, b, _. split; [reflexivity|].
    split.
    + exists dg. rewrite lookup_insert_ne by done. done.
    + eexists. rewrite lookup_insert_eq. split; [done|]. by rewrite lookup_insert_eq.
    + eexists. rewrite lookup_insert_ne by done. subst h5. rewrite lookup_insert_eq.
      split; [done|]. by rewrite lookup_singleton_ne.
    + done.
    + done.
    + done.
    + done.
    + done.
    + intros dg' lv0 Hg' Hv'. rewrite Hg in Hg'. injection Hg' as <-.
      rewrite Hlv in Hv'. injection Hv' as <-. split; [done|].
      exists d0. split; [done|]. by rewrite lookup_insert_eq.
    + intros l [dl Hl] Hne. subst h5 h4 h1.
      rewrite !lookup_insert_ne; [done|..]; intros <-; congruence.
Qed.

End Init.


(** ** The trace of a test

    The calls of a test, read as the run of a small machine that follows
    the variables and the transient entry. [c] is the configuration of the
    test, [lv] its variables, [b] the tavern box. *)

Record astate := AState {
  alive : bool;
  env : gmap string value;
  transient : option value
}.

(** The events that neither receive the configuration nor touch the box. *)
Definition quiet (e : event) : Prop :=
  match e with
  | GetRequestType _ _ _ | GetExpected _ _ _ | GetVerifiers _ _ _ | Verify _ _ _ _
  | BoxUpdate _ _ _ | BoxPop _ _ => False
  | _ => True
  end.

Section Machine.
Variables c lv b : loc.

(** The heap [h] holds the variables and the transient entry of [q]. *)
Definition sees (h : heap) (q : astate) : Prop :=
  (exists dc, h !! c = Some dc /\ dc !! "variables" = Some (VRef lv)) /\
  h !! lv = Some (env q) /\
  (exists db, h !! b = Some db /\ db !! "request_vars" = transient q).

Inductive step : astate -> event -> astate -> Prop :=
  | step_request E st h :
      sees h (AState true E None) ->
      step (AState true E None) (GetRequestType st c h) (AState true E None)
  | step_box_update E v :
      step (AState true E None) (BoxUpdate b "request_vars" v) (AState true E (Some v))
  | step_expected E v st h :
      sees h (AState true E (Some v)) ->
      step (AState true E (Some v)) (GetExpected st c h) (AState true E (Some v))
  | step_verifiers E v st h :
      sees h (AState true E (Some v)) ->
      step (AState true E (Some v)) (GetVerifiers st c h) (AState true E (Some v))
  | step_verify_pass E v vr resp h rv :
      sees h (AState true E (Some v)) ->
      verify vr resp h = Return rv -> errors rv = [] ->
      step (AState true E (Some v)) (Verify vr resp c h) (AState true (saved rv ∪ E) (Some v))
  | step_verify_fail E v vr resp h :
      sees h (AState true E (Some v)) ->
      (forall rv, verify vr resp h = Return rv -> errors rv <> []) ->
      step (AState true E (Some v)) (Verify vr resp c h) (AState false E (Some v))
  | step_box_pop E v :
      step (AState true E (Some v)) (BoxPop b "request_vars") (AState true E None)
  | step_quiet q e :
      quiet e -> step q e q.

Inductive steps : astate -> list event -> astate -> Prop :=
  | steps_nil q : steps q [] q
  | steps_cons q e q' tr q'' : step q e q' -> steps q' tr q'' -> steps q (e :: tr) q''.

Lemma steps_app q tr1 q' tr2 q'' :
  steps q tr1 q' -> steps q' tr2 q'' -> steps q (tr1 ++ tr2) q''.
Proof. induction 1; simpl; [done|]. intros. econstructor; eauto. Qed.

Lemma steps_app_inv q tr1 tr2 q'' :
  steps q (tr1 ++ tr2) q'' -> exists q', steps q tr1 q' /\ steps q' tr2 q''.
Proof.
  revert q. induction tr1 as [|e tr1 IH]; intros q; simpl.
  - intros. exists q. split; [constructor|done].
  - inversion 1; subst. destruct (IH _ H5) as (q1 & H1 & H2).
    exists q1. split; [econstructor; eauto|done].
Qed.

Lemma steps_one q e q' : step q e q' -> steps q [e] q'.
Proof. intros. econstructor; [done|constructor]. Qed.

Lemma steps_quiet q tr : Forall quiet tr -> steps q tr q.
Proof. induction 1; [constructor|]. econstructor; [by apply step_quiet|done]. Qed.

Lemma steps_env_mono q tr q' : steps q tr q' -> dom (env q) ⊆ dom (env q').
Proof.
  induction 1 as [|q e q1 tr q2 Hstep _ IH]; [done|].
  etrans; [|exact IH]. destruct Hstep; simpl; try done.
  rewrite dom_union. set_solver.
Qed.

End Machine.

(** *** A program logic for the machine *)

Section Logic.
Context `{Builtins} `{Collaborators}.
Variables c lv b : loc.
Hypothesis Hclv : c <> lv.
Hypothesis Hblv : b <> lv.
Hypothesis Hbc : b <> c.

(** From a live state of the machine that the heap agrees with, [f] emits
    events the machine accepts and leaves a heap that agrees with the state
    reached; when [f] returns, the machine is still live. *)
Definition runs {A} (P : astate -> Prop) (f : M A) (Q : A -> astate -> Prop) : Prop :=
  forall q s, alive q = true -> P q -> sees c lv b (st_heap s) q ->
    exists q' tr,
      trace (f s).2 = trace s ++ tr /\ steps c lv b q tr q' /\
      sees c lv b (st_heap (f s).2) q' /\
      match (f s).1 with
      | Return a => alive q' = true /\ Q a q'
      | Raise _ => True
      end.

Lemma runs_ret {A} (P : astate -> Prop) (a : A) (Q : A -> astate -> Prop) :
  (forall q, P q -> Q a q) -> runs P (ret a) Q.
Proof.
  intros HPQ q s Hq HP Hsees. exists q, []. simpl. rewrite app_nil_r.
  split_and!; [done|constructor|done|done|by apply HPQ].
Qed.

Lemma runs_raise {A} (P : astate -> Prop) (e : exn) (Q : A -> astate -> Prop) :
  runs P (raise e) Q.
Proof.
  intros q s Hq HP Hsees. exists q, []. simpl. rewrite app_nil_r.
  split_and!; [done|constructor|done|done].
Qed.

Lemma runs_bind {A B} (P : astate -> Prop) (f : M A) (R : A -> astate -> Prop)
    (k : A -> M B) (Q : B -> astate -> Prop) :
  runs P f R -> (forall a, runs (R a) (k a) Q) -> runs P (bind f k) Q.
Proof.
  intros Hf Hk q s Hq HP Hsees.
  destruct (Hf q s Hq HP Hsees) as (q1 & tr1 & Htr1 & Hst1 & Hsees1 & Hres1).
  unfold bind. destruct (f s) as [[a|e] s1]; simpl in *.
  - destruct Hres1 as [Hq1 HR].
    destruct (Hk a q1 s1 Hq1 HR Hsees1) as (q2 & tr2 & Htr2 & Hst2 & Hsees2 & Hres2).
    exists q2, (tr1 ++ tr2). rewrite Htr2, Htr1, app_assoc.
    split_and!; [done|by eapply steps_app|done|done].
  - exists q1, tr1. done.
Qed.

Lemma runs_weaken {A} (P P' : astate -> Prop) (f : M A) (Q Q' : A -> astate -> Prop) :
  runs P f Q -> (forall q, P' q -> P q) -> (forall a q, Q a q -> Q' a q) -> runs P' f Q'.
Proof.
  intros Hf HP HQ q s Hq HP' Hsees.
  destruct (Hf q s Hq (HP _ HP') Hsees) as (q1 & tr1 & Htr1 & Hst1 & Hsees1 & Hres1).
  exists q1, tr1. split_and!; try done.
  destruct (f s).1; [|done]. destruct Hres1. split; [done|]. by apply HQ.
Qed.

Lemma runs_emit (P : astate -> Prop) (e : event) :
  quiet e -> runs P (emit e) (fun _ => P).
Proof.
  intros He q s Hq HP Hsees. exists q, [e]. simpl.
  split_and!; [done|by apply steps_one, step_quiet|done|done|done].
Qed.

Lemma runs_lift {A} (P : astate -> Prop) (r : result A) :
  runs P (lift r) (fun _ => P).
Proof.
  intros q s Hq HP Hsees. exists q, []. unfold lift. simpl. rewrite app_nil_r.
  split_and!; [done|constructor|done|]. by destruct r.
Qed.

Lemma runs_lift_check (P : astate -> Prop) (r : option exn) :
  runs P (lift_check r) (fun _ => P).
Proof. destruct r; [apply runs_raise|by apply runs_ret]. Qed.

Lemma runs_for_each {A} (P : astate -> Prop) (l : list A) (body : A -> M unit) :
  (forall x, runs P (body x) (fun _ => P)) -> runs P (for_each l body) (fun _ => P).
Proof.
  intros Hbody. induction l as [|x l IH]; simpl.
  - by apply runs_ret.
  - eapply runs_bind; [apply Hbody|]. intros []. apply IH.
Qed.

Lemma runs_except_reraise {A} (P : astate -> Prop) cls (f : M A) st v exp
    (Q : A -> astate -> Prop) :
  runs P f Q -> runs P (except_reraise cls f (log_fail st v exp)) Q.
Proof.
  intros Hf q s Hq HP Hsees.
  destruct (Hf q s Hq HP Hsees) as (q1 & tr1 & Htr1 & Hst1 & Hsees1 & Hres1).
  rewrite except_reraise_log_fail. destruct (f s) as [[a|e] s1]; simpl in *.
  - exists q1, tr1. done.
  - exists q1, (tr1 ++ if isinstance e cls then [LogFail st (verifier_name <$> v) exp] else []).
    rewrite Htr1, app_assoc. split_and!; [done| |done|done].
    eapply steps_app; [done|]. apply steps_quiet.
    destruct (isinstance e cls); repeat constructor.
Qed.

(** Between two stages the transient entry is absent; within a stage it
    holds the variables of the request. *)
Definition idle (q : astate) : Prop := transient q = None.
Definition staged (v : value) (q : astate) : Prop := transient q = Some v.

Lemma runs_call_get_request_type st sessions :
  runs idle (call_get_request_type st c sessions) (fun _ => idle).
Proof.
  intros [al E t] s Hq HP Hsees. rewrite call_get_request_type_run.
  unfold idle in *. simpl in *. subst.
  exists (AState true E None), [GetRequestType st c (st_heap s)].
  split_and!; [done|by apply steps_one, step_request|done|].
  by destruct (get_request_type _ _ _ _).
Qed.

Lemma runs_call_get_expected v st sessions :
  runs (staged v) (call_get_expected st c sessions) (fun _ => staged v).
Proof.
  intros [al E t] s Hq HP Hsees. rewrite call_get_expected_run.
  unfold staged in *. simpl in *. subst.
  exists (AState true E (Some v)), [GetExpected st c (st_heap s)].
  split_and!; [done|by apply steps_one, step_expected|done|].
  by destruct (get_expected _ _ _ _).
Qed.

Lemma runs_call_get_verifiers v st sessions exp :
  runs (staged v) (call_get_verifiers st c sessions exp) (fun _ => staged v).
Proof.
  intros [al E t] s Hq HP Hsees. rewrite call_get_verifiers_run.
  unfold staged in *. simpl in *. subst.
  exists (AState true E (Some v)), [GetVerifiers st c (st_heap s)].
  split_and!; [done|by apply steps_one, step_verifiers|done|].
  by destruct (get_verifiers _ _ _ _ _).
Qed.

Lemma runs_call_run (P : astate -> Prop) st r : runs P (call_run st r) (fun _ => P).
Proof.
  unfold call_run. eapply runs_bind; [by apply runs_emit|]. intros []. apply runs_lift.
Qed.

Lemma runs_box_update v :
  runs idle (box_update b "request_vars" v) (fun _ => staged v).
Proof.
  intros [al E t] s Hq HP (Hc & Hlv & db & Hb & Hrv).
  unfold box_update. unfold bind. rewrite emit_run.
  unfold idle in *. simpl in Hq, HP, Hlv, Hrv. subst.
  destruct (setitem_cases b "request_vars" v (log s [BoxUpdate b "request_vars" v]))
    as [(e & Hn & Hs)|(d & Hd & Hs)]; simpl in *; [congruence|].
  rewrite Hs. simpl. rewrite Hb in Hd. injection Hd as <-.
  exists (AState true E (Some v)), [BoxUpdate b "request_vars" v].
  split_and!; [done|apply steps_one, step_box_update| |done|done].
  split_and!; simpl.
  - destruct Hc as (dc & Hdc & Hv). exists dc. by rewrite lookup_insert_ne.
  - by rewrite lookup_insert_ne.
  - eexists. rewrite lookup_insert_eq. split; [done|]. by rewrite lookup_insert_eq.
Qed.

Lemma runs_box_pop v :
  runs (staged v) (box_pop b "request_vars") (fun _ => idle).
Proof.
  intros [al E t] s Hq HP (Hc & Hlv & db & Hb & Hrv).
  unfold box_pop. unfold bind. rewrite emit_run.
  unfold staged in *. simpl in Hq, HP, Hlv, Hrv. subst.
  destruct (dict_pop_cases b "request_vars" (log s [BoxPop b "request_vars"]))
    as [(e & Hn & Hs)|(d & w & Hd & Hw & Hs)]; simpl in *.
  - rewrite Hb in Hn. simpl in Hn. congruence.
  - rewrite Hs. simpl. rewrite Hb in Hd. injection Hd as <-.
    exists (AState true E None), [BoxPop b "request_vars"].
    split_and!; [done|apply steps_one, step_box_pop| |done|done].
    split_and!; simpl.
    + destruct Hc as (dc & Hdc & Hv). exists dc. by rewrite lookup_insert_ne.
    + by rewrite lookup_insert_ne.
    + eexists. rewrite lookup_insert_eq. split; [done|]. by rewrite lookup_delete_eq.
Qed.

Lemma update_variables_run (other E : gmap string value) (s : state) :
  (exists dc, st_heap s !! c = Some dc /\ dc !! "variables" = Some (VRef lv)) ->
  st_heap s !! lv = Some E ->
  update_variables c other s =
    (Return tt, State (<[lv := other ∪ E]> (st_heap s)) (exit_callbacks s) (trace s)).
Proof.
  intros (dc & Hc & Hv) Hlv.
  destruct (update_variables_cases c other s)
    as [(e & Hu)|(dc' & l & d & Hc' & Hv' & Hl & Hu)].
  - exfalso. destruct s as [h cbs tr]. simpl in *. unfold update_variables in Hu.
    rewrite (bind_run_Return _ _ _ _ _ (getitem_run _ _ _ _ _ _ _ Hc Hv)) in Hu.
    rewrite (bind_run_Return _ _ _ _ _ (as_mapping_run _ _ _ _ _ Hlv)) in Hu.
    unfold dict_update in Hu.
    rewrite (bind_run_Return _ _ _ _ _ (load_run _ _ _ _ _ Hlv)) in Hu. done.
  - rewrite Hu. rewrite Hc in Hc'. injection Hc' as <-. rewrite Hv in Hv'. injection Hv' as <-.
    rewrite Hlv in Hl. by injection Hl as <-.
Qed.

Lemma runs_update_variables (other : gmap string value) (al : bool) (E : gmap string value)
    (t : option value) (s : state) :
  sees c lv b (st_heap s) (AState al E t) ->
  update_variables c other s =
    (Return tt, State (<[lv := other ∪ E]> (st_heap s)) (exit_callbacks s) (trace s)) /\
  sees c lv b (<[lv := other ∪ E]> (st_heap s)) (AState al (other ∪ E) t).
Proof.
  intros (Hc & Hlv & db & Hb & Hrv). simpl in *. split.
  - by apply update_variables_run.
  - split_and!; simpl.
    + destruct Hc as (dc & Hdc & Hv). exists dc. by rewrite lookup_insert_ne.
    + by rewrite lookup_insert_eq.
    + exists db. by rewrite lookup_insert_ne.
Qed.

Lemma runs_run_verifier v in_file st exp resp vr :
  runs (staged v) (run_verifier in_file st c exp resp vr) (fun _ => staged v).
Proof.
  intros [al E t] s Hq HP Hsees. rewrite run_verifier_run.
  unfold staged in *. simpl in Hq, HP. subst.
  destruct (verify vr resp (st_heap s)) as [rv|e] eqn:Hv.
  - destruct (errors rv) as [|e0 errs] eqn:He.
    + destruct (runs_update_variables (saved rv) true E (Some v)
                  (log s [Verify vr resp c (st_heap s)]) Hsees) as [Hu Hsees'].
      rewrite Hu. simpl.
      exists (AState true (saved rv ∪ E) (Some v)), [Verify vr resp c (st_heap s)].
      split_and!; [done|by eapply steps_one, step_verify_pass|done|done|done].
    + exists (AState false E (Some v)),
        [Verify vr resp c (st_heap s); LogFail st (Some (verifier_name vr)) (Some exp)].
      simpl. split_and!; [done| |done|done].
      econstructor; [apply step_verify_fail; [done|]|by apply steps_one, step_quiet].
      intros rv' Hrv'. rewrite Hv in Hrv'. injection Hrv' as <-. by rewrite He.
  - exists (AState false E (Some v)), [Verify vr resp c (st_heap s)].
    simpl. split_and!; [done| |done|done].
    apply steps_one, step_verify_fail; [done|]. intros rv'. by rewrite Hv.
Qed.

Lemma runs_run_stage in_file sessions st :
  runs idle (run_stage in_file c b sessions st) (fun _ => idle).
Proof.
  unfold run_stage.
  apply (runs_bind _ _ (fun _ => idle)).
  { destruct (stage_name st); [by apply runs_ret|apply runs_raise]. }
  intros n. apply (runs_bind _ _ (fun _ => idle)).
  { apply runs_except_reraise, runs_call_get_request_type. }
  intros r. apply (runs_bind _ _ (fun _ => staged (request_vars r))); [apply runs_box_update|].
  intros []. apply (runs_bind _ _ (fun _ => staged (request_vars r))).
  { apply runs_except_reraise, runs_call_get_expected. }
  intros exp. apply (runs_bind _ _ (fun _ => staged (request_vars r))); [by apply runs_emit|].
  intros []. apply (runs_bind _ _ (fun _ => staged (request_vars r))); [by apply runs_emit|].
  intros []. apply (runs_bind _ _ (fun _ => staged (request_vars r))).
  { apply runs_except_reraise, runs_call_run. }
  intros resp. apply (runs_bind _ _ (fun _ => staged (request_vars r)));
    [apply runs_call_get_verifiers|].
  intros vs. apply (runs_bind _ _ (fun _ => staged (request_vars r))).
  { apply runs_for_each. intros vr. apply runs_run_verifier. }
  intros []. apply (runs_bind _ _ (fun _ => staged (request_vars r))); [by apply runs_emit|].
  intros []. apply (runs_bind _ _ (fun _ => idle)); [apply runs_box_pop|].
  intros []. by apply runs_emit.
Qed.

End Logic.


(** *** The exit stack *)

Section ExitStack.
Context `{Builtins} `{Collaborators}.

(** [unwind] calls every callback of the stack, in the order of the stack,
    and nothing else. *)
Lemma unwind_events (cbs : list session) exc pending suppressed tr :
  exists excs, List.length excs = List.length cbs /\
    (unwind cbs exc pending suppressed tr).2 = tr ++ zip_with ExitContext cbs excs.
Proof.
  revert exc pending suppressed tr. induction cbs as [|cb cbs IH]; intros exc p su tr; simpl.
  - exists []. by rewrite app_nil_r.
  - destruct (session_exit cb exc) as [[]|e];
      match goal with |- context [unwind cbs ?x ?y ?z ?t] =>
        destruct (IH x y z t) as (excs & Hlen & ->) end;
      exists (exc :: excs); simpl; rewrite <- app_assoc; auto.
Qed.

Lemma with_ExitStack_run (body : M unit) (s : state) :
  let s0 := State (st_heap s) [] (trace s) in
  exists excs, List.length excs = List.length (exit_callbacks (body s0).2) /\
    st_heap (with_ExitStack body s).2 = st_heap (body s0).2 /\
    exit_callbacks (with_ExitStack body s).2 = exit_callbacks s /\
    trace (with_ExitStack body s).2 =
      trace (body s0).2 ++ zip_with ExitContext (exit_callbacks (body s0).2) excs.
Proof.
  intros s0. unfold with_ExitStack. fold s0.
  destruct (body s0) as [r s1]. simpl.
  match goal with |- context [unwind ?a ?x ?y ?z ?t] =>
    destruct (unwind_events a x y z t) as (excs & Hlen & Htr);
    destruct (unwind a x y z t) as [[[exc pending] suppressed] tr'] end.
  simpl in Htr. subst tr'. exists excs. split; [done|].
  destruct pending; [destruct exc|destruct r; [|destruct suppressed]]; done.
Qed.

Lemma quiet_exits (cbs : list session) (excs : list (option exn)) :
  Forall quiet (zip_with ExitContext cbs excs).
Proof.
  revert excs. induction cbs as [|cb cbs IH]; intros [|exc excs]; simpl; try constructor;
    [done|apply IH].
Qed.

End ExitStack.

(** *** A whole test *)

Section TestLogic.
Context `{Builtins} `{Collaborators}.
Variables c lv b : loc.
Hypothesis Hclv : c <> lv.
Hypothesis Hblv : b <> lv.
Hypothesis Hbc : b <> c.

Lemma runs_enter_context (P : astate -> Prop) (cm : session) :
  runs c lv b P (enter_context cm) (fun _ => P).
Proof.
  unfold enter_context. destruct (session_enter cm) as [e|].
  - apply (runs_bind _ _ _ _ _ (fun _ => P)); [by apply runs_emit|]. intros []. apply runs_raise.
  - apply (runs_bind _ _ _ _ _ (fun _ => P)); [by apply runs_emit|]. intros [].
    intros q s Hq HP Hsees. exists q, []. simpl. rewrite app_nil_r.
    split_and!; [done|constructor|done|done|done].
Qed.

Lemma runs_test_body in_file spec :
  runs c lv b idle (test_body in_file spec c b) (fun _ => idle).
Proof.
  unfold test_body.
  apply (runs_bind _ _ _ _ _ (fun _ => idle)).
  { unfold call_get_extra_sessions.
    apply (runs_bind _ _ _ _ _ (fun _ => idle)); [by apply runs_emit|]. intros [].
    apply runs_lift. }
  intros sessions. apply (runs_bind _ _ _ _ _ (fun _ => idle)).
  { apply runs_for_each. intros ns.
    apply (runs_bind _ _ _ _ _ (fun _ => idle)); [by apply runs_emit|]. intros [].
    apply runs_enter_context. }
  intros []. apply (runs_bind _ _ _ _ _ (fun _ => idle)).
  { destruct (stages spec); [by apply runs_ret|apply runs_raise]. }
  intros sts. apply runs_for_each. intros st. by apply runs_run_stage.
Qed.

(** The machine accepts what [f] emits, whatever the outcome. *)
Definition traces (E : gmap string value) (f : M unit) : Prop :=
  forall s, sees c lv b (st_heap s) (AState true E None) ->
    exists E0 q' tr,
      dom E ⊆ dom E0 /\
      trace (f s).2 = trace s ++ tr /\ steps c lv b (AState true E0 None) tr q' /\
      sees c lv b (st_heap (f s).2) q' /\ dom E0 ⊆ dom (env q').

Lemma traces_with_ExitStack E in_file spec :
  traces E (with_ExitStack (test_body in_file spec c b)).
Proof.
  intros s Hsees.
  set (s0 := State (st_heap s) [] (trace s)).
  destruct (runs_test_body in_file spec (AState true E None) s0 eq_refl eq_refl Hsees)
    as (q1 & tr1 & Htr1 & Hst1 & Hsees1 & _).
  destruct (with_ExitStack_run (test_body in_file spec c b) s)
    as (excs & Hlen & Hheap & Hcbs & Htr).
  fold s0 in Hheap, Htr. exists E, q1, (tr1 ++ zip_with ExitContext (exit_callbacks
    (test_body in_file spec c b s0).2) excs).
  split_and!; [done| | |by rewrite Hheap|exact (steps_env_mono c lv b _ _ _ Hst1)].
  - rewrite Htr, Htr1. simpl. by rewrite app_assoc.
  - eapply steps_app; [done|]. apply steps_quiet, quiet_exits.
Qed.

Lemma merge_include_eq (cfg : loc) (inc : included) (s : state) :
  merge_include cfg inc s =
    match included_variables inc with
    | None => (Return tt, s)
    | Some vars =>
        match check_env_var_settings vars with
        | Some e => (Raise e, log s [CheckEnvVarSettings vars])
        | None => update_variables cfg vars (log s [CheckEnvVarSettings vars])
        end
    end.
Proof.
  unfold merge_include. destruct (included_variables inc) as [vars|]; [|done].
  unfold bind at 1. unfold call_check_env_var_settings. unfold bind at 1.
  rewrite emit_run. by destruct (check_env_var_settings vars).
Qed.

Lemma merge_include_run (inc : included) (E : gmap string value) (s : state) :
  sees c lv b (st_heap s) (AState true E None) ->
  exists E' tr,
    dom E ⊆ dom E' /\ Forall quiet tr /\
    trace (merge_include c inc s).2 = trace s ++ tr /\
    sees c lv b (st_heap (merge_include c inc s).2) (AState true E' None).
Proof.
  intros Hsees. rewrite merge_include_eq. destruct (included_variables inc) as [vars|].
  - destruct (check_env_var_settings vars) as [e|]; simpl.
    + exists E, [CheckEnvVarSettings vars].
      split_and!; [done|by apply Forall_singleton|done|done].
    + destruct (runs_update_variables c lv b Hclv Hblv vars true E None
                  (log s [CheckEnvVarSettings vars]) Hsees) as [Hu Hsees'].
      rewrite Hu. simpl.
      exists (vars ∪ E), [CheckEnvVarSettings vars]. simpl.
      split_and!; [rewrite dom_union; set_solver|by apply Forall_singleton|done|exact Hsees'].
  - exists E, []. simpl. rewrite app_nil_r. split_and!; [done|constructor|done|done].
Qed.

Lemma includes_run (incs : list included) (E : gmap string value) (s : state) :
  sees c lv b (st_heap s) (AState true E None) ->
  exists E' tr,
    dom E ⊆ dom E' /\ Forall quiet tr /\
    trace (for_each incs (merge_include c) s).2 = trace s ++ tr /\
    sees c lv b (st_heap (for_each incs (merge_include c) s).2) (AState true E' None).
Proof.
  revert E s. induction incs as [|inc incs IH]; intros E s Hsees.
  - exists E, []. simpl. rewrite app_nil_r. split_and!; [done|constructor|done|done].
  - destruct (merge_include_run inc E s Hsees) as (E1 & tr1 & Hdom1 & Hq1 & Htr1 & Hsees1).
    destruct (merge_include c inc s) as [[[]|e] s1] eqn:Hrun; simpl in *.
    + rewrite (bind_run_Return _ _ _ _ _ Hrun).
      destruct (IH E1 s1 Hsees1) as (E2 & tr2 & Hdom2 & Hq2 & Htr2 & Hsees2).
      exists E2, (tr1 ++ tr2). rewrite Htr2, Htr1, app_assoc.
      split_and!; [set_solver|by apply Forall_app|done|done].
    + rewrite (bind_run_Raise _ _ _ _ _ Hrun). exists E1, tr1. done.
Qed.

Lemma traces_run_test_spec E in_file spec :
  traces E (run_test_spec in_file spec c b).
Proof.
  intros s Hsees. unfold run_test_spec.
  destruct (includes_run (default [] (includes spec)) E s Hsees)
    as (E1 & tr1 & Hdom1 & Hq1 & Htr1 & Hsees1).
  destruct (for_each (default [] (includes spec)) (merge_include c) s) as [[[]|e] s1] eqn:Hinc;
    simpl in *.
  2:{ rewrite (bind_run_Raise _ _ _ _ _ Hinc).
      exists E1, (AState true E1 None), tr1.
      split_and!; [done|done|by apply steps_quiet|done|done]. }
  rewrite (bind_run_Return _ _ _ _ _ Hinc).
  destruct (test_name spec) as [n|].
  2:{ exists E1, (AState true E1 None), tr1.
      split_and!; [done|done|by apply steps_quiet|done|done]. }
  rewrite (bind_run_Return _ _ s1 s1 n) by done.
  unfold info. rewrite (bind_run_Return _ _ _ _ _ (emit_run _ _)).
  destruct (traces_with_ExitStack E1 in_file spec (log s1 [LogInfo ("Running test : " +:+ n)])
              Hsees1) as (E2 & q2 & tr2 & Hdom2 & Htr2 & Hst2 & Hsees2 & Hmono2).
  exists E2, q2, (tr1 ++ LogInfo ("Running test : " +:+ n) :: tr2).
  split_and!; [set_solver| | |done|done].
  - rewrite Htr2. simpl. rewrite Htr1, <- !app_assoc. done.
  - eapply steps_app; [by apply steps_quiet|].
    econstructor; [by apply step_quiet|done].
Qed.

End TestLogic.


(** *** Reading a trace *)

(** The configuration and the heap a call received. *)
Definition snapshot (e : event) : option (loc * heap) :=
  match e with
  | GetRequestType _ cfg h | GetExpected _ cfg h | GetVerifiers _ cfg h
  | Verify _ _ cfg h => Some (cfg, h)
  | _ => None
  end.

(** The transient entry of the box in a heap. *)
Definition box_entry (h : heap) (box : loc) : option value :=
  h !! box ≫= (.!! "request_vars").


Section Reading.
Variables c lv b : loc.

Lemma sees_variables h q :
  sees c lv b h q -> variables h c = Some (env q) /\ box_entry h b = transient q.
Proof.
  intros ((dc & Hc & Hv) & Hlv & db & Hb & Ht). unfold variables, box_entry.
  rewrite Hc, Hb. simpl. by rewrite Hv.
Qed.

Lemma step_snapshot q e q' cfg h :
  step c lv b q e q' -> snapshot e = Some (cfg, h) ->
  cfg = c /\ alive q = true /\ variables h cfg = Some (env q) /\ box_entry h b = transient q.
Proof.
  destruct 1 as [E st h0 Hs| |E v st h0 Hs|E v st h0 Hs|E v vr resp h0 rv Hs|E v vr resp h0 Hs|
                 |q e Hq]; simpl; intros Hsnap; try discriminate;
    try (injection Hsnap as <- <-; destruct (sees_variables _ _ Hs); done).
  by destruct e.
Qed.

Lemma steps_dead q tr q' :
  alive q = false -> steps c lv b q tr q' -> q' = q /\ Forall quiet tr.
Proof.
  intros Hq. induction 1 as [|q e q1 tr q2 Hstep _ IH]; [done|].
  destruct Hstep; try discriminate. destruct (IH Hq) as [-> ?]. split; [done|by constructor].
Qed.



Lemma steps_cons_inv q e tr q'' :
  steps c lv b q (e :: tr) q'' -> exists q', step c lv b q e q' /\ steps c lv b q' tr q''.
Proof. inversion 1; eauto. Qed.

Lemma step_verify_inv q v resp cfg h q' :
  step c lv b q (Verify v resp cfg h) q' ->
  cfg = c /\ alive q = true /\ variables h c = Some (env q) /\
  ((exists rv, verify v resp h = Return rv /\ errors rv = [] /\
      alive q' = true /\ env q' = saved rv ∪ env q) \/
   ((forall rv, verify v resp h = Return rv -> errors rv <> []) /\ alive q' = false)).
Proof.
  intros Hstep. remember (Verify v resp cfg h) as e eqn:He.
  destruct Hstep as [| | | |E u vr resp0 h0 rv Hs Hv Herr|E u vr resp0 h0 Hs Hv| |q e Hq];
    try discriminate.
  - injection He as -> -> <- ->. destruct (sees_variables _ _ Hs) as [HE _].
    split_and!; [done|done|done|]. left. by exists rv.
  - injection He as -> -> <- ->. destruct (sees_variables _ _ Hs) as [HE _].
    split_and!; [done|done|done|]. by right.
  - by subst e.
Qed.

(** A verifier that has passed: the next call of a verifier sees its saved
    values written over the variables the verifier saw. *)
Lemma steps_verify_next q pre v resp cfg h v' resp' cfg' h' post q' :
  steps c lv b q (pre ++ Verify v resp cfg h :: Verify v' resp' cfg' h' :: post) q' ->
  exists rv E, verify v resp h = Return rv /\ errors rv = [] /\
    variables h cfg = Some E /\ variables h' cfg' = Some (saved rv ∪ E).
Proof.
  intros (q1 & _ & Hrest)%steps_app_inv.
  apply steps_cons_inv in Hrest as (q2 & Hstep & Hrest).
  apply steps_cons_inv in Hrest as (q3 & Hstep' & _).
  apply step_verify_inv in Hstep as (-> & _ & HE & [(rv & Hv & Herr & _ & Henv)|[_ Hdead]]).
  - apply step_verify_inv in Hstep' as (-> & _ & HE' & _).
    exists rv, (env q1). by rewrite <- Henv.
  - apply step_verify_inv in Hstep' as (_ & Hlive & _). congruence.
Qed.

(** The variables only grow along a trace. *)
Lemma steps_snapshots_grow q pre e mid e' post q' cfg h cfg' h' :
  steps c lv b q (pre ++ e :: mid ++ e' :: post) q' ->
  snapshot e = Some (cfg, h) -> snapshot e' = Some (cfg', h') ->
  exists E E', variables h cfg = Some E /\ variables h' cfg' = Some E' /\ dom E ⊆ dom E'.
Proof.
  intros (q1 & _ & Hrest)%steps_app_inv He He'.
  apply steps_cons_inv in Hrest as (q2 & Hstep & Hrest).
  apply steps_app_inv in Hrest as (q3 & Hmid & Hrest).
  apply steps_cons_inv in Hrest as (q4 & Hstep' & _).
  destruct (step_snapshot _ _ _ _ _ Hstep He) as (Hc & _ & HE & _).
  destruct (step_snapshot _ _ _ _ _ Hstep' He') as (Hc' & _ & HE' & _).
  exists (env q1), (env q3). split_and!; [done|done|].
  etrans; [|exact (steps_env_mono c lv b _ _ _ Hmid)].
  exact (steps_env_mono c lv b _ _ _ (steps_one c lv b _ _ _ Hstep)).
Qed.

(** What a verifier that passes has saved is in the variables of every
    later call. *)
Lemma steps_saved_later q pre v resp cfg h mid e post q' rv cfg' h' :
  steps c lv b q (pre ++ Verify v resp cfg h :: mid ++ e :: post) q' ->
  verify v resp h = Return rv -> errors rv = [] ->
  snapshot e = Some (cfg', h') ->
  exists E', variables h' cfg' = Some E' /\ dom (saved rv) ⊆ dom E'.
Proof.
  intros (q1 & _ & Hrest)%steps_app_inv Hv Herr He.
  apply steps_cons_inv in Hrest as (q2 & Hstep & Hrest).
  apply steps_app_inv in Hrest as (q3 & Hmid & Hrest).
  apply steps_cons_inv in Hrest as (q4 & Hstep' & _).
  destruct (step_snapshot _ _ _ _ _ Hstep' He) as (Hc' & _ & HE' & _).
  exists (env q3). split; [done|].
  etrans; [|exact (steps_env_mono c lv b _ _ _ Hmid)].
  apply step_verify_inv in Hstep as (_ & _ & _ & [(rv' & Hv' & _ & _ & Henv)|[Hfail _]]).
  - rewrite Hv in Hv'. injection Hv' as <-. rewrite Henv, dom_union. set_solver.
  - by destruct (Hfail _ Hv).
Qed.



End Reading.

Section TestTrace.
Context `{Builtins} `{Collaborators}.

Lemma test_objects_sees h h' g c lv b :
  test_objects h h' g c lv b ->
  exists E, h' !! lv = Some E /\ sees c lv b h' (AState true E None).
Proof.
  intros [Hc (E & HE & Ht) Hb _ _ _ _ _ _ _]. exists E. split; [done|]. by split_and!.
Qed.

(** The events of a test are a run of the machine of its objects. *)
Lemma run_test_trace in_file doc g s :
  global_ok (st_heap s) g ->
  exists c lv b h0 E E0 q' tr,
    test_objects (st_heap s) h0 g c lv b /\
    h0 !! lv = Some E /\ dom E ⊆ dom E0 /\
    trace (run_test in_file doc g s).2 = trace s ++ tr /\
    steps c lv b (AState true E0 None) tr q' /\
    sees c lv b (st_heap (run_test in_file doc g s).2) q' /\
    dom E0 ⊆ dom (env q').
Proof.
  intros Hg. destruct (init_test_block_config_run g s Hg) as (c & lv & b & h0 & Hinit & Hobj).
  destruct (test_objects_sees _ _ _ _ _ _ Hobj) as (E & HE & Hsees).
  exists c, lv, b, h0, E.
  unfold run_test. rewrite (bind_run_Return _ _ _ _ _ Hinit). simpl.
  assert (Hwarn : forall msg,
    exists E0 q' tr, dom E ⊆ dom E0 /\
      trace (warning msg (State h0 (exit_callbacks s) (trace s))).2 = trace s ++ tr /\
      steps c lv b (AState true E0 None) tr q' /\
      sees c lv b (st_heap (warning msg (State h0 (exit_callbacks s) (trace s))).2) q' /\
      dom E0 ⊆ dom (env q')).
  { intros msg. exists E, (AState true E None), [LogWarning msg]. simpl.
    split_and!; [done|done|by apply steps_one, step_quiet|done|done]. }
  destruct doc as [spec|].
  - destruct (truthy (Some spec)).
    + destruct (traces_run_test_spec c lv b (objects_c_lv _ _ _ _ _ _ Hobj)
                  (objects_b_lv _ _ _ _ _ _ Hobj) (objects_b_c _ _ _ _ _ _ Hobj)
                  E in_file spec (State h0 (exit_callbacks s) (trace s)) Hsees) as (E0 & q' & tr & Hdom & Htr & Hst & Hsees' & Hmono).
      exists E0, q', tr. done.
    + destruct (Hwarn ("Empty test block in " +:+ in_file)) as (E0 & q' & tr & Hw).
      exists E0, q', tr. by destruct Hw as (? & ? & ? & ? & ?).
  - destruct (Hwarn ("Empty test block in " +:+ in_file)) as (E0 & q' & tr & Hw).
    exists E0, q', tr. by destruct Hw as (? & ? & ? & ? & ?).
Qed.

(** C6: a variable saved by a verifier is written to the variables before
    the next verifier of the stage is called, stays in the variables that
    every later call of the test receives (verifiers, and the dispatchers of
    the later stages), and the calls made before the verifier received
    variables that are among those the verifier itself received: none of them
    saw a variable that the verifier was first to save. *)
Theorem C6_saved_variables in_file doc g s :
  global_ok (st_heap s) g ->
  exists tr, trace (run_test in_file doc g s).2 = trace s ++ tr /\
    (forall pre v resp cfg h v' resp' cfg' h' post,
       tr = pre ++ Verify v resp cfg h :: Verify v' resp' cfg' h' :: post ->
       exists rv E, verify v resp h = Return rv /\ errors rv = [] /\
         variables h cfg = Some E /\ variables h' cfg' = Some (saved rv ∪ E)) /\
    (forall pre v resp cfg h mid e post rv cfg' h',
       tr = pre ++ Verify v resp cfg h :: mid ++ e :: post ->
       verify v resp h = Return rv -> errors rv = [] -> snapshot e = Some (cfg', h') ->
       exists E', variables h' cfg' = Some E' /\ dom (saved rv) ⊆ dom E') /\
    (forall pre e mid v resp cfg h post cfg' h',
       tr = pre ++ e :: mid ++ Verify v resp cfg h :: post ->
       snapshot e = Some (cfg', h') ->
       exists E' E, variables h' cfg' = Some E' /\ variables h cfg = Some E /\
         dom E' ⊆ dom E).
Proof.
  intros Hg.
  destruct (run_test_trace in_file doc g s Hg)
    as (c & lv & b & h0 & E & E0 & q' & tr & Hobj & HE & Hdom & Htr & Hsteps & Hsees & Hmono).
  exists tr. split; [done|]. split_and!.
  - intros pre v resp cfg h v' resp' cfg' h' post ->.
    by eapply steps_verify_next.
  - intros pre v resp cfg h mid e post rv cfg' h' -> Hv Herr He.
    by eapply steps_saved_later.
  - intros pre e mid v resp cfg h post cfg' h' -> He.
    by eapply steps_snapshots_grow.
Qed.


End TestTrace.


(** ** The variables and the transient entry on the concrete world *)

Section TestExamples.
Import World.

Definition two_stage_document : document :=
  Some (TestSpec None (Some "two") (Some [stage_ok; stage_ok])).



(** The heap the call [i] of a trace received. *)
Definition heap_at (tr : list event) (i : nat) : heap :=
  default ∅ (snd <$> (tr !! i ≫= snapshot)).

Lemma global_heap_ok : global_ok global_heap 1.
Proof.
  exists {[ "variables" := VRef 2%positive ]}. split; [reflexivity|].
  right. exists 2%positive. split; [reflexivity|]. by eexists.
Qed.

(** A list cut at one, at two adjacent and at two distant positions. *)
Lemma cut_at {A} (l : list A) i x :
  l !! i = Some x -> l = take i l ++ x :: drop (S i) l.
Proof. intros Hx. symmetry. by apply take_drop_middle. Qed.

Lemma cut_at_later {A} (l : list A) i n x y :
  l !! i = Some x -> l !! (S i + n)%nat = Some y ->
  l = take i l ++ x :: take n (drop (S i) l) ++ y :: drop (S (S i + n)) l.
Proof.
  intros Hx Hy. rewrite (cut_at l i x Hx) at 1. do 2 f_equal.
  rewrite (cut_at (drop (S i) l) n y) at 1 by by rewrite lookup_drop.
  do 2 f_equal. rewrite drop_drop. f_equal. lia.
Qed.

Lemma cut_at_next {A} (l : list A) i x y :
  l !! i = Some x -> l !! S i = Some y ->
  l = take i l ++ x :: y :: drop (S (S i)) l.
Proof.
  intros Hx Hy. rewrite <- (Nat.add_0_r (S i)) in Hy.
  rewrite (cut_at_later l i 0 x y Hx Hy) at 1. by rewrite Nat.add_0_r.
Qed.

Lemma C6_saved_variables_witness :
  let tr := trace (run_test "f.yaml" two_stage_document 1 global_state).2 in
  let resp := example_response 200 "OK" in
  global_ok global_heap 1 /\
  tr !! 9%nat = Some (Verify status_verifier resp 3 (heap_at tr 9)) /\
  tr !! 10%nat = Some (Verify (token_verifier 3) resp 3 (heap_at tr 10)) /\
  tr !! 14%nat = Some (GetRequestType stage_ok 3 (heap_at tr 14)) /\
  (exists E, variables (heap_at tr 9) 3 = Some E /\
     variables (heap_at tr 10) 3 = Some ({[ "token" := VData "abc" ]} ∪ E)) /\
  (exists E, variables (heap_at tr 14) 3 = Some E /\ "token" ∈ dom E) /\
  (exists E0 E, variables (heap_at tr 2) 3 = Some E0 /\
     variables (heap_at tr 9) 3 = Some E /\ dom E0 ⊆ dom E).
Proof.
  intros tr resp.
  destruct (C6_saved_variables "f.yaml" two_stage_document 1 global_state global_heap_ok)
    as (tr' & Htr & Hnext & Hlater & Hearlier).
  assert (Htr' : tr = tr') by exact Htr. subst tr'.
  assert (Hpass : verify status_verifier resp (heap_at tr 9) =
                  Return (VerifyResult [] {[ "token" := VData "abc" ]})) by reflexivity.
  assert (H2 : tr !! 2%nat = Some (GetRequestType stage_ok 3 (heap_at tr 2)))
    by (vm_compute; reflexivity).
  assert (H9 : tr !! 9%nat = Some (Verify status_verifier resp 3 (heap_at tr 9)))
    by (vm_compute; reflexivity).
  assert (H10 : tr !! 10%nat = Some (Verify (token_verifier 3) resp 3 (heap_at tr 10)))
    by (vm_compute; reflexivity).
  assert (H14 : tr !! 14%nat = Some (GetRequestType stage_ok 3 (heap_at tr 14)))
    by (vm_compute; reflexivity).
  split; [exact global_heap_ok|].
  split; [exact H9|]. split; [exact H10|]. split; [exact H14|]. split_and!.
  - destruct (Hnext _ _ _ _ _ _ _ _ _ _ (cut_at_next tr 9 _ _ H9 H10))
      as (rv & E & Hv & Herr & HE & HE').
    rewrite Hpass in Hv. injection Hv as <-. exists E. split; [exact HE|exact HE'].
  - destruct (Hlater _ _ _ _ _ _ _ _ (VerifyResult [] {[ "token" := VData "abc" ]})
                3%positive (heap_at tr 14) (cut_at_later tr 9 4 _ _ H9 H14))
      as (E & HE & Hdom); [exact Hpass|reflexivity|reflexivity|].
    exists E. split; [exact HE|]. apply Hdom. cbn [saved]. rewrite dom_singleton_L.
    apply elem_of_singleton. reflexivity.
  - destruct (Hearlier _ _ _ _ _ _ _ _ 3%positive (heap_at tr 2)
                (cut_at_later tr 2 6 _ _ H2 H9))
      as (E0 & E & HE0 & HE & Hdom); [reflexivity|].
    exists E0, E. split_and!; [exact HE0|exact HE|exact Hdom].
Defined.



End TestExamples.


(** ** The sessions of a test *)

(** The sessions a trace entered with success, and those it left, in the
    order of the calls. *)
Definition acquired (tr : list event) : list session :=
  omap (fun e => match e with EnterContext cm true => Some cm | _ => None end) tr.

Definition released (tr : list event) : list session :=
  omap (fun e => match e with ExitContext cm _ => Some cm | _ => None end) tr.

(** The events that are not about a session. *)
Definition sessionless (e : event) : Prop :=
  match e with
  | EnterContext _ _ | ExitContext _ _ => False
  | _ => True
  end.

Section Sessions.
Context `{Builtins} `{Collaborators}.

(** A computation that logs nothing and leaves the exit stack alone. *)
Definition silent {A} (f : M A) : Prop :=
  forall s, trace (f s).2 = trace s /\ exit_callbacks (f s).2 = exit_callbacks s.

(** A computation that leaves no session and pushes on the exit stack the
    sessions it enters. *)
Definition stacks {A} (f : M A) : Prop :=
  forall s, exists tr,
    trace (f s).2 = trace s ++ tr /\ released tr = [] /\
    exit_callbacks (f s).2 = rev (acquired tr) ++ exit_callbacks s.

Lemma silent_ret {A} (a : A) : silent (ret a).
Proof. by intros s. Qed.

Lemma silent_raise {A} (e : exn) : silent (@raise A e).
Proof. by intros s. Qed.

Lemma silent_lift {A} (r : result A) : silent (lift r).
Proof. by intros s. Qed.

Lemma silent_get_heap : silent get_heap.
Proof. by intros s. Qed.

Lemma silent_put_heap h : silent (put_heap h).
Proof. by intros s. Qed.

Lemma silent_bind {A B} (f : M A) (k : A -> M B) :
  silent f -> (forall a, silent (k a)) -> silent (bind f k).
Proof.
  intros Hf Hk s. destruct (Hf s) as [Ht Hc]. unfold bind.
  destruct (f s) as [[a|e] s1]; simpl in *; [|done].
  destruct (Hk a s1) as [Ht' Hc']. by rewrite Ht', Hc'.
Qed.

Lemma silent_load l : silent (load l).
Proof.
  apply silent_bind; [apply silent_get_heap|]. intros h.
  destruct (h !! l); [apply silent_ret|apply silent_raise].
Qed.

Lemma silent_alloc d : silent (alloc d).
Proof.
  apply silent_bind; [apply silent_get_heap|]. intros h.
  apply silent_bind; [apply silent_put_heap|]. intros _. apply silent_ret.
Qed.

Lemma silent_getitem l k : silent (getitem l k).
Proof.
  apply silent_bind; [apply silent_load|]. intros d.
  destruct (d !! k); [apply silent_ret|apply silent_raise].
Qed.

Lemma silent_as_mapping v : silent (as_mapping v).
Proof.
  destruct v as [x|l]; [apply silent_raise|].
  apply silent_bind; [apply silent_load|]. intros _. apply silent_ret.
Qed.

Lemma silent_setitem l k v : silent (setitem l k v).
Proof.
  apply silent_bind; [apply silent_load|]. intros d.
  apply silent_bind; [apply silent_get_heap|]. intros h. apply silent_put_heap.
Qed.

Lemma silent_dict_pop l k : silent (dict_pop l k).
Proof.
  apply silent_bind; [apply silent_load|]. intros d.
  destruct (d !! k); [|apply silent_raise].
  apply silent_bind; [apply silent_get_heap|]. intros h. apply silent_put_heap.
Qed.

Lemma silent_update_variables cfg other : silent (update_variables cfg other).
Proof.
  apply silent_bind; [apply silent_getitem|]. intros v.
  apply silent_bind; [apply silent_as_mapping|]. intros l.
  apply silent_bind; [apply silent_load|]. intros d.
  apply silent_bind; [apply silent_get_heap|]. intros h. apply silent_put_heap.
Qed.

Lemma silent_init_test_block_config g : silent (init_test_block_config g).
Proof.
  apply silent_bind; [apply silent_bind; [apply silent_load|intros; apply silent_alloc]|].
  intros c. apply silent_bind.
  { apply silent_bind; [apply silent_load|]. intros; apply silent_ret. }
  intros has. apply silent_bind.
  { destruct has; [apply silent_ret|].
    apply silent_bind; [apply silent_alloc|]. intros; apply silent_setitem. }
  intros _. apply silent_bind; [apply silent_alloc|]. intros e.
  apply silent_bind; [apply silent_alloc|]. intros b.
  apply silent_bind; [apply silent_getitem|]. intros v.
  apply silent_bind; [apply silent_as_mapping|]. intros l.
  apply silent_bind; [apply silent_setitem|]. intros _. apply silent_ret.
Qed.

(** A computation that neither enters nor leaves a session. *)
Definition calm {A} (f : M A) : Prop :=
  forall s, exists tr,
    trace (f s).2 = trace s ++ tr /\ Forall sessionless tr /\
    exit_callbacks (f s).2 = exit_callbacks s.

Lemma calm_silent {A} (f : M A) : silent f -> calm f.
Proof.
  intros Hf s. destruct (Hf s) as [Ht Hc]. exists []. by rewrite app_nil_r.
Qed.

Lemma calm_bind {A B} (f : M A) (k : A -> M B) :
  calm f -> (forall a, calm (k a)) -> calm (bind f k).
Proof.
  intros Hf Hk s. destruct (Hf s) as (tr & Ht & Hr & Hc). unfold bind.
  destruct (f s) as [[a|e] s1]; simpl in *; [|by exists tr].
  destruct (Hk a s1) as (tr' & Ht' & Hr' & Hc'). exists (tr ++ tr').
  rewrite Ht', Ht, Hc', Hc, app_assoc. split_and!; [done|by apply Forall_app|done].
Qed.

Lemma calm_emit e : sessionless e -> calm (emit e).
Proof. intros He s. exists [e]. split_and!; [done|by constructor|done]. Qed.

Lemma calm_lift_check r : calm (lift_check r).
Proof. apply calm_silent. destruct r; [apply silent_raise|apply silent_ret]. Qed.

Lemma calm_for_each {A} (l : list A) (body : A -> M unit) :
  (forall x, calm (body x)) -> calm (for_each l body).
Proof.
  intros Hb. induction l as [|x l IH]; simpl; [apply calm_silent, silent_ret|].
  by apply calm_bind.
Qed.

Lemma calm_except_reraise {A} cls (f : M A) (handler : M unit) :
  calm f -> calm handler -> calm (except_reraise cls f handler).
Proof.
  intros Hf Hh s. destruct (Hf s) as (tr & Ht & Hr & Hc). unfold except_reraise.
  destruct (f s) as [[a|e] s1]; simpl in *; [by exists tr|].
  destruct (isinstance e cls); [|by exists tr].
  destruct (Hh s1) as (tr' & Ht' & Hr' & Hc'). exists (tr ++ tr').
  assert (Hgoal : trace (handler s1).2 = trace s ++ tr ++ tr' /\ Forall sessionless (tr ++ tr') /\
      exit_callbacks (handler s1).2 = exit_callbacks s).
  { rewrite Ht', Ht, Hc', Hc, app_assoc. split_and!; [done|by apply Forall_app|done]. }
  by destruct (handler s1) as [[] s2].
Qed.

Lemma calm_try_except {A} cls (f : M A) : calm f -> calm (try_except cls f).
Proof.
  intros Hf s. destruct (Hf s) as (tr & Ht & Hr & Hc). unfold try_except. exists tr.
  destruct (f s) as [[a|e] s1]; simpl in *; [done|]. by destruct (isinstance e cls).
Qed.

Ltac calm_call :=
  repeat first
    [ apply calm_silent, silent_setitem
    | apply calm_silent, silent_dict_pop
    | apply calm_silent, silent_update_variables
    | apply calm_bind; [|intros ?]
    | apply calm_silent, silent_get_heap
    | apply calm_silent, silent_lift
    | apply calm_silent, silent_raise
    | apply calm_lift_check
    | apply calm_emit; exact I ].

(** A verifier, a stage and an include neither enter nor leave a session. *)
Lemma calm_run_verifier in_file st cfg exp resp v :
  calm (run_verifier in_file st cfg exp resp v).
Proof.
  unfold run_verifier, call_verify. apply calm_bind; [calm_call|]. intros r.
  destruct (errors r).
  - apply calm_silent, silent_update_variables.
  - unfold log_fail, verification_failure. calm_call.
Qed.

Lemma calm_run_stage in_file cfg box sessions st :
  calm (run_stage in_file cfg box sessions st).
Proof.
  unfold run_stage. apply calm_bind.
  { destruct (stage_name st); apply calm_silent; [apply silent_ret|apply silent_raise]. }
  intros name. apply calm_bind.
  { apply calm_except_reraise; unfold call_get_request_type, log_fail; calm_call. }
  intros r. apply calm_bind.
  { unfold box_update. calm_call. }
  intros _. apply calm_bind.
  { apply calm_except_reraise; unfold call_get_expected, log_fail; calm_call. }
  intros exp. unfold delay, info. apply calm_bind; [calm_call|]. intros _.
  apply calm_bind; [calm_call|]. intros _. apply calm_bind.
  { apply calm_except_reraise; unfold call_run, log_fail; calm_call. }
  intros resp. apply calm_bind; [unfold call_get_verifiers; calm_call|]. intros vs.
  apply calm_bind; [apply calm_for_each; intros; apply calm_run_verifier|]. intros _.
  unfold log_pass, box_pop. calm_call.
Qed.

Lemma calm_merge_include cfg inc : calm (merge_include cfg inc).
Proof.
  unfold merge_include. destruct (included_variables inc); [|apply calm_silent, silent_ret].
  unfold call_check_env_var_settings. calm_call.
Qed.

Lemma acquired_app tr1 tr2 : acquired (tr1 ++ tr2) = acquired tr1 ++ acquired tr2.
Proof. apply omap_app. Qed.

Lemma released_app tr1 tr2 : released (tr1 ++ tr2) = released tr1 ++ released tr2.
Proof. apply omap_app. Qed.

Lemma sessionless_acquired tr : Forall sessionless tr -> acquired tr = [] /\ released tr = [].
Proof.
  induction 1 as [|e tr He _ [IHa IHr]]; [done|].
  change (e :: tr) with ([e] ++ tr).
  rewrite acquired_app, released_app, IHa, IHr. by destruct e.
Qed.

Lemma stacks_calm {A} (f : M A) : calm f -> stacks f.
Proof.
  intros Hf s. destruct (Hf s) as (tr & Ht & Hr & Hc). exists tr.
  destruct (sessionless_acquired tr Hr) as [-> ->]. done.
Qed.

Lemma stacks_bind {A B} (f : M A) (k : A -> M B) :
  stacks f -> (forall a, stacks (k a)) -> stacks (bind f k).
Proof.
  intros Hf Hk s. destruct (Hf s) as (tr & Ht & Hr & Hc). unfold bind.
  destruct (f s) as [[a|e] s1]; simpl in *; [|by exists tr].
  destruct (Hk a s1) as (tr' & Ht' & Hr' & Hc'). exists (tr ++ tr').
  rewrite Ht', Ht, Hc', Hc, released_app, acquired_app, Hr, Hr', rev_app_distr.
  by rewrite !app_assoc.
Qed.

Lemma stacks_for_each {A} (l : list A) (body : A -> M unit) :
  (forall x, stacks (body x)) -> stacks (for_each l body).
Proof.
  intros Hb. induction l as [|x l IH]; simpl; [apply stacks_calm, calm_silent, silent_ret|].
  by apply stacks_bind.
Qed.

Lemma stacks_enter_context cm : stacks (enter_context cm).
Proof.
  unfold enter_context. intros s. destruct (session_enter cm) as [e|].
  - by exists [EnterContext cm false].
  - by exists [EnterContext cm true].
Qed.

Lemma stacks_test_body in_file spec cfg box : stacks (test_body in_file spec cfg box).
Proof.
  unfold test_body, call_get_extra_sessions.
  apply stacks_bind; [apply stacks_calm; calm_call|]. intros sessions.
  apply stacks_bind.
  { apply stacks_for_each. intros ns. unfold debug.
    apply stacks_bind; [apply stacks_calm; calm_call|]. intros _. apply stacks_enter_context. }
  intros _. apply stacks_bind.
  { destruct (stages spec); apply stacks_calm, calm_silent; [apply silent_ret|apply silent_raise]. }
  intros sts. apply stacks_calm, calm_for_each. intros st. apply calm_run_stage.
Qed.

(** The events of a computation that ends with an exit stack: a part that
    leaves no session, then one exit for each session entered, last first. *)
Definition releases {A} (f : M A) : Prop :=
  forall s, exists body excs,
    trace (f s).2 = trace s ++ body ++ zip_with ExitContext (rev (acquired body)) excs /\
    released body = [] /\
    List.length excs = List.length (acquired body) /\
    exit_callbacks (f s).2 = exit_callbacks s.

Lemma releases_with_ExitStack (body : M unit) : stacks body -> releases (with_ExitStack body).
Proof.
  intros Hb s. destruct (with_ExitStack_run body s) as (excs & Hlen & _ & Hc & Ht).
  destruct (Hb (State (st_heap s) [] (trace s))) as (tr & Ht' & Hr & Hc'). simpl in *.
  rewrite app_nil_r in Hc'. rewrite Hc' in *. exists tr, excs.
  rewrite Ht, Ht', <- app_assoc. split_and!; [done|done|by rewrite Hlen, length_rev|done].
Qed.

Lemma releases_calm {A} (f : M A) : calm f -> releases f.
Proof.
  intros Hf s. destruct (Hf s) as (tr & Ht & Hr & Hc). exists tr, [].
  destruct (sessionless_acquired tr Hr) as [-> ->]. simpl. by rewrite app_nil_r.
Qed.

(** Before the exit stack is set up, anything that enters no session. *)
Lemma releases_bind {A B} (f : M A) (k : A -> M B) :
  calm f -> (forall a, releases (k a)) -> releases (bind f k).
Proof.
  intros Hf Hk s. destruct (Hf s) as (tr & Ht & Hs & Hc).
  destruct (sessionless_acquired tr Hs) as [Hacq Hr]. unfold bind.
  destruct (f s) as [[a|e] s1]; simpl in *.
  - destruct (Hk a s1) as (body & excs & Ht' & Hr' & Hlen & Hc'). exists (tr ++ body), excs.
    rewrite Ht', Ht, Hc', Hc, released_app, acquired_app, Hr, Hr', Hacq, <- !app_assoc.
    by rewrite Hlen.
  - exists tr, []. rewrite Hacq. simpl. by rewrite Hr, Ht, app_nil_r.
Qed.

Lemma releases_run_test_spec in_file spec cfg box :
  releases (run_test_spec in_file spec cfg box).
Proof.
  unfold run_test_spec. apply releases_bind.
  { apply calm_for_each. intros inc. apply calm_merge_include. }
  intros _. apply releases_bind.
  { destruct (test_name spec); apply calm_silent; [apply silent_ret|apply silent_raise]. }
  intros name. apply releases_bind; [unfold info; calm_call|]. intros _.
  apply releases_with_ExitStack, stacks_test_body.
Qed.

(** C5: the events of a test, whatever its outcome, are a part in which no
    session is left, followed by one exit for each session that was entered
    with success in that part and by nothing else, the session entered last
    being left first; the exit stack of the caller is as it was. A session
    whose entry fails is not among those entered, and the sessions entered
    before it are left all the same. *)
Theorem C5_sessions_released in_file doc g s :
  exists body excs,
    trace (run_test in_file doc g s).2 =
      trace s ++ body ++ zip_with ExitContext (rev (acquired body)) excs /\
    released body = [] /\
    List.length excs = List.length (acquired body) /\
    exit_callbacks (run_test in_file doc g s).2 = exit_callbacks s.
Proof.
  revert s. change (releases (run_test in_file doc g)). unfold run_test.
  apply releases_bind; [apply calm_silent, silent_init_test_block_config|]. intros [c b].
  destruct doc as [spec|]; [destruct (truthy (Some spec))|];
    try solve [apply releases_calm; unfold warning; calm_call].
  apply releases_run_test_spec.
Qed.

End Sessions.


(** ** The calls each part makes *)

(** The calls of a stage (lines 114-162). *)
Definition stage_event (e : event) : Prop :=
  match e with
  | GetRequestType _ _ _ | BoxUpdate _ _ _ | GetExpected _ _ _ | Delay _ _ | LogInfo _
  | RequestRun _ | GetVerifiers _ _ _ | Verify _ _ _ _ | LogFail _ _ _ | LogPass _ _
  | BoxPop _ _ => True
  | _ => False
  end.

(** The calls made under the exit stack (lines 105-162). *)
Definition body_event (e : event) : Prop :=
  match e with
  | GetExtraSessions _ | LogDebug _ | EnterContext _ _ | ExitContext _ _ => True
  | _ => stage_event e
  end.

(** The calls of a test that is not empty (lines 95-162). *)
Definition test_event (e : event) : Prop :=
  match e with
  | CheckEnvVarSettings _ => True
  | _ => body_event e
  end.

Section Emits.
Context `{Builtins} `{Collaborators}.

(** Every event of [f] is one of [P]. *)
Definition emits {A} (P : event -> Prop) (f : M A) : Prop :=
  forall s, exists tr, trace (f s).2 = trace s ++ tr /\ Forall P tr.

Lemma emits_mono {A} (P Q : event -> Prop) (f : M A) :
  (forall e, P e -> Q e) -> emits P f -> emits Q f.
Proof.
  intros HPQ Hf s. destruct (Hf s) as (tr & Ht & Hall). exists tr. split; [done|].
  eapply Forall_impl; eauto.
Qed.

Lemma emits_silent {A} P (f : M A) : silent f -> emits P f.
Proof. intros Hf s. destruct (Hf s) as [Ht _]. exists []. by rewrite app_nil_r. Qed.

Lemma emits_bind {A B} P (f : M A) (k : A -> M B) :
  emits P f -> (forall a, emits P (k a)) -> emits P (bind f k).
Proof.
  intros Hf Hk s. destruct (Hf s) as (tr & Ht & Hall). unfold bind.
  destruct (f s) as [[a|e] s1]; simpl in *; [|by exists tr].
  destruct (Hk a s1) as (tr' & Ht' & Hall'). exists (tr ++ tr').
  rewrite Ht', Ht, app_assoc. split; [done|by apply Forall_app].
Qed.

Lemma emits_emit (P : event -> Prop) e : P e -> emits P (emit e).
Proof. intros He s. exists [e]. split; [done|by constructor]. Qed.

Lemma emits_lift_check P r : emits P (lift_check r).
Proof. apply emits_silent. destruct r; [apply silent_raise|apply silent_ret]. Qed.

Lemma emits_for_each {A} P (l : list A) (body : A -> M unit) :
  (forall x, emits P (body x)) -> emits P (for_each l body).
Proof.
  intros Hb. induction l as [|x l IH]; simpl; [apply emits_silent, silent_ret|].
  by apply emits_bind.
Qed.

Lemma emits_except_reraise {A} P cls (f : M A) (handler : M unit) :
  emits P f -> emits P handler -> emits P (except_reraise cls f handler).
Proof.
  intros Hf Hh s. destruct (Hf s) as (tr & Ht & Hall). unfold except_reraise.
  destruct (f s) as [[a|e] s1]; simpl in *; [by exists tr|].
  destruct (isinstance e cls); [|by exists tr].
  destruct (Hh s1) as (tr' & Ht' & Hall'). exists (tr ++ tr').
  assert (Hgoal : trace (handler s1).2 = trace s ++ tr ++ tr' /\ Forall P (tr ++ tr')).
  { rewrite Ht', Ht, app_assoc. split; [done|by apply Forall_app]. }
  by destruct (handler s1) as [[] s2].
Qed.

Lemma emits_try_except {A} P cls (f : M A) : emits P f -> emits P (try_except cls f).
Proof.
  intros Hf s. destruct (Hf s) as (tr & Ht & Hall). unfold try_except. exists tr.
  destruct (f s) as [[a|e] s1]; simpl in *; [done|]. by destruct (isinstance e cls).
Qed.

Lemma emits_enter_context (P : event -> Prop) cm :
  (forall ok, P (EnterContext cm ok)) -> emits P (enter_context cm).
Proof.
  intros HP s. unfold enter_context. destruct (session_enter cm) as [e|].
  - exists [EnterContext cm false]. split; [done|]. by constructor.
  - exists [EnterContext cm true]. split; [done|]. by constructor.
Qed.

Lemma emits_with_ExitStack (P : event -> Prop) (body : M unit) :
  (forall cm exc, P (ExitContext cm exc)) -> emits P body -> emits P (with_ExitStack body).
Proof.
  intros HP Hb s. destruct (with_ExitStack_run body s) as (excs & _ & _ & _ & Ht).
  destruct (Hb (State (st_heap s) [] (trace s))) as (tr & Ht' & Hall). simpl in *.
  rewrite Ht, Ht', <- app_assoc. eexists. split; [done|]. apply Forall_app. split; [done|].
  generalize (exit_callbacks (body (State (st_heap s) [] (trace s))).2). clear -HP.
  intros cbs. revert excs. induction cbs as [|cb cbs IH]; intros [|exc excs]; simpl;
    try constructor; [apply HP|apply IH].
Qed.

Ltac emits_call :=
  repeat first
    [ apply emits_silent, silent_setitem
    | apply emits_silent, silent_dict_pop
    | apply emits_silent, silent_update_variables
    | apply emits_bind; [|intros ?]
    | apply emits_silent, silent_get_heap
    | apply emits_silent, silent_lift
    | apply emits_silent, silent_raise
    | apply emits_silent, silent_ret
    | apply emits_lift_check
    | apply emits_emit; exact I ].

Lemma emits_run_verifier in_file st cfg exp resp v :
  emits stage_event (run_verifier in_file st cfg exp resp v).
Proof.
  unfold run_verifier, call_verify. apply emits_bind; [emits_call|]. intros r.
  destruct (errors r).
  - apply emits_silent, silent_update_variables.
  - unfold log_fail, verification_failure. emits_call.
Qed.

(** A stage makes the calls of lines 114-162 and no other: it logs no
    warning, touches no session, validates nothing. *)
Lemma emits_run_stage in_file cfg box sessions st :
  emits stage_event (run_stage in_file cfg box sessions st).
Proof.
  unfold run_stage. apply emits_bind.
  { destruct (stage_name st); apply emits_silent; [apply silent_ret|apply silent_raise]. }
  intros name. apply emits_bind.
  { apply emits_except_reraise; unfold call_get_request_type, log_fail; emits_call. }
  intros r. apply emits_bind; [unfold box_update; emits_call|].
  intros _. apply emits_bind.
  { apply emits_except_reraise; unfold call_get_expected, log_fail; emits_call. }
  intros exp. unfold delay, info. apply emits_bind; [emits_call|]. intros _.
  apply emits_bind; [emits_call|]. intros _. apply emits_bind.
  { apply emits_except_reraise; unfold call_run, log_fail; emits_call. }
  intros resp. apply emits_bind; [unfold call_get_verifiers; emits_call|]. intros vs.
  apply emits_bind; [apply emits_for_each; intros; apply emits_run_verifier|]. intros _.
  unfold log_pass, box_pop. emits_call.
Qed.

Lemma stage_body_event e : stage_event e -> body_event e.
Proof. by destruct e. Qed.

Lemma body_test_event e : body_event e -> test_event e.
Proof. by destruct e. Qed.

Lemma emits_test_body in_file spec cfg box :
  emits body_event (test_body in_file spec cfg box).
Proof.
  unfold test_body, call_get_extra_sessions. apply emits_bind; [emits_call|]. intros sessions.
  apply emits_bind.
  { apply emits_for_each. intros ns. unfold debug. apply emits_bind; [emits_call|].
    intros _. by apply emits_enter_context. }
  intros _. apply emits_bind.
  { destruct (stages spec); apply emits_silent; [apply silent_ret|apply silent_raise]. }
  intros sts. apply emits_for_each. intros st.
  apply (emits_mono stage_event); [apply stage_body_event|apply emits_run_stage].
Qed.

(** Under the exit stack a test looks up and enters its sessions, runs its
    stages and leaves the sessions. *)
Lemma emits_exit_stack in_file spec cfg box :
  emits body_event (with_ExitStack (test_body in_file spec cfg box)).
Proof. apply emits_with_ExitStack; [done|apply emits_test_body]. Qed.

(** A test that is not empty checks its includes, looks up and enters its
    sessions, runs its stages and leaves the sessions: it logs no warning
    and validates no schema. *)
Lemma emits_run_test_spec in_file spec cfg box :
  emits test_event (run_test_spec in_file spec cfg box).
Proof.
  unfold run_test_spec. apply emits_bind.
  { apply emits_for_each. intros inc. unfold merge_include.
    destruct (included_variables inc); [|apply emits_silent, silent_ret].
    unfold call_check_env_var_settings. emits_call. }
  intros _. apply emits_bind.
  { destruct (test_name spec); apply emits_silent; [apply silent_ret|apply silent_raise]. }
  intros name. apply emits_bind; [unfold info; emits_call|]. intros _.
  apply (emits_mono body_event); [apply body_test_event|apply emits_exit_stack].
Qed.

End Emits.


(** ** Empty documents and tests without stages *)

Section Empty.
Context `{Builtins} `{Collaborators}.



End Empty.

Section EmptyExamples.
Import World.





End EmptyExamples.


(** ** The objects a test writes *)

Section Frame.
Context `{Builtins} `{Collaborators}.

(** A computation that leaves the heap as it is. *)
Definition heapless {A} (f : M A) : Prop := forall s, st_heap (f s).2 = st_heap s.

Lemma heapless_ret {A} (a : A) : heapless (ret a).
Proof. by intros s. Qed.

Lemma heapless_raise {A} (e : exn) : heapless (@raise A e).
Proof. by intros s. Qed.

Lemma heapless_lift {A} (r : result A) : heapless (lift r).
Proof. by intros s. Qed.

Lemma heapless_lift_check r : heapless (lift_check r).
Proof. destruct r; [apply heapless_raise|apply heapless_ret]. Qed.

Lemma heapless_get_heap : heapless get_heap.
Proof. by intros s. Qed.

Lemma heapless_emit e : heapless (emit e).
Proof. by intros s. Qed.

Lemma heapless_bind {A B} (f : M A) (k : A -> M B) :
  heapless f -> (forall a, heapless (k a)) -> heapless (bind f k).
Proof.
  intros Hf Hk s. specialize (Hf s). unfold bind.
  destruct (f s) as [[a|e] s1]; simpl in *; [|done]. by rewrite Hk.
Qed.

Lemma heapless_try_except {A} cls (f : M A) : heapless f -> heapless (try_except cls f).
Proof.
  intros Hf s. specialize (Hf s). unfold try_except.
  destruct (f s) as [[a|e] s1]; simpl in *; [done|]. by destruct (isinstance e cls).
Qed.

Lemma heapless_enter_context cm : heapless (enter_context cm).
Proof. intros s. unfold enter_context. by destruct (session_enter cm). Qed.

Lemma heapless_call_verify_tests spec : heapless (call_verify_tests spec).
Proof.
  apply heapless_bind; [apply heapless_emit|]. intros _. apply heapless_lift_check.
Qed.

Variables c lv b : loc.
Hypothesis Hclv : c <> lv.
Hypothesis Hbc : b <> c.

(** The configuration [c] points to the variables [lv]. *)
Definition points (h : heap) : Prop :=
  exists dc, h !! c = Some dc /\ dc !! "variables" = Some (VRef lv).

(** A computation that writes to no object other than the variables and
    the tavern box. *)
Definition confined {A} (f : M A) : Prop :=
  forall s, points (st_heap s) ->
    forall l, l <> lv -> l <> b -> st_heap (f s).2 !! l = st_heap s !! l.

Lemma confined_heapless {A} (f : M A) : heapless f -> confined f.
Proof. intros Hf s _ l _ _. by rewrite Hf. Qed.

Lemma confined_points {A} (f : M A) s :
  confined f -> points (st_heap s) -> points (st_heap (f s).2).
Proof. intros Hf Hp. unfold points. by rewrite (Hf s Hp c). Qed.

Lemma confined_bind {A B} (f : M A) (k : A -> M B) :
  confined f -> (forall a, confined (k a)) -> confined (bind f k).
Proof.
  intros Hf Hk s Hp l Hl Hl'. pose proof (confined_points f s Hf Hp) as Hp1.
  specialize (Hf s Hp l Hl Hl'). unfold bind.
  destruct (f s) as [[a|e] s1]; simpl in *; [|done]. by rewrite (Hk a s1 Hp1 l Hl Hl').
Qed.

Lemma confined_for_each {A} (l : list A) (body : A -> M unit) :
  (forall x, confined (body x)) -> confined (for_each l body).
Proof.
  intros Hb. induction l as [|x l IH]; simpl; [apply confined_heapless, heapless_ret|].
  by apply confined_bind.
Qed.

Lemma confined_except_reraise {A} cls (f : M A) (handler : M unit) :
  confined f -> confined handler -> confined (except_reraise cls f handler).
Proof.
  intros Hf Hh s Hp l Hl Hl'. pose proof (confined_points f s Hf Hp) as Hp1.
  specialize (Hf s Hp l Hl Hl'). unfold except_reraise.
  destruct (f s) as [[a|e] s1]; simpl in *; [done|].
  destruct (isinstance e cls); [|done].
  specialize (Hh s1 Hp1 l Hl Hl'). destruct (handler s1) as [[] s2]; simpl in *; congruence.
Qed.

Lemma confined_setitem k v : confined (setitem b k v).
Proof.
  intros s _ l _ Hl. destruct (setitem_cases b k v s) as [(e & _ & ->)|(d & _ & ->)]; [done|].
  simpl. by rewrite lookup_insert_ne.
Qed.

Lemma confined_dict_pop k : confined (dict_pop b k).
Proof.
  intros s _ l _ Hl.
  destruct (dict_pop_cases b k s) as [(e & _ & ->)|(d & v & _ & _ & ->)]; [done|].
  simpl. by rewrite lookup_insert_ne.
Qed.

Lemma confined_update_variables other : confined (update_variables c other).
Proof.
  intros s (dc & Hc & Hv) l Hl _.
  destruct (update_variables_cases c other s)
    as [(e & ->)|(dc' & l' & d & Hc' & Hv' & _ & ->)]; [done|].
  simpl. rewrite Hc in Hc'. injection Hc' as <-. rewrite Hv in Hv'. injection Hv' as <-.
  by rewrite lookup_insert_ne.
Qed.

Lemma confined_with_ExitStack (body : M unit) : confined body -> confined (with_ExitStack body).
Proof.
  intros Hb s Hp l Hl Hl'. destruct (with_ExitStack_run body s) as (excs & _ & -> & _).
  exact (Hb (State (st_heap s) [] (trace s)) Hp l Hl Hl').
Qed.

Ltac confined_call :=
  repeat first
    [ apply confined_setitem
    | apply confined_dict_pop
    | apply confined_update_variables
    | apply confined_bind; [|intros ?]
    | apply confined_heapless, heapless_get_heap
    | apply confined_heapless, heapless_lift
    | apply confined_heapless, heapless_raise
    | apply confined_heapless, heapless_ret
    | apply confined_heapless, heapless_lift_check
    | apply confined_heapless, heapless_emit ].

Lemma confined_run_verifier in_file st exp resp v :
  confined (run_verifier in_file st c exp resp v).
Proof.
  unfold run_verifier, call_verify. apply confined_bind; [confined_call|]. intros r.
  destruct (errors r); [apply confined_update_variables|].
  unfold log_fail, verification_failure. confined_call.
Qed.

(** A stage writes to the variables and to the tavern box only. *)
Lemma confined_run_stage in_file sessions st :
  confined (run_stage in_file c b sessions st).
Proof.
  unfold run_stage. apply confined_bind.
  { destruct (stage_name st); apply confined_heapless; [apply heapless_ret|apply heapless_raise]. }
  intros name. apply confined_bind.
  { apply confined_except_reraise; unfold call_get_request_type, log_fail; confined_call. }
  intros r. apply confined_bind; [unfold box_update; confined_call|].
  intros _. apply confined_bind.
  { apply confined_except_reraise; unfold call_get_expected, log_fail; confined_call. }
  intros exp. unfold delay, info. apply confined_bind; [confined_call|]. intros _.
  apply confined_bind; [confined_call|]. intros _. apply confined_bind.
  { apply confined_except_reraise; unfold call_run, log_fail; confined_call. }
  intros resp. apply confined_bind; [unfold call_get_verifiers; confined_call|]. intros vs.
  apply confined_bind; [apply confined_for_each; intros; apply confined_run_verifier|].
  intros _. unfold log_pass, box_pop. confined_call.
Qed.

Lemma confined_test_body in_file spec : confined (test_body in_file spec c b).
Proof.
  unfold test_body, call_get_extra_sessions. apply confined_bind; [confined_call|].
  intros sessions. apply confined_bind.
  { apply confined_for_each. intros ns. unfold debug. apply confined_bind; [confined_call|].
    intros _. apply confined_heapless, heapless_enter_context. }
  intros _. apply confined_bind.
  { destruct (stages spec); apply confined_heapless; [apply heapless_ret|apply heapless_raise]. }
  intros sts. apply confined_for_each. intros st. apply confined_run_stage.
Qed.

(** A test that is not empty writes to its variables and to its tavern box
    only. *)
Lemma confined_run_test_spec in_file spec : confined (run_test_spec in_file spec c b).
Proof.
  unfold run_test_spec. apply confined_bind.
  { apply confined_for_each. intros inc. unfold merge_include.
    destruct (included_variables inc); [|apply confined_heapless, heapless_ret].
    unfold call_check_env_var_settings. confined_call. }
  intros _. apply confined_bind.
  { destruct (test_name spec); apply confined_heapless; [apply heapless_ret|apply heapless_raise]. }
  intros name. apply confined_bind; [unfold info; confined_call|]. intros _.
  apply confined_with_ExitStack, confined_test_body.
Qed.

End Frame.

Section TestFrame.
Context `{Builtins} `{Collaborators}.

(** [run_test] leaves every object of the caller as it is, the mapping of
    the global variables apart: the global configuration itself, when its
    variables are another object, is unchanged. *)
Lemma run_test_frame in_file doc g s :
  global_ok (st_heap s) g ->
  exists lv,
    (forall dg lv0, st_heap s !! g = Some dg -> dg !! "variables" = Some (VRef lv0) -> lv = lv0) /\
    forall l, is_Some (st_heap s !! l) -> l <> lv ->
      st_heap (run_test in_file doc g s).2 !! l = st_heap s !! l.
Proof.
  intros Hg. destruct (init_test_block_config_run g s Hg) as (c & lv & b & h0 & Hinit & Hobj).
  exists lv. split.
  { intros dg lv0 Hdg Hv. by destruct (objects_shared _ _ _ _ _ _ Hobj dg lv0 Hdg Hv). }
  intros l Hl Hllv. unfold run_test. rewrite (bind_run_Return _ _ _ _ _ Hinit).
  assert (Hframe : h0 !! l = st_heap s !! l) by exact (objects_frame _ _ _ _ _ _ Hobj l Hl Hllv).
  assert (Hlb : l <> b).
  { intros ->. destruct Hl as [x Hx]. by rewrite (objects_b_fresh _ _ _ _ _ _ Hobj) in Hx. }
  destruct doc as [spec|]; [destruct (truthy (Some spec))|]; try exact Hframe.
  rewrite <- Hframe.
  exact (confined_run_test_spec c lv b (objects_c_lv _ _ _ _ _ _ Hobj)
           (objects_b_c _ _ _ _ _ _ Hobj) in_file spec
           (State h0 (exit_callbacks s) (trace s)) (objects_cfg _ _ _ _ _ _ Hobj) l Hllv Hlb).
Qed.

End TestFrame.


(** ** The variables across the documents of a file *)

(** The events that carry no configuration. *)
Definition unseen (e : event) : Prop := snapshot e = None.

(** The events that are not the check of an include. *)
Definition checkless (e : event) : Prop :=
  match e with CheckEnvVarSettings _ => False | _ => True end.

Lemma cut_app {A} (l1 l2 pre post : list A) (e : A) :
  l1 ++ l2 = pre ++ e :: post ->
  (exists post1, l1 = pre ++ e :: post1 /\ post = post1 ++ l2) \/
  (exists pre2, pre = l1 ++ pre2 /\ l2 = pre2 ++ e :: post).
Proof.
  revert pre. induction l1 as [|x l1 IH]; intros pre Heq; simpl in *.
  - right. by exists pre.
  - destruct pre as [|y pre]; simpl in *.
    + injection Heq as -> <-. left. by exists l1.
    + injection Heq as -> Heq. destruct (IH pre Heq) as [(post1 & -> & ->)|(pre2 & -> & ->)].
      * left. by exists post1.
      * right. by exists pre2.
Qed.

Section Written.
Context `{Builtins} `{Collaborators}.

(** The names an event writes to the variables: those of an include whose
    check passes (line 99), those a verifier without errors saves
    (line 157). *)
Definition writes (e : event) : gset string :=
  match e with
  | CheckEnvVarSettings vars =>
      match check_env_var_settings vars with
      | None => dom vars
      | Some _ => ∅
      end
  | Verify v resp _ h =>
      match verify v resp h with
      | Return rv => match errors rv with [] => dom (saved rv) | _ => ∅ end
      | Raise _ => ∅
      end
  | _ => ∅
  end.

Definition written (tr : list event) : gset string := ⋃ (writes <$> tr).

Lemma written_app tr1 tr2 : written (tr1 ++ tr2) = written tr1 ∪ written tr2.
Proof. unfold written. by rewrite fmap_app, union_list_app_L. Qed.

Lemma written_cons e tr : written (e :: tr) = writes e ∪ written tr.
Proof. reflexivity. Qed.

(** Every call of [tr] that receives a configuration receives one whose
    ["variables"] is the object [lv], and finds there the tavern box, the
    names [K] and the names written before the call. *)
Definition seen (lv : loc) (K : gset string) (tr : list event) : Prop :=
  forall pre e post cfg h,
    tr = pre ++ e :: post -> snapshot e = Some (cfg, h) ->
    h !! cfg ≫= (.!! "variables") = Some (VRef lv) /\
    exists E, h !! lv = Some E /\ "tavern" ∈ dom E /\ K ∪ written pre ⊆ dom E.

Lemma seen_unseen lv K tr : Forall unseen tr -> seen lv K tr.
Proof.
  intros Hall pre e post cfg h -> Hsnap. apply Forall_app in Hall as [_ Hall].
  apply Forall_cons in Hall as [He _]. unfold unseen in He. congruence.
Qed.

Lemma seen_mono lv K K' tr : K' ⊆ K -> seen lv K tr -> seen lv K' tr.
Proof.
  intros HK Hs pre e post cfg h Hcut Hsnap.
  destruct (Hs pre e post cfg h Hcut Hsnap) as (Ha & E & HE & Ht & Hsub).
  split; [done|]. exists E. split_and!; [done|done|set_solver].
Qed.

Lemma seen_app lv K tr1 tr2 :
  seen lv K tr1 -> seen lv (K ∪ written tr1) tr2 -> seen lv K (tr1 ++ tr2).
Proof.
  intros H1 H2 pre e post cfg h Hcut Hsnap.
  destruct (cut_app _ _ _ _ _ Hcut) as [(post1 & -> & ->)|(pre2 & -> & ->)].
  - by apply (H1 pre e post1).
  - destruct (H2 pre2 e post cfg h eq_refl Hsnap) as (Ha & E & HE & Ht & Hsub).
    split; [done|]. exists E. split_and!; [done|done|]. rewrite written_app. set_solver.
Qed.

Lemma unseen_written tr :
  Forall unseen tr -> Forall checkless tr -> written tr = ∅.
Proof.
  induction 1 as [|e tr He _ IH]; [done|]. intros Hall. apply Forall_cons in Hall as [Hc Hall].
  rewrite written_cons, (IH Hall). destruct e; try done; set_solver.
Qed.

Section Machine.
Variables c lv b : loc.
Hypothesis Hclv : c <> lv.
Hypothesis Hblv : b <> lv.
Hypothesis Hbc : b <> c.

Lemma step_snapshot_sees q e q' cfg h :
  step c lv b q e q' -> snapshot e = Some (cfg, h) -> cfg = c /\ sees c lv b h q.
Proof.
  destruct 1 as [E st h0 Hs| |E v st h0 Hs|E v st h0 Hs|E v vr resp h0 rv Hs|E v vr resp h0 Hs|
                 |q e Hq]; simpl; intros Hsnap; try discriminate;
    try (injection Hsnap as <- <-; done).
  by destruct e.
Qed.

Lemma step_writes q e q' :
  step c lv b q e q' -> checkless e -> dom (env q) ∪ writes e ⊆ dom (env q').
Proof.
  destruct 1 as [E st h0 Hs| |E v st h0 Hs|E v st h0 Hs|E v vr resp h0 rv Hs Hv Herr
                 |E v vr resp h0 Hs Hfail| |q e Hq]; simpl; intros Hc; try set_solver.
  - rewrite Hv, Herr, dom_union_L. set_solver.
  - destruct (verify vr resp h0) as [rv|]; [|set_solver].
    specialize (Hfail rv eq_refl). destruct (errors rv); [done|set_solver].
  - destruct e; simpl in *; try done; set_solver.
Qed.

Lemma steps_written q tr q' :
  steps c lv b q tr q' -> Forall checkless tr -> dom (env q) ∪ written tr ⊆ dom (env q').
Proof.
  induction 1 as [|q e q1 tr q2 Hstep _ IH]; intros Hall.
  - unfold written. simpl. set_solver.
  - apply Forall_cons in Hall as [Hc Hall]. rewrite written_cons.
    pose proof (step_writes _ _ _ Hstep Hc). specialize (IH Hall). set_solver.
Qed.

Lemma steps_seen q tr q' :
  steps c lv b q tr q' -> Forall checkless tr -> "tavern" ∈ dom (env q) ->
  seen lv (dom (env q)) tr.
Proof.
  intros Hst Hall Ht pre e post cfg h -> Hsnap.
  apply steps_app_inv in Hst as (q1 & Hpre & Hrest).
  apply steps_cons_inv in Hrest as (q2 & Hstep & _).
  destruct (step_snapshot_sees _ _ _ _ _ Hstep Hsnap) as [-> ((dc & Hc & Hv) & Hlv & _)].
  apply Forall_app in Hall as [Hall1 _].
  pose proof (steps_written _ _ _ Hpre Hall1) as Hsub.
  split; [by rewrite Hc|]. exists (env q1). split_and!; [done|set_solver|done].
Qed.

Lemma merge_include_written (inc : included) (E : gmap string value) (s : state) :
  sees c lv b (st_heap s) (AState true E None) ->
  exists E' tr,
    dom E ∪ written tr ⊆ dom E' /\ Forall unseen tr /\
    trace (merge_include c inc s).2 = trace s ++ tr /\
    sees c lv b (st_heap (merge_include c inc s).2) (AState true E' None).
Proof.
  intros Hsees. rewrite merge_include_eq. destruct (included_variables inc) as [vars|].
  - destruct (check_env_var_settings vars) as [e|] eqn:Hcheck; simpl.
    + exists E, [CheckEnvVarSettings vars]. rewrite written_cons. simpl. rewrite Hcheck.
      split_and!; [set_solver|by apply Forall_singleton|done|done].
    + destruct (runs_update_variables c lv b Hclv Hblv vars true E None
                  (log s [CheckEnvVarSettings vars]) Hsees) as [Hu Hsees'].
      rewrite Hu. simpl.
      exists (vars ∪ E), [CheckEnvVarSettings vars]. rewrite written_cons. simpl.
      rewrite Hcheck.
      split_and!; [rewrite dom_union; set_solver|by apply Forall_singleton|done|exact Hsees'].
  - exists E, []. simpl. rewrite app_nil_r.
    split_and!; [set_solver|constructor|done|done].
Qed.

Lemma includes_written (incs : list included) (E : gmap string value) (s : state) :
  sees c lv b (st_heap s) (AState true E None) ->
  exists E' tr,
    dom E ∪ written tr ⊆ dom E' /\ Forall unseen tr /\
    trace (for_each incs (merge_include c) s).2 = trace s ++ tr /\
    sees c lv b (st_heap (for_each incs (merge_include c) s).2) (AState true E' None).
Proof.
  revert E s. induction incs as [|inc incs IH]; intros E s Hsees.
  - exists E, []. simpl. rewrite app_nil_r. split_and!; [set_solver|constructor|done|done].
  - destruct (merge_include_written inc E s Hsees) as (E1 & tr1 & Hdom1 & Hq1 & Htr1 & Hsees1).
    destruct (merge_include c inc s) as [[[]|e] s1] eqn:Hrun; simpl in *.
    + rewrite (bind_run_Return _ _ _ _ _ Hrun).
      destruct (IH E1 s1 Hsees1) as (E2 & tr2 & Hdom2 & Hq2 & Htr2 & Hsees2).
      exists E2, (tr1 ++ tr2). rewrite Htr2, Htr1, app_assoc, written_app.
      split_and!; [set_solver|by apply Forall_app|done|done].
    + rewrite (bind_run_Raise _ _ _ _ _ Hrun). exists E1, tr1. done.
Qed.

Lemma body_checkless e : body_event e -> checkless e.
Proof. by destruct e. Qed.

Lemma run_test_spec_shared E in_file spec s :
  sees c lv b (st_heap s) (AState true E None) -> "tavern" ∈ dom E ->
  exists tr E',
    trace (run_test_spec in_file spec c b s).2 = trace s ++ tr /\
    st_heap (run_test_spec in_file spec c b s).2 !! lv = Some E' /\
    dom E ∪ written tr ⊆ dom E' /\ seen lv (dom E) tr.
Proof.
  intros Hsees Htav. unfold run_test_spec.
  destruct (includes_written (default [] (includes spec)) E s Hsees)
    as (E1 & tr1 & Hdom1 & Hq1 & Htr1 & Hsees1).
  assert (Hstop : forall s1 : state, trace s1 = trace s ++ tr1 ->
            sees c lv b (st_heap s1) (AState true E1 None) ->
            exists tr E', trace s1 = trace s ++ tr /\ st_heap s1 !! lv = Some E' /\
              dom E ∪ written tr ⊆ dom E' /\ seen lv (dom E) tr).
  { intros s1 Ht Hs. exists tr1, E1. destruct Hs as (_ & Hlv & _).
    split_and!; [done|done|done|by apply seen_unseen]. }
  destruct (for_each (default [] (includes spec)) (merge_include c) s) as [[[]|e] s1] eqn:Hinc;
    simpl in *.
  2:{ rewrite (bind_run_Raise _ _ _ _ _ Hinc). by apply Hstop. }
  rewrite (bind_run_Return _ _ _ _ _ Hinc).
  destruct (test_name spec) as [n|]; [|by apply Hstop].
  rewrite (bind_run_Return _ _ s1 s1 n) by done.
  unfold info. rewrite (bind_run_Return _ _ _ _ _ (emit_run _ _)).
  set (s2 := log s1 [LogInfo ("Running test : " +:+ n)]).
  destruct (traces_with_ExitStack c lv b Hclv Hblv Hbc E1 in_file spec s2 Hsees1)
    as (E2 & q2 & tr2 & Hdom2 & Htr2 & Hst2 & Hsees2 & Hmono2).
  destruct (emits_exit_stack in_file spec c b s2) as (tr2' & Htr2' & Hall).
  rewrite Htr2 in Htr2'. apply app_inv_head in Htr2'. subst tr2'.
  assert (Hcl : Forall checkless tr2) by (eapply Forall_impl; [done|apply body_checkless]).
  pose proof (steps_written _ _ _ Hst2 Hcl) as Hw. simpl in Hw.
  exists (tr1 ++ LogInfo ("Running test : " +:+ n) :: tr2), (env q2).
  destruct Hsees2 as (_ & Hlv2 & _).
  assert (Hw1 : written (tr1 ++ [LogInfo ("Running test : " +:+ n)]) = written tr1).
  { rewrite written_app. unfold written at 2. simpl. set_solver. }
  split_and!.
  - rewrite Htr2. unfold s2. simpl. rewrite Htr1, <- !app_assoc. done.
  - done.
  - change (tr1 ++ LogInfo ("Running test : " +:+ n) :: tr2)
      with (tr1 ++ [LogInfo ("Running test : " +:+ n)] ++ tr2).
    rewrite app_assoc, written_app, Hw1. set_solver.
  - change (tr1 ++ LogInfo ("Running test : " +:+ n) :: tr2)
      with (tr1 ++ [LogInfo ("Running test : " +:+ n)] ++ tr2).
    rewrite app_assoc. apply seen_app.
    + apply seen_unseen, Forall_app. split; [done|by apply Forall_singleton].
    + rewrite Hw1. apply (seen_mono _ (dom E2)); [set_solver|].
      apply (steps_seen _ _ _ Hst2 Hcl). simpl. set_solver.
Qed.

End Machine.
End Written.


Section File.
Context `{Builtins} `{Collaborators}.
Variables (g lv : loc) (dg : gmap string value).
Hypothesis Hglv : g <> lv.
Hypothesis Hdg : dg !! "variables" = Some (VRef lv).

(** From [s] to [s']: the global configuration is the same mapping, its
    variables hold the names [K] and what was written, and the calls saw
    them. *)
Definition shared_run (K : gset string) (s s' : state) : Prop :=
  exists tr E',
    trace s' = trace s ++ tr /\
    st_heap s' !! g = Some dg /\ st_heap s' !! lv = Some E' /\
    K ∪ written tr ⊆ dom E' /\ seen lv K tr.

Lemma shared_run_log (K : gset string) (s : state) (E : gmap string value) (e : event) :
  st_heap s !! g = Some dg -> st_heap s !! lv = Some E -> K ⊆ dom E ->
  unseen e -> checkless e -> shared_run K s (log s [e]).
Proof.
  intros Hg Hlv HK He Hc. exists [e], E. simpl.
  assert (Hw : written [e] = ∅).
  { apply unseen_written; by apply Forall_singleton. }
  split_and!; [done|done|done|rewrite Hw; set_solver|by apply seen_unseen, Forall_singleton].
Qed.

Lemma shared_run_trans (K : gset string) (s s1 s2 : state) :
  shared_run K s s1 ->
  (forall E1, st_heap s1 !! lv = Some E1 -> shared_run (dom E1) s1 s2) ->
  shared_run K s s2.
Proof.
  intros (tr1 & E1 & Ht1 & Hg1 & Hlv1 & Hsub1 & Hseen1) H2.
  destruct (H2 E1 Hlv1) as (tr2 & E2 & Ht2 & Hg2 & Hlv2 & Hsub2 & Hseen2).
  exists (tr1 ++ tr2), E2. rewrite Ht2, Ht1, app_assoc, written_app.
  split_and!; [done|done|done|set_solver|].
  apply seen_app; [done|]. by apply (seen_mono _ (dom E1)).
Qed.

(** One test: the configuration [run_test] builds points to the variables
    of the global configuration. *)
Lemma run_test_shared in_file doc (E0 : gmap string value) (s : state) :
  st_heap s !! g = Some dg -> st_heap s !! lv = Some E0 ->
  shared_run (dom E0) s (run_test in_file doc g s).2.
Proof.
  intros Hg Hlv.
  assert (Hok : global_ok (st_heap s) g).
  { exists dg. split; [done|]. right. exists lv. split; [done|by eexists]. }
  destruct (run_test_frame in_file doc g s Hok) as (lv' & Hsame & Hframe).
  pose proof (Hsame dg lv Hg Hdg) as ->. clear Hsame.
  pose proof (Hframe g (ltac:(by eexists)) Hglv) as Hg'. rewrite Hg in Hg'.
  destruct (init_test_block_config_run g s Hok) as (c & lv' & b & h0 & Hinit & Hobj).
  destruct (objects_shared _ _ _ _ _ _ Hobj dg lv Hg Hdg) as (-> & d0 & Hd0 & Hh0).
  rewrite Hlv in Hd0. injection Hd0 as <-.
  assert (Hsees : sees c lv b h0 (AState true (<["tavern" := VRef b]> E0) None)).
  { destruct Hobj. by split_and!. }
  revert Hg'. unfold run_test. rewrite (bind_run_Return _ _ _ _ _ Hinit). simpl. intros Hg'.
  assert (Hempty : forall msg,
    st_heap (warning msg (State h0 (exit_callbacks s) (trace s))).2 !! g = Some dg ->
    shared_run (dom E0) s (warning msg (State h0 (exit_callbacks s) (trace s))).2).
  { intros msg Hgw. exists [LogWarning msg], (<["tavern" := VRef b]> E0). simpl in *.
    split_and!; [done|done|done| |by apply seen_unseen, Forall_singleton].
    rewrite dom_insert_L. unfold written. simpl. set_solver. }
  destruct doc as [spec|]; [destruct (truthy (Some spec))|]; try by apply Hempty.
  destruct (run_test_spec_shared c lv b (objects_c_lv _ _ _ _ _ _ Hobj)
              (objects_b_lv _ _ _ _ _ _ Hobj) (objects_b_c _ _ _ _ _ _ Hobj)
              (<["tavern" := VRef b]> E0) in_file spec (State h0 (exit_callbacks s) (trace s))
              Hsees) as (tr & E' & Htr & HE' & Hsub & Hseen).
  { rewrite dom_insert_L. set_solver. }
  exists tr, E'. rewrite dom_insert_L in Hsub, Hseen.
  split_and!; [done|done|done|set_solver|]. apply (seen_mono _ ({["tavern"]} ∪ dom E0)); [|done].
  set_solver.
Qed.

Lemma shared_run_refl (s : state) (E : gmap string value) (K : gset string) :
  st_heap s !! g = Some dg -> st_heap s !! lv = Some E -> K ⊆ dom E -> shared_run K s s.
Proof.
  intros Hg Hlv HK. exists [], E. rewrite app_nil_r.
  split_and!; [done|done|done|unfold written; simpl; set_solver|by apply seen_unseen].
Qed.

Lemma run_documents_shared in_file docs passed (E0 : gmap string value) (s : state) :
  st_heap s !! g = Some dg -> st_heap s !! lv = Some E0 ->
  shared_run (dom E0) s (run_documents in_file g docs passed s).2.
Proof.
  revert passed E0 s. induction docs as [|doc docs IH]; intros passed E0 s Hg Hlv.
  { by apply (shared_run_refl _ E0). }
  assert (Hskip : forall msg,
    shared_run (dom E0) s (run_documents in_file g docs passed (log s [LogWarning msg])).2).
  { intros msg. apply (shared_run_trans _ _ (log s [LogWarning msg])).
    - by apply (shared_run_log _ _ E0).
    - intros E1 HE1. by apply IH. }
  simpl. destruct doc as [spec|]; [destruct (truthy (Some spec)) eqn:Htruthy|];
    try (unfold warning; rewrite (bind_run_Return _ _ _ _ _ (emit_run _ _)); by apply Hskip).
  set (s1 := log s [VerifyTests spec]).
  assert (Hs1 : shared_run (dom E0) s s1) by by apply (shared_run_log _ _ E0).
  assert (Hvalid : try_except BadSchemaError (call_verify_tests spec) s =
    match verify_tests spec with
    | None => (Return true, s1)
    | Some e => if isinstance e BadSchemaError then (Return false, s1) else (Raise e, s1)
    end).
  { unfold try_except, call_verify_tests. unfold bind at 1. rewrite emit_run. fold s1.
    by destruct (verify_tests spec). }
  destruct (verify_tests spec) as [e|].
  - destruct (isinstance e BadSchemaError).
    + rewrite (bind_run_Return _ _ _ _ _ Hvalid).
      apply (shared_run_trans _ _ s1); [done|]. intros E1 HE1. by apply IH.
    + by rewrite (bind_run_Raise _ _ _ _ _ Hvalid).
  - rewrite (bind_run_Return _ _ _ _ _ Hvalid).
    apply (shared_run_trans _ _ s1); [done|]. intros E1 HE1.
    pose proof (run_test_shared in_file (Some spec) E1 s1 Hg HE1) as Ht.
    assert (Hg2 : st_heap (run_test in_file (Some spec) g s1).2 !! g = Some dg).
    { by destruct Ht as (? & ? & ? & ? & ?). }
    unfold bind at 1. unfold try_except.
    destruct (run_test in_file (Some spec) g s1) as [[[]|e] s2]; simpl in *.
    + apply (shared_run_trans _ _ s2); [done|]. intros E2 HE2. by apply IH.
    + destruct (isinstance e TestFailError); [|done].
      apply (shared_run_trans _ _ s2); [done|]. intros E2 HE2. by apply IH.
Qed.

End File.

Section FileTheorem.
Context `{Builtins} `{Collaborators}.

(** C9: when the global configuration [g] has a ["variables"] mapping, the
    object [lv], every dispatcher and verifier call of every document of the
    file receives a configuration whose ["variables"] is that same object,
    and finds in it the tavern entry, the variables that were there before
    the file was run, and every name written earlier in the file, by an
    include or by a verifier of any document; they are all in the global
    variables when [run] ends, and the global configuration still points to
    them. *)
Theorem C9_variables_shared in_file g lv dg E0 docs s :
  g <> lv -> st_heap s !! g = Some dg -> dg !! "variables" = Some (VRef lv) ->
  st_heap s !! lv = Some E0 ->
  exists tr E',
    trace (run in_file g docs s).2 = trace s ++ tr /\
    st_heap (run in_file g docs s).2 !! g = Some dg /\
    st_heap (run in_file g docs s).2 !! lv = Some E' /\
    dom E0 ∪ written tr ⊆ dom E' /\
    forall pre e post cfg h,
      tr = pre ++ e :: post -> snapshot e = Some (cfg, h) ->
      h !! cfg ≫= (.!! "variables") = Some (VRef lv) /\
      exists E, h !! lv = Some E /\ "tavern" ∈ dom E /\ dom E0 ∪ written pre ⊆ dom E.
Proof.
  intros Hglv Hg Hdg Hlv.
  exact (run_documents_shared g lv dg Hglv Hdg in_file docs true E0 s Hg Hlv).
Qed.

End FileTheorem.


Section SharedExamples.
Import World.

Definition including_document : document :=
  Some (TestSpec (Some [Included (Some {[ "user" := VData "alice" ]})]) (Some "ping")
          (Some [stage_ok])).

(** Two documents: the request of the second one is resolved with the
    variables the first one wrote. *)
Lemma C9_variables_shared_witness :
  let docs := [including_document; passing_document] in
  let tr := trace (run "f.yaml" 1 docs global_state).2 in
  (1 <> 2)%positive /\
  global_heap !! 1%positive = Some {[ "variables" := VRef 2%positive ]} /\
  global_heap !! 2%positive = Some {[ "host" := VData "localhost" ]} /\
  tr !! 19%nat = Some (GetRequestType stage_ok 6 (heap_at tr 19)) /\
  heap_at tr 19 !! 6%positive ≫= (.!! "variables") = Some (VRef 2%positive) /\
  (exists E, heap_at tr 19 !! 2%positive = Some E /\
     "tavern" ∈ dom E /\ "host" ∈ dom E /\ "user" ∈ dom E /\ "token" ∈ dom E) /\
  st_heap (run "f.yaml" 1 docs global_state).2 !! 1%positive =
    Some {[ "variables" := VRef 2%positive ]}.
Proof.
  intros docs tr.
  assert (Hg : global_heap !! 1%positive = Some {[ "variables" := VRef 2%positive ]})
    by reflexivity.
  assert (Hlv : global_heap !! 2%positive = Some {[ "host" := VData "localhost" ]})
    by reflexivity.
  assert (Hne : (1 <> 2)%positive) by discriminate.
  destruct (C9_variables_shared "f.yaml" 1 2 _ _ docs global_state Hne Hg eq_refl Hlv)
    as (tr' & E' & Htr & Hg' & Hlv' & Hsub & Hseen).
  assert (Htr' : tr = tr') by exact Htr. subst tr'.
  assert (H19 : tr !! 19%nat = Some (GetRequestType stage_ok 6 (heap_at tr 19)))
    by (vm_compute; reflexivity).
  destruct (Hseen _ _ _ 6%positive (heap_at tr 19) (cut_at tr 19 _ H19) eq_refl)
    as (Ha & E & HE & Htav & Hpre).
  assert (Huser : "user" ∈ written (take 19 tr))
    by (apply (bool_decide_unpack _); vm_compute; exact I).
  assert (Htoken : "token" ∈ written (take 19 tr))
    by (apply (bool_decide_unpack _); vm_compute; exact I).
  split_and!; [exact Hne|exact Hg|exact Hlv|exact H19|exact Ha| |exact Hg'].
  exists E. split_and!; [exact HE|exact Htav| | |].
  - apply Hpre, elem_of_union_l. rewrite dom_singleton_L. by apply elem_of_singleton.
  - apply Hpre, elem_of_union_r, Huser.
  - apply Hpre, elem_of_union_r, Htoken.
Defined.

(** A test with sessions, and one whose second session cannot be opened:
    the sessions entered are left, last first, in both. *)
Lemma sessions_released_example :
  let ok := run_test "f.yaml" (Some (TestSpec None (Some "sessions") (Some [stage_ok]))) 1
              global_state in
  let broken := run_test "f.yaml" (Some (TestSpec None (Some "broken sessions")
                                            (Some [stage_ok]))) 1 global_state in
  (ok.1 = Return tt /\ acquired (trace ok.2) = [1; 2]%nat /\
   released (trace ok.2) = [2; 1]%nat) /\
  (broken.1 = Raise (Exn (OtherBuiltin "ConnectionRefusedError") "session 13") /\
   acquired (trace broken.2) = [1%nat] /\ released (trace broken.2) = [1%nat] /\
   last (trace broken.2) = Some (ExitContext 1%nat
     (Some (Exn (OtherBuiltin "ConnectionRefusedError") "session 13")))).
Proof. split_and!; vm_compute; reflexivity. Qed.

End SharedExamples.


(** * Further properties *)

(** ** The dumps of the diagnostics *)

Lemma concat_app (sep : string) (l1 l2 : list string) :
  l1 <> [] -> l2 <> [] ->
  String.concat sep (l1 ++ l2) = String.concat sep l1 +:+ sep +:+ String.concat sep l2.
Proof.
  intros Hl1 Hl2. induction l1 as [|x l1 IH]; [done|]. clear Hl1.
  destruct l1 as [|y l1].
  - simpl. by destruct l2.
  - change (String.concat sep ((x :: y :: l1) ++ l2))
      with (x +:+ sep +:+ String.concat sep ((y :: l1) ++ l2)).
    rewrite IH by done.
    change (String.concat sep (x :: y :: l1)) with (x +:+ sep +:+ String.concat sep (y :: l1)).
    by rewrite !string_app_assoc.
Qed.

Section Dumps.
Context `{Builtins}.

(** [format_dict] of a mapping is the dump of its first keys, a newline,
    and the dump of the other keys. *)
Theorem format_dict_app (d1 d2 : list (string * string)) :
  d1 <> [] -> d2 <> [] ->
  format_dict (d1 ++ d2) = format_dict d1 +:+ nl +:+ format_dict d2.
Proof.
  intros Hd1 Hd2. unfold format_dict. rewrite map_app.
  apply concat_app; by destruct d1, d2.
Qed.

(** Every item of the mapping is in the dump, as ["key: value"]. *)
Theorem format_dict_entries (data : list (string * string)) (k v : string) :
  (k, v) ∈ data -> occurs (k +:+ ": " +:+ v) (format_dict data).
Proof.
  intros Hin. unfold format_dict. apply occurs_concat.
  apply (list_elem_of_fmap_2 (fun kv => fst kv +:+ ": " +:+ snd kv) data (k, v) Hin).
Qed.

(** [format_request] raises exactly when the request has a body that is not
    empty and does not decode; the error is the one of the decoding. *)
Theorem format_request_raises (rq : request) (e : exn) :
  format_request rq = Raise e <->
  exists b, body rq = Some b /\ b <> [] /\ bytes_decode b = Raise e.
Proof.
  unfold format_request. destruct (body rq) as [[|x b]|]; simpl.
  - split; [done|]. by intros (b & [= <-] & Hb & _).
  - destruct (bytes_decode (x :: b)) as [t|e'] eqn:Hdec.
    + split; [done|]. intros (b' & [= <-] & _ & Hb'). congruence.
    + split.
      * intros [= ->]. by exists (x :: b).
      * intros (b' & [= <-] & _ & Hb'). congruence.
  - split; [done|]. by intros (b & [=] & _).
Qed.

(** The dump of a request starts with the request line and the headers;
    nothing follows them exactly when the body is absent or empty. *)
Theorem format_request_shape (rq : request) (m : string) :
  format_request rq = Return m ->
  exists rest,
    m = method rq +:+ " " +:+ url rq +:+ nl +:+ format_dict (request_headers rq) +:+ rest /\
    (rest = "" <-> body_truthy (body rq) = false).
Proof.
  unfold format_request. destruct (body_truthy (body rq)).
  - destruct (bytes_decode (default [] (body rq))) as [t|e]; [|done].
    intros [= <-]. exists (nl +:+ nl +:+ t). split; [by rewrite !string_app_assoc|done].
  - intros [= <-]. exists "". split; [|done].
    by rewrite !string_app_assoc, string_app_nil_r.
Qed.

Ltac occurs_field :=
  repeat first [ apply occurs_here | apply occurs_app_l, occurs_here | apply occurs_app_r ].

(** Every field of the failure message is in it as it is, the name in its
    [repr] form. *)
Theorem assertion_message_fields (name file errs stg req resp : string) :
  let msg := assertion_message name file errs stg req resp in
  occurs (py_repr name) msg /\ occurs file msg /\ occurs errs msg /\
  occurs stg msg /\ occurs req msg /\ occurs resp msg.
Proof.
  intros msg. subst msg. unfold assertion_message. split_and!.
  - apply occurs_app_r. occurs_field.
  - do 3 apply occurs_app_r. occurs_field.
  - do 7 apply occurs_app_r. occurs_field.
  - do 11 apply occurs_app_r. occurs_field.
  - do 14 apply occurs_app_r. occurs_field.
  - do 18 apply occurs_app_r. occurs_field.
Qed.

(** The errors of a verifier are joined one per line, each after ["- "]. *)
Theorem join_errors_lines (errs : list string) :
  errs <> [] ->
  join_errors errs = String.concat nl (map (fun e => "- " +:+ e) errs).
Proof.
  intros Herrs. unfold join_errors. induction errs as [|e errs IH]; [done|]. clear Herrs.
  destruct errs as [|e' errs]; [done|].
  change (String.concat (nl +:+ "- ") (e :: e' :: errs))
    with (e +:+ (nl +:+ "- ") +:+ String.concat (nl +:+ "- ") (e' :: errs)).
  change (String.concat nl (map (fun e => "- " +:+ e) (e :: e' :: errs)))
    with (("- " +:+ e) +:+ nl +:+ String.concat nl (map (fun e => "- " +:+ e) (e' :: errs))).
  rewrite <- IH by done. by rewrite !string_app_assoc.
Qed.

End Dumps.

Section DumpExamples.
Import World.

Lemma format_dict_app_witness :
  format_dict ([("Accept", "*/*")] ++ [("Host", "localhost")]) =
    format_dict [("Accept", "*/*")] +:+ nl +:+ format_dict [("Host", "localhost")].
Proof. apply format_dict_app; discriminate. Defined.

Lemma format_dict_entries_witness :
  occurs ("Host" +:+ ": " +:+ "localhost")
    (format_dict [("Accept", "*/*"); ("Host", "localhost")]).
Proof.
  apply format_dict_entries. apply list_elem_of_further, list_elem_of_here.
Defined.

Lemma format_request_shape_witness :
  exists rest,
    "GET http://localhost/ping" +:+ nl +:+ "Accept: */*" =
      method example_request +:+ " " +:+ url example_request +:+ nl +:+
      format_dict (request_headers example_request) +:+ rest /\
    (rest = "" <-> body_truthy (body example_request) = false).
Proof. apply format_request_shape. reflexivity. Defined.

Lemma join_errors_lines_witness :
  join_errors ["status code 500 != 200"; "missing key"] =
    String.concat nl (map (fun e => "- " +:+ e) ["status code 500 != 200"; "missing key"]).
Proof. apply join_errors_lines. discriminate. Defined.

End DumpExamples.


(** ** The documents of a file *)


Section Documents.
Context `{Builtins} `{Collaborators}.

(** Lines 197-211: the body of the loop of [run], for one document;
    the result is the new value of [passed]. *)
Definition run_document (in_file : string) (global_cfg : loc) (doc : document)
    (passed : bool) : M bool :=
  match doc with
  | Some test_spec =>
      if truthy doc then
        let! valid := try_except BadSchemaError (call_verify_tests test_spec) in
        if valid then
          let! ok := try_except TestFailError (run_test in_file doc global_cfg) in
          ret (if ok then passed else false)
        else ret false
      else
        warning ("Empty document in input file '" +:+ in_file +:+ "'") ;; ret passed
  | None =>
      warning ("Empty document in input file '" +:+ in_file +:+ "'") ;; ret passed
  end.

Lemma bind_assoc {A B C} (m : M A) (k1 : A -> M B) (k2 : B -> M C) (s : state) :
  bind (bind m k1) k2 s = bind m (fun a => bind (k1 a) k2) s.
Proof. unfold bind. by destruct (m s) as [[a|e] s1]. Qed.

Lemma bind_ext {A B} (m : M A) (k1 k2 : A -> M B) (s : state) :
  (forall a s', k1 a s' = k2 a s') -> bind m k1 s = bind m k2 s.
Proof. intros Hk. unfold bind. destruct (m s) as [[a|e] s1]; [apply Hk|done]. Qed.

Lemma bind_run_eq {A B} (m1 m2 : M A) (k : A -> M B) (s : state) :
  m1 s = m2 s -> bind m1 k s = bind m2 k s.
Proof. unfold bind. by intros ->. Qed.

Lemma run_documents_cons in_file g doc docs passed s :
  run_documents in_file g (doc :: docs) passed s =
    bind (run_document in_file g doc passed) (run_documents in_file g docs) s.
Proof.
  simpl. unfold run_document. destruct doc as [spec|]; [destruct (truthy (Some spec))|];
    rewrite ?bind_assoc; try done.
  apply bind_ext. intros [] s1; cbv beta iota; [|done]. rewrite bind_assoc. by apply bind_ext.
Qed.

Lemma run_document_passed in_file g doc passed s :
  run_document in_file g doc passed s =
    (match (run_document in_file g doc true s).1 with
     | Return b => Return (b && passed)
     | Raise e => Raise e
     end, (run_document in_file g doc true s).2).
Proof.
  unfold run_document. destruct doc as [spec|]; [destruct (truthy (Some spec))|]; try done.
  unfold bind at 1 3 5.
  destruct (try_except BadSchemaError (call_verify_tests spec) s) as [[[]|e] s1]; try done.
  unfold bind.
  by destruct (try_except TestFailError (run_test in_file (Some spec) g) s1) as [[[]|e] s2].
Qed.

Lemma run_documents_passed in_file g docs passed s :
  run_documents in_file g docs passed s =
    (match (run_documents in_file g docs true s).1 with
     | Return b => Return (b && passed)
     | Raise e => Raise e
     end, (run_documents in_file g docs true s).2).
Proof.
  revert passed s. induction docs as [|doc docs IH]; intros passed s; [done|].
  rewrite !run_documents_cons. unfold bind. rewrite (run_document_passed in_file g doc passed s).
  destruct (run_document in_file g doc true s) as [[b|e] s1]; simpl; [|done].
  rewrite (IH (b && passed) s1), (IH b s1).
  destruct (run_documents in_file g docs true s1) as [[b'|e'] s2]; simpl; [|done].
  by rewrite andb_assoc.
Qed.

(** Running a file is running its first documents, then the others with the
    verdict and the state the first ones left; an exception ends the run. *)
Theorem run_documents_app in_file g docs1 docs2 passed s :
  run_documents in_file g (docs1 ++ docs2) passed s =
    bind (run_documents in_file g docs1 passed) (run_documents in_file g docs2) s.
Proof.
  revert passed s. induction docs1 as [|doc docs1 IH]; intros passed s; [done|].
  change ((doc :: docs1) ++ docs2) with (doc :: (docs1 ++ docs2)).
  rewrite run_documents_cons.
  rewrite (bind_run_eq _ _ _ _ (run_documents_cons in_file g doc docs1 passed s)), bind_assoc.
  apply bind_ext. intros b s1. apply IH.
Qed.

(** A failure recorded earlier changes nothing of what the later documents
    do: with [passed] false the loop makes the same calls, ends in the same
    state and raises the same exception as with [passed] true; only the
    verdict it returns is false. *)
Theorem run_documents_after_failure in_file g docs s :
  run_documents in_file g docs false s =
    (match (run in_file g docs s).1 with
     | Return _ => Return false
     | Raise e => Raise e
     end, (run in_file g docs s).2).
Proof.
  unfold run. rewrite (run_documents_passed in_file g docs false s).
  destruct (run_documents in_file g docs true s) as [[b|e] s1]; simpl; [|done].
  by rewrite andb_false_r.
Qed.


(** The events of [run_test] on a document that is not empty. *)
Lemma emits_run_test in_file spec g :
  truthy (Some spec) = true -> emits test_event (run_test in_file (Some spec) g).
Proof.
  intros Htruthy. unfold run_test. rewrite Htruthy.
  apply emits_bind; [apply emits_silent, silent_init_test_block_config|]. intros [c b].
  apply emits_run_test_spec.
Qed.






(** The only warning [run] logs is the one of line 198: the warning of
    [run_test] for an empty test (line 92) is never reached from [run]. *)
Theorem run_warnings in_file g docs s :
  exists tr, trace (run in_file g docs s).2 = trace s ++ tr /\
    forall msg, LogWarning msg ∈ tr ->
      msg = "Empty document in input file '" +:+ in_file +:+ "'".
Proof.
  set (P := fun e => match e with
                     | LogWarning msg => msg = "Empty document in input file '" +:+ in_file +:+ "'"
                     | _ => True
                     end).
  assert (Hdoc : forall doc passed, emits P (run_document in_file g doc passed)).
  { intros doc passed. unfold run_document.
    assert (Hwarn : emits P (warning ("Empty document in input file '" +:+ in_file +:+ "'") ;;
                             ret passed)).
    { apply emits_bind; [by apply emits_emit|]. intros _. apply emits_silent, silent_ret. }
    destruct doc as [spec|]; [destruct (truthy (Some spec)) eqn:Htruthy|]; try apply Hwarn.
    apply emits_bind.
    { apply emits_try_except, emits_bind; [by apply emits_emit|]. intros _.
      apply emits_lift_check. }
    intros []; [|apply emits_silent, silent_ret].
    apply emits_bind; [|intros; apply emits_silent, silent_ret].
    apply emits_try_except, (emits_mono test_event); [by intros []|].
    by apply emits_run_test. }
  assert (Hall : forall passed, emits P (run_documents in_file g docs passed)).
  { induction docs as [|doc docs IH]; intros passed; [apply emits_silent, silent_ret|].
    intros s'. rewrite run_documents_cons. revert s'. by apply emits_bind. }
  destruct (Hall true s) as (tr & Htr & HP). exists tr. split; [done|].
  intros msg Hin. rewrite Forall_forall in HP. exact (HP _ Hin).
Qed.

End Documents.

Section DocumentExamples.
Import World.



End DocumentExamples.


(** ** The objects a test starts with *)

Section Objects.
Context `{Builtins} `{Collaborators}.


(** Lines 80-89 when the global configuration has no variables. *)
Lemma init_fresh_run (g : loc) (dg : gmap string value) (h : heap)
    (cbs : list session) (tr : list event) :
  h !! g = Some dg -> dg !! "variables" = None ->
  exists c lv e b,
    (h !! c = None /\ h !! lv = None /\ h !! e = None /\ h !! b = None) /\
    (c <> lv /\ c <> e /\ c <> b /\ lv <> e /\ lv <> b /\ e <> b) /\
    init_test_block_config g (State h cbs tr) =
      (Return (c, b),
       State (<[lv := {[ "tavern" := VRef b ]}]>
                (<[b := {[ "env_vars" := VRef e ]}]>
                   (<[e := os_environ]>
                      (<[c := <["variables" := VRef lv]> dg]> h)))) cbs tr).
Proof.
  intros Hg Hnone. unfold init_test_block_config.
  rewrite (bind_run_Return _ _ _ _ _ (dict_copy_run _ _ _ _ _ Hg)). simpl.
  set (c := fresh (dom h)).
  assert (Hc : h !! c = None) by apply fresh_lookup.
  set (h1 := <[c := dg]> h).
  assert (Hc1 : h1 !! c = Some dg) by apply lookup_insert_eq.
  rewrite (bind_run_Return _ _ _ _ _ (contains_run _ "variables" _ _ _ _ Hc1)).
  rewrite Hnone. rewrite bool_decide_eq_false_2 by (by intros [? ?]).
  unfold bind at 1. unfold bind at 1. rewrite alloc_run. simpl.
  set (lv := fresh (dom h1)).
  assert (Hlv1 : h1 !! lv = None) by apply fresh_lookup.
  assert (Hlvc : lv <> c) by (intros E; rewrite E in Hlv1; congruence).
  set (h2 := <[lv := ∅]> h1).
  assert (Hc2 : h2 !! c = Some dg) by (subst h2; by rewrite lookup_insert_ne).
  rewrite (setitem_run _ _ _ _ _ _ _ Hc2). simpl.
  set (h3 := <[c := <["variables" := VRef lv]> dg]> h2).
  unfold bind at 1. rewrite alloc_run. simpl.
  set (e := fresh (dom h3)).
  assert (He : h3 !! e = None) by apply fresh_lookup.
  set (h4 := <[e := os_environ]> h3).
  unfold bind at 1. rewrite alloc_run. simpl. fold h4.
  set (b := fresh (dom h4)).
  assert (Hb : h4 !! b = None) by apply fresh_lookup.
  set (h5 := <[b := {[ "env_vars" := VRef e ]}]> h4).
  assert (Hec : e <> c) by (intros E; rewrite E in He; subst h3;
                            by rewrite lookup_insert_eq in He).
  assert (Helv : e <> lv).
  { intros E. rewrite E in He. subst h3 h2.
    rewrite lookup_insert_ne in He by done. by rewrite lookup_insert_eq in He. }
  assert (Hbe : b <> e) by (intros E; rewrite E in Hb; subst h4;
                            by rewrite lookup_insert_eq in Hb).
  assert (Hbc : b <> c).
  { intros E. rewrite E in Hb. subst h4 h3.
    rewrite lookup_insert_ne in Hb by done. by rewrite lookup_insert_eq in Hb. }
  assert (Hblv : b <> lv).
  { intros E. rewrite E in Hb. subst h4 h3 h2.
    rewrite (lookup_insert_ne _ e lv), (lookup_insert_ne _ c lv) in Hb by done.
    by rewrite lookup_insert_eq in Hb. }
  assert (Hbh : h !! b = None).
  { subst h4 h3 h2 h1. rewrite !lookup_insert_ne in Hb by done. done. }
  assert (Heh : h !! e = None).
  { subst h3 h2 h1. rewrite !lookup_insert_ne in He by done. done. }
  assert (Hlvh : h !! lv = None).
  { subst h1. rewrite lookup_insert_ne in Hlv1 by done. done. }
  assert (Hc5 : h5 !! c = Some (<["variables" := VRef lv]> dg)).
  { subst h5 h4 h3. heap_lookup. }
  assert (Hlv5 : h5 !! lv = Some ∅).
  { subst h5 h4 h3 h2. heap_lookup. }
  erewrite (bind_run_Return _ _ _ _ _ (getitem_run _ "variables" _ (VRef lv) _ _ _ Hc5 _)).
  Unshelve. 2: by rewrite lookup_insert_eq.
  rewrite (bind_run_Return _ _ _ _ _ (as_mapping_run _ _ _ _ _ Hlv5)).
  unfold bind at 1. rewrite (setitem_run _ _ _ _ _ _ _ Hlv5). simpl.
  exists c, lv, e, b. split_and!; try done. do 2 f_equal.
  apply map_eq. intros l. subst h5 h4 h3 h2 h1.
  rewrite !lookup_insert. repeat case_decide; first [done|congruence].
Qed.

(** With a global configuration that has no variables, [run_test] writes to
    no object of the caller: the variables of the test are its own. *)
Lemma run_test_fresh_frame in_file doc (g : loc) (dg : gmap string value) (s : state) :
  st_heap s !! g = Some dg -> dg !! "variables" = None ->
  forall l, is_Some (st_heap s !! l) ->
    st_heap (run_test in_file doc g s).2 !! l = st_heap s !! l.
Proof.
  intros Hg Hnone l [d Hl]. destruct s as [h cbs tr]. simpl in *.
  destruct (init_fresh_run g dg h cbs tr Hg Hnone)
    as (c & lv & e & b & (Hc & Hlv & He & Hb) & (Hclv & Hce & Hcb & Hlve & Hlvb & Heb) & Hinit).
  unfold run_test. rewrite (bind_run_Return _ _ _ _ _ Hinit). simpl.
  set (h' := <[lv := {[ "tavern" := VRef b ]}]> _).
  assert (Hh' : h' !! l = h !! l).
  { subst h'. rewrite !lookup_insert_ne; [done|..]; intros <-; congruence. }
  destruct doc as [spec|]; [destruct (truthy (Some spec))|]; try exact Hh'.
  rewrite <- Hh'. apply (confined_run_test_spec c lv b); [done|done| | |].
  - exists (<["variables" := VRef lv]> dg). simpl. subst h'.
    rewrite !lookup_insert_ne by done. rewrite lookup_insert_eq. split; [done|].
    by rewrite lookup_insert_eq.
  - intros ->. congruence.
  - intros ->. congruence.
Qed.



End Objects.

Section ObjectExamples.
Import World.



End ObjectExamples.


(** ** Stages and sessions *)

Section Edges.
Context `{Builtins} `{Collaborators}.

(** A stage makes the calls of lines 114-162 and no other, and leaves the
    exit stack as it is: it logs no warning, validates nothing, checks no
    include, enters and leaves no session. *)
Theorem run_stage_footprint in_file cfg box sessions st s :
  exists tr,
    trace (run_stage in_file cfg box sessions st s).2 = trace s ++ tr /\
    Forall stage_event tr /\
    exit_callbacks (run_stage in_file cfg box sessions st s).2 = exit_callbacks s.
Proof.
  destruct (emits_run_stage in_file cfg box sessions st s) as (tr & Htr & Hall).
  destruct (calm_run_stage in_file cfg box sessions st s) as (tr' & _ & _ & Hc).
  by exists tr.
Qed.

(** The sessions that are entered: those before the first one whose entry
    raises. *)
Fixpoint entered (cms : list session) : list session :=
  match cms with
  | [] => []
  | cm :: cms' =>
      match session_enter cm with
      | None => cm :: entered cms'
      | Some _ => []
      end
  end.

Lemma debug_run (msg : string) (s : state) : debug msg s = (Return tt, log s [LogDebug msg]).
Proof. reflexivity. Qed.

Lemma enter_context_run (cm : session) (s : state) :
  enter_context cm s =
    match session_enter cm with
    | Some e => (Raise e, log s [EnterContext cm false])
    | None => (Return tt, State (st_heap s) (cm :: exit_callbacks s)
                            (trace s ++ [EnterContext cm true]))
    end.
Proof. unfold enter_context. by destruct (session_enter cm). Qed.

Lemma sessions_loop_acquired (sess : list (string * session)) (s : state) :
  exists tr,
    trace (for_each sess (fun ns => debug ("Entering context for " +:+ fst ns) ;;
                                    enter_context (snd ns)) s).2 = trace s ++ tr /\
    acquired tr = entered (snd <$> sess).
Proof.
  revert s. induction sess as [|[n cm] sess IH]; intros s.
  { exists []. by rewrite app_nil_r. }
  simpl. rewrite bind_assoc, (bind_run_Return _ _ _ _ _ (debug_run _ _)).
  unfold bind at 1. rewrite enter_context_run.
  destruct (session_enter cm) as [e|].
  - exists [LogDebug ("Entering context for " +:+ n); EnterContext cm false].
    unfold log. simpl. by rewrite <- app_assoc.
  - match goal with |- context [for_each sess ?f ?s1] => destruct (IH s1) as (tr & Htr & Hacq) end.
    exists ([LogDebug ("Entering context for " +:+ n); EnterContext cm true] ++ tr).
    rewrite acquired_app, Hacq. split; [|done].
    rewrite Htr. simpl. by rewrite <- !app_assoc.
Qed.

Lemma test_body_acquired in_file spec c b sess s :
  get_extra_sessions spec = Return sess ->
  exists tr, trace (test_body in_file spec c b s).2 = trace s ++ tr /\
    acquired tr = entered (snd <$> sess).
Proof.
  intros Hsess. unfold test_body, call_get_extra_sessions.
  rewrite bind_assoc, (bind_run_Return _ _ _ _ _ (emit_run _ _)).
  unfold lift at 1. rewrite Hsess. unfold bind at 1.
  set (s1 := log s [GetExtraSessions spec]).
  destruct (sessions_loop_acquired sess s1) as (tr1 & Htr1 & Hacq1).
  assert (Hrest : calm (let! sts := match stages spec with
                                    | Some l => ret l
                                    | None => key_error "stages"
                                    end in
                        for_each sts (run_stage in_file c b sess))).
  { apply calm_bind.
    - destruct (stages spec); apply calm_silent; [apply silent_ret|apply silent_raise].
    - intros sts. apply calm_for_each. intros st. apply calm_run_stage. }
  unfold bind at 1.
  destruct (for_each sess _ s1) as [[[]|e] s2]; simpl in *.
  - destruct (Hrest s2) as (tr2 & Htr2 & Hall2 & _).
    destruct (sessionless_acquired tr2 Hall2) as [Hacq2 _].
    exists (GetExtraSessions spec :: tr1 ++ tr2). split.
    + rewrite Htr2, Htr1. by rewrite <- !app_assoc.
    + change (GetExtraSessions spec :: tr1 ++ tr2) with ([GetExtraSessions spec] ++ tr1 ++ tr2).
      by rewrite !acquired_app, Hacq1, Hacq2, app_nil_r.
  - exists (GetExtraSessions spec :: tr1). split.
    + rewrite Htr1. by rewrite <- !app_assoc.
    + change (GetExtraSessions spec :: tr1) with ([GetExtraSessions spec] ++ tr1).
      by rewrite acquired_app, Hacq1.
Qed.

Lemma exits_sessions (cbs : list session) (excs : list (option exn)) :
  List.length excs = List.length cbs ->
  released (zip_with ExitContext cbs excs) = cbs /\
  acquired (zip_with ExitContext cbs excs) = [].
Proof.
  revert excs. induction cbs as [|cb cbs IH]; intros [|exc excs] Hlen; try done.
  injection Hlen as Hlen. destruct (IH excs Hlen) as [IHr IHa].
  change (zip_with ExitContext (cb :: cbs) (exc :: excs))
    with ([ExitContext cb exc] ++ zip_with ExitContext cbs excs).
  by rewrite released_app, acquired_app, IHr, IHa.
Qed.

(** The sessions of a test are entered in the order in which
    [get_extra_sessions] gives them, up to the first one whose entry
    raises, and those that were entered are left in the reverse order. *)
Theorem sessions_entered_and_left in_file spec c b sess s :
  get_extra_sessions spec = Return sess ->
  exists tr,
    trace (with_ExitStack (test_body in_file spec c b) s).2 = trace s ++ tr /\
    acquired tr = entered (snd <$> sess) /\
    released tr = rev (entered (snd <$> sess)).
Proof.
  intros Hsess.
  destruct (with_ExitStack_run (test_body in_file spec c b) s) as (excs & Hlen & _ & _ & Ht).
  set (s0 := State (st_heap s) [] (trace s)) in *.
  destruct (stacks_test_body in_file spec c b s0) as (tr & Htr & Hrel & Hcbs).
  destruct (test_body_acquired in_file spec c b sess s0 Hsess) as (tr' & Htr' & Hacq).
  rewrite Htr in Htr'. apply app_inv_head in Htr'. subst tr'.
  rewrite app_nil_r in Hcbs. rewrite Hcbs in Hlen, Ht.
  destruct (exits_sessions _ _ Hlen) as [Hr Ha].
  exists (tr ++ zip_with ExitContext (rev (acquired tr)) excs).
  rewrite Ht, Htr, acquired_app, released_app, Hr, Ha, Hrel, Hacq, app_nil_r.
  split_and!; [by rewrite <- app_assoc|done|done].
Qed.

(** The variables after the includes: each include is written over what
    was there. *)
Definition merged (E : gmap string value) (incs : list included) : gmap string value :=
  foldl (fun E vars => vars ∪ E) E (omap included_variables incs).

(** The includes whose checks pass are merged in their order, a later one
    over an earlier one, after one check each (lines 95-99). *)
Lemma for_each_merge_include (c lv : loc) (dc E : gmap string value) (incs : list included)
    (s : state) :
  c <> lv -> st_heap s !! c = Some dc -> dc !! "variables" = Some (VRef lv) ->
  st_heap s !! lv = Some E ->
  (forall vars, vars ∈ omap included_variables incs -> check_env_var_settings vars = None) ->
  for_each incs (merge_include c) s =
    (Return tt,
     State (<[lv := merged E incs]> (st_heap s)) (exit_callbacks s)
       (trace s ++ (CheckEnvVarSettings <$> omap included_variables incs))).
Proof.
  intros Hclv. revert E s. induction incs as [|inc incs IH]; intros E s Hc Hv Hlv Hchecks.
  { unfold merged. simpl. rewrite app_nil_r, insert_id by done. by destruct s. }
  simpl. unfold bind. rewrite merge_include_eq. unfold merged in *. simpl in *.
  destruct (included_variables inc) as [vars|]; simpl in *.
  - rewrite (Hchecks vars) by apply list_elem_of_here.
    assert (Hu : update_variables c vars (log s [CheckEnvVarSettings vars]) =
      (Return tt, State (<[lv := vars ∪ E]> (st_heap s)) (exit_callbacks s)
                    (trace s ++ [CheckEnvVarSettings vars]))).
    { exact (update_variables_run c lv vars E (log s [CheckEnvVarSettings vars])
               (ex_intro _ dc (conj Hc Hv)) Hlv). }
    rewrite Hu. rewrite (IH (vars ∪ E)); simpl.
    + by rewrite insert_insert_eq, <- app_assoc.
    + by rewrite lookup_insert_ne.
    + done.
    + by rewrite lookup_insert_eq.
    + intros vars' Hin. apply Hchecks. by apply list_elem_of_further.
  - by apply IH.
Qed.

Lemma merged_snoc (E : gmap string value) (incs : list included) (inc : included) :
  merged E (incs ++ [inc]) =
    match included_variables inc with
    | Some vars => vars ∪ merged E incs
    | None => merged E incs
    end.
Proof.
  unfold merged. rewrite omap_app. simpl.
  destruct (included_variables inc); simpl; [by rewrite foldl_snoc|by rewrite app_nil_r].
Qed.

(** After the includes (lines 95-99), a variable has the value the last
    include that names it gives it, and the value it had when no include
    names it. *)
Theorem includes_override (c lv : loc) (dc E : gmap string value) (incs : list included)
    (s : state) (k : string) :
  c <> lv -> st_heap s !! c = Some dc -> dc !! "variables" = Some (VRef lv) ->
  st_heap s !! lv = Some E ->
  (forall vars, vars ∈ omap included_variables incs -> check_env_var_settings vars = None) ->
  st_heap (for_each incs (merge_include c) s).2 !! lv ≫= (.!! k) =
    match last (omap (.!! k) (omap included_variables incs)) with
    | Some v => Some v
    | None => E !! k
    end.
Proof.
  intros Hclv Hc Hv Hlv Hchecks.
  rewrite (for_each_merge_include c lv dc E incs s Hclv Hc Hv Hlv Hchecks). simpl.
  rewrite lookup_insert_eq. simpl. clear Hchecks.
  induction incs as [|inc incs IH] using rev_ind; [done|].
  rewrite merged_snoc, !omap_app. simpl.
  destruct (included_variables inc) as [vars|]; simpl; [|by rewrite !app_nil_r].
  rewrite lookup_union. destruct (vars !! k) as [v|] eqn:Hk; simpl.
  - rewrite last_snoc. by destruct (merged E incs !! k).
  - rewrite app_nil_r, <- IH. by destruct (merged E incs !! k).
Qed.

(** An include whose check fails ends the test with the error of the
    check; the includes before it stay merged, its own variables and the
    later includes are not. *)
Theorem includes_stop_at_failed_check (c lv : loc) (dc E vars : gmap string value)
    (before after : list included) (inc : included) (e : exn) (s : state) :
  c <> lv -> st_heap s !! c = Some dc -> dc !! "variables" = Some (VRef lv) ->
  st_heap s !! lv = Some E ->
  (forall vars, vars ∈ omap included_variables before -> check_env_var_settings vars = None) ->
  included_variables inc = Some vars -> check_env_var_settings vars = Some e ->
  for_each (before ++ inc :: after) (merge_include c) s =
    (Raise e,
     State (<[lv := merged E before]> (st_heap s)) (exit_callbacks s)
       (trace s ++ (CheckEnvVarSettings <$> omap included_variables before) ++
        [CheckEnvVarSettings vars])).
Proof.
  intros Hclv Hc Hv Hlv Hchecks Hinc Hfail.
  rewrite (for_each_app _ _ _ _ _ (for_each_merge_include c lv dc E before s Hclv Hc Hv Hlv Hchecks)).
  simpl. unfold bind. rewrite merge_include_eq, Hinc, Hfail. unfold log. simpl.
  by rewrite <- app_assoc.
Qed.


Lemma unwind_plain (cbs : list session) exc pending suppressed tr :
  (forall cm exc, session_exit cm exc = ExitReturn false) ->
  unwind cbs exc pending suppressed tr =
    (exc, pending, suppressed, tr ++ ((fun cb => ExitContext cb exc) <$> cbs)).
Proof.
  intros Hexit. revert tr. induction cbs as [|cb cbs IH]; intros tr; simpl.
  - by rewrite app_nil_r.
  - rewrite Hexit, IH. by rewrite <- app_assoc.
Qed.

Lemma sessions_loop_entered (sess : list (string * session)) (s : state) :
  (forall ns, ns ∈ sess -> session_enter (snd ns) = None) ->
  for_each sess (fun ns => debug ("Entering context for " +:+ fst ns) ;;
                           enter_context (snd ns)) s =
    (Return tt,
     State (st_heap s) (rev (snd <$> sess) ++ exit_callbacks s)
       (trace s ++ List.concat ((fun ns => [LogDebug ("Entering context for " +:+ fst ns);
                                       EnterContext (snd ns) true]) <$> sess))).
Proof.
  revert s. induction sess as [|[n cm] sess IH]; intros s Hall.
  { simpl. rewrite app_nil_r. by destruct s. }
  simpl. rewrite bind_assoc, (bind_run_Return _ _ _ _ _ (debug_run _ _)).
  unfold bind at 1. rewrite enter_context_run.
  pose proof (Hall (n, cm) (list_elem_of_here _ _)) as Hcm. simpl in Hcm. rewrite Hcm.
  rewrite IH by (intros ns Hin; by apply Hall, list_elem_of_further).
  simpl. by rewrite <- !app_assoc.
Qed.

(** A test without stages ([KeyError] at line 113): the sessions are looked
    up and entered first, and left with the error, last first, before it
    propagates. *)
Theorem run_test_spec_missing_stages in_file spec c b n sess s :
  includes spec = None -> test_name spec = Some n -> stages spec = None ->
  get_extra_sessions spec = Return sess ->
  (forall ns, ns ∈ sess -> session_enter (snd ns) = None) ->
  (forall cm exc, session_exit cm exc = ExitReturn false) ->
  run_test_spec in_file spec c b s =
    (Raise (Exn KeyError "stages"),
     State (st_heap s) (exit_callbacks s)
       (trace s ++
        [LogInfo ("Running test : " +:+ n); GetExtraSessions spec] ++
        List.concat ((fun ns => [LogDebug ("Entering context for " +:+ fst ns);
                            EnterContext (snd ns) true]) <$> sess) ++
        ((fun cm => ExitContext cm (Some (Exn KeyError "stages"))) <$> rev (snd <$> sess)))).
Proof.
  intros Hinc Hname Hstages Hsess Henter Hexit.
  unfold run_test_spec. rewrite Hinc, Hname.
  rewrite (bind_run_Return (for_each _ _) _ s s tt) by reflexivity.
  rewrite (bind_run_Return _ _ s s n) by reflexivity.
  unfold info. rewrite (bind_run_Return _ _ _ _ _ (emit_run _ _)).
  set (s1 := log s [LogInfo ("Running test : " +:+ n)]).
  set (s0 := State (st_heap s1) [] (trace s1)).
  assert (Hbody : test_body in_file spec c b s0 =
    (Raise (Exn KeyError "stages"),
     State (st_heap s) (rev (snd <$> sess))
       (trace s1 ++ [GetExtraSessions spec] ++
        List.concat ((fun ns => [LogDebug ("Entering context for " +:+ fst ns);
                                 EnterContext (snd ns) true]) <$> sess)))).
  { unfold test_body, call_get_extra_sessions.
    rewrite bind_assoc, (bind_run_Return _ _ _ _ _ (emit_run _ _)). rewrite Hsess.
    rewrite (bind_run_Return (lift _) _ (log s0 [GetExtraSessions spec])
               (log s0 [GetExtraSessions spec]) sess) by reflexivity.
    rewrite (bind_run_Return _ _ _ _ _ (sessions_loop_entered sess _ Henter)).
    rewrite Hstages. simpl. by rewrite app_nil_r, <- app_assoc. }
  unfold with_ExitStack. fold s0. rewrite Hbody. cbv beta iota.
  rewrite (unwind_plain _ _ _ _ _ Hexit). simpl. by rewrite <- !app_assoc.
Qed.

(** When the body of the request does not decode, the failure of a verifier
    ends the stage with the decoding error instead of the [AssertionError]
    (lines 149-152): the failure is logged, no message is built. *)
Theorem verification_failure_undecodable (in_file : string) (st : stage) (cfg : loc)
    (exp : expected) (resp : response) (before : list verifier) (v : verifier)
    (after : list verifier) (s s1 : state) (rv : verify_result) (e : exn) :
  for_each before (run_verifier in_file st cfg exp resp) s = (Return tt, s1) ->
  verify v resp (st_heap s1) = Return rv ->
  errors rv <> [] ->
  format_request (response_request resp) = Raise e ->
  for_each (before ++ v :: after) (run_verifier in_file st cfg exp resp) s =
    (Raise e,
     State (st_heap s1) (exit_callbacks s1)
       (trace s1 ++ [Verify v resp cfg (st_heap s1);
                     LogFail st (Some (verifier_name v)) (Some exp)])).
Proof.
  intros Hbefore Hv Herr Hrq.
  rewrite (for_each_app _ _ _ _ _ Hbefore). simpl.
  unfold bind. rewrite run_verifier_run, Hv.
  destruct (errors rv) as [|e0 errs] eqn:He; [done|].
  unfold failure_exn. by rewrite Hrq.
Qed.

End Edges.

Section EdgeExamples.
Import World.

Definition broken_sessions_spec : test_spec :=
  TestSpec None (Some "broken sessions") (Some [stage_ok]).

Lemma sessions_entered_and_left_witness :
  exists tr,
    trace (with_ExitStack (test_body "f.yaml" broken_sessions_spec 3 5) stage_state).2 =
      trace stage_state ++ tr /\
    acquired tr = entered (snd <$> [("a", 1%nat); ("b", 13%nat)]) /\
    released tr = rev (entered (snd <$> [("a", 1%nat); ("b", 13%nat)])).
Proof. apply sessions_entered_and_left. reflexivity. Defined.

Definition user_include : included := Included (Some {[ "user" := VData "alice" ]}).
Definition host_include : included := Included (Some {[ "host" := VData "example.org" ]}).
Definition needy_include : included := Included (Some {[ "needs" := VData "TOKEN" ]}).

Lemma includes_override_witness :
  st_heap (for_each [host_include; user_include] (merge_include 3) stage_state).2
    !! 2%positive ≫= (.!! "host") =
    match last (omap (.!! "host") (omap included_variables [host_include; user_include])) with
    | Some v => Some v
    | None => ({[ "host" := VData "localhost"; "tavern" := VRef 5%positive ]}
                 : gmap string value) !! "host"
    end.
Proof.
  apply (includes_override 3 2 {[ "variables" := VRef 2%positive ]}); try reflexivity;
    [discriminate|].
  intros vars [->|[->|[]%elem_of_nil]%elem_of_cons]%elem_of_cons; reflexivity.
Defined.

Lemma includes_stop_at_failed_check_witness :
  for_each ([user_include] ++ needy_include :: [host_include]) (merge_include 3) stage_state =
    (Raise (Exn (OtherTavern "MissingSettingsError") "needs"),
     State (<[2%positive :=
               merged {[ "host" := VData "localhost"; "tavern" := VRef 5%positive ]}
                 [user_include]]> stage_heap) []
       (trace stage_state ++ (CheckEnvVarSettings <$> omap included_variables [user_include]) ++
        [CheckEnvVarSettings {[ "needs" := VData "TOKEN" ]}])).
Proof.
  apply (includes_stop_at_failed_check 3 2 {[ "variables" := VRef 2%positive ]});
    try reflexivity; [discriminate|].
  intros vars [->|[]%elem_of_nil]%elem_of_cons; reflexivity.
Defined.



Definition stageless_spec : test_spec := TestSpec None (Some "sessions") None.

Lemma run_test_spec_missing_stages_witness :
  run_test_spec "f.yaml" stageless_spec 3 5 stage_state =
    (Raise (Exn KeyError "stages"),
     State stage_heap []
       (trace stage_state ++
        [LogInfo ("Running test : " +:+ "sessions"); GetExtraSessions stageless_spec] ++
        List.concat ((fun ns => [LogDebug ("Entering context for " +:+ fst ns);
                                 EnterContext (snd ns) true]) <$>
                     [("a", 1%nat); ("b", 2%nat)]) ++
        ((fun cm => ExitContext cm (Some (Exn KeyError "stages"))) <$>
         rev (snd <$> [("a", 1%nat); ("b", 2%nat)])))).
Proof.
  apply (run_test_spec_missing_stages "f.yaml" stageless_spec 3 5 "sessions"
           [("a", 1%nat); ("b", 2%nat)] stage_state); try reflexivity.
  intros ns [->|[->|[]%elem_of_nil]%elem_of_cons]%elem_of_cons; reflexivity.
Defined.

Definition binary_request : request :=
  Request "POST" "http://localhost/upload" [] (Some [Byte.xff]).

Lemma verification_failure_undecodable_witness :
  let resp := Response 500 "Internal Server Error" [] "" binary_request in
  for_each ([] ++ status_verifier :: [token_verifier 3])
    (run_verifier "f.yaml" stage_500 3 "status 200" resp) stage_state =
    (Raise (Exn UnicodeDecodeError "'utf-8' codec can't decode bytes"),
     State stage_heap []
       (trace stage_state ++
        [Verify status_verifier resp 3 stage_heap;
         LogFail stage_500 (Some (verifier_name status_verifier)) (Some "status 200")])).
Proof.
  intros resp.
  apply (verification_failure_undecodable "f.yaml" stage_500 3 "status 200" resp
           [] status_verifier [token_verifier 3] stage_state stage_state
           (VerifyResult ["status code 500 != 200"] ∅)); [reflexivity|reflexivity| |reflexivity].
  discriminate.
Defined.

End EdgeExamples.


(** ** The tavern box *)

Section Box.
Context `{Builtins} `{Collaborators}.
Variables c lv b : loc.
Hypothesis Hclv : c <> lv.
Hypothesis Hblv : b <> lv.
Hypothesis Hbc : b <> c.
Variable k : string.
Hypothesis Hk : k <> "request_vars".

(** The entry [k] of the tavern box. *)
Definition box_item (h : heap) : option value := h !! b ≫= (.!! k).

(** A computation that writes to the variables and to the box only, and
    leaves the entry [k] of the box as it is. *)
Definition tidy {A} (f : M A) : Prop :=
  confined c lv b f /\
  forall s, points c lv (st_heap s) -> box_item (st_heap (f s).2) = box_item (st_heap s).

Lemma tidy_heapless {A} (f : M A) : heapless f -> tidy f.
Proof.
  intros Hf. split; [by apply confined_heapless|]. intros s _. by rewrite Hf.
Qed.

Lemma tidy_bind {A B} (f : M A) (g : A -> M B) :
  tidy f -> (forall a, tidy (g a)) -> tidy (bind f g).
Proof.
  intros [Hcf Hkf] Hg. split.
  { apply confined_bind; [done|done|done|]. intros a. by destruct (Hg a). }
  intros s Hp. pose proof (confined_points c lv b Hclv Hbc f s Hcf Hp) as Hp1.
  specialize (Hkf s Hp). unfold bind.
  destruct (f s) as [[a|e] s1]; simpl in *; [|done].
  destruct (Hg a) as [_ Hka]. by rewrite (Hka s1 Hp1).
Qed.

Lemma tidy_for_each {A} (l : list A) (body : A -> M unit) :
  (forall x, tidy (body x)) -> tidy (for_each l body).
Proof.
  intros Hb. induction l as [|x l IH]; simpl; [apply tidy_heapless, heapless_ret|].
  by apply tidy_bind.
Qed.

Lemma tidy_except_reraise {A} cls (f : M A) (handler : M unit) :
  tidy f -> tidy handler -> tidy (except_reraise cls f handler).
Proof.
  intros [Hcf Hkf] [Hch Hkh]. split; [by apply confined_except_reraise|].
  intros s Hp. pose proof (confined_points c lv b Hclv Hbc f s Hcf Hp) as Hp1.
  specialize (Hkf s Hp). unfold except_reraise.
  destruct (f s) as [[a|e] s1]; simpl in *; [done|].
  destruct (isinstance e cls); [|done].
  specialize (Hkh s1 Hp1). destruct (handler s1) as [[] s2]; simpl in *; congruence.
Qed.

Lemma tidy_setitem v : tidy (setitem b "request_vars" v).
Proof.
  split; [apply confined_setitem|]. intros s _. unfold box_item.
  destruct (setitem_cases b "request_vars" v s) as [(e & _ & ->)|(d & Hd & ->)]; [done|].
  simpl. rewrite lookup_insert_eq, Hd. simpl. by rewrite lookup_insert_ne.
Qed.

Lemma tidy_dict_pop : tidy (dict_pop b "request_vars").
Proof.
  split; [apply confined_dict_pop|]. intros s _. unfold box_item.
  destruct (dict_pop_cases b "request_vars" s) as [(e & _ & ->)|(d & v & Hd & _ & ->)]; [done|].
  simpl. rewrite lookup_insert_eq, Hd. simpl. by rewrite lookup_delete_ne.
Qed.

Lemma tidy_update_variables other : tidy (update_variables c other).
Proof.
  split; [by apply confined_update_variables|]. intros s (dc & Hc & Hv). unfold box_item.
  destruct (update_variables_cases c other s)
    as [(e & ->)|(dc' & l' & d & Hc' & Hv' & _ & ->)]; [done|].
  simpl. rewrite Hc in Hc'. injection Hc' as <-. rewrite Hv in Hv'. injection Hv' as <-.
  by rewrite lookup_insert_ne.
Qed.

Lemma tidy_with_ExitStack (body : M unit) : tidy body -> tidy (with_ExitStack body).
Proof.
  intros [Hcb Hkb]. split; [by apply confined_with_ExitStack|]. intros s Hp.
  destruct (with_ExitStack_run body s) as (excs & _ & -> & _).
  exact (Hkb (State (st_heap s) [] (trace s)) Hp).
Qed.

Ltac tidy_call :=
  repeat first
    [ apply tidy_setitem
    | apply tidy_dict_pop
    | apply tidy_update_variables
    | apply tidy_bind; [|intros ?]
    | apply tidy_heapless, heapless_get_heap
    | apply tidy_heapless, heapless_lift
    | apply tidy_heapless, heapless_raise
    | apply tidy_heapless, heapless_ret
    | apply tidy_heapless, heapless_lift_check
    | apply tidy_heapless, heapless_emit ].

Lemma tidy_run_verifier in_file st exp resp v :
  tidy (run_verifier in_file st c exp resp v).
Proof.
  unfold run_verifier, call_verify. apply tidy_bind; [tidy_call|]. intros r.
  destruct (errors r); [apply tidy_update_variables|].
  unfold log_fail, verification_failure. tidy_call.
Qed.

Lemma tidy_run_stage in_file sessions st : tidy (run_stage in_file c b sessions st).
Proof.
  unfold run_stage. apply tidy_bind.
  { destruct (stage_name st); apply tidy_heapless; [apply heapless_ret|apply heapless_raise]. }
  intros name. apply tidy_bind.
  { apply tidy_except_reraise; unfold call_get_request_type, log_fail; tidy_call. }
  intros r. apply tidy_bind; [unfold box_update; tidy_call|].
  intros _. apply tidy_bind.
  { apply tidy_except_reraise; unfold call_get_expected, log_fail; tidy_call. }
  intros exp. unfold delay, info. apply tidy_bind; [tidy_call|]. intros _.
  apply tidy_bind; [tidy_call|]. intros _. apply tidy_bind.
  { apply tidy_except_reraise; unfold call_run, log_fail; tidy_call. }
  intros resp. apply tidy_bind; [unfold call_get_verifiers; tidy_call|]. intros vs.
  apply tidy_bind; [apply tidy_for_each; intros; apply tidy_run_verifier|].
  intros _. unfold log_pass, box_pop. tidy_call.
Qed.

Lemma tidy_test_body in_file spec : tidy (test_body in_file spec c b).
Proof.
  unfold test_body, call_get_extra_sessions. apply tidy_bind; [tidy_call|].
  intros sessions. apply tidy_bind.
  { apply tidy_for_each. intros ns. unfold debug. apply tidy_bind; [tidy_call|].
    intros _. apply tidy_heapless, heapless_enter_context. }
  intros _. apply tidy_bind.
  { destruct (stages spec); apply tidy_heapless; [apply heapless_ret|apply heapless_raise]. }
  intros sts. apply tidy_for_each. intros st. apply tidy_run_stage.
Qed.

Lemma tidy_run_test_spec in_file spec : tidy (run_test_spec in_file spec c b).
Proof.
  unfold run_test_spec. apply tidy_bind.
  { apply tidy_for_each. intros inc. unfold merge_include.
    destruct (included_variables inc); [|apply tidy_heapless, heapless_ret].
    unfold call_check_env_var_settings. tidy_call. }
  intros _. apply tidy_bind.
  { destruct (test_name spec); apply tidy_heapless; [apply heapless_ret|apply heapless_raise]. }
  intros name. apply tidy_bind; [unfold info; tidy_call|]. intros _.
  apply tidy_with_ExitStack, tidy_test_body.
Qed.

End Box.

Section BoxTheorems.
Context `{Builtins} `{Collaborators}.

(** Whatever a test does and however it ends, the one entry of its tavern
    box that changes is ["request_vars"]: the environment the box was made
    with stays in it. *)
Theorem box_entries_kept in_file spec (c lv b : loc) (k : string) (s : state) :
  c <> lv -> b <> lv -> b <> c -> k <> "request_vars" ->
  points c lv (st_heap s) ->
  st_heap (run_test_spec in_file spec c b s).2 !! b ≫= (.!! k) = st_heap s !! b ≫= (.!! k).
Proof.
  intros Hclv Hblv Hbc Hk Hp.
  assert (Ht : tidy c lv b k (run_test_spec in_file spec c b)) by (by apply tidy_run_test_spec).
  destruct Ht as [_ Hkeep].
  exact (Hkeep s Hp).
Qed.

(** A stage that succeeds leaves the tavern box as it found it: the
    transient entry it wrote is removed and no other entry was touched. *)
Theorem stage_box_round_trip in_file (c lv b : loc) sessions st (E : gmap string value)
    (s : state) :
  c <> lv -> b <> lv -> b <> c ->
  sees c lv b (st_heap s) (AState true E None) ->
  (run_stage in_file c b sessions st s).1 = Return tt ->
  st_heap (run_stage in_file c b sessions st s).2 !! b = st_heap s !! b.
Proof.
  intros Hclv Hblv Hbc Hsees Hret.
  destruct (runs_run_stage c lv b Hclv Hblv Hbc in_file sessions st (AState true E None) s
              eq_refl eq_refl Hsees) as (q' & tr & _ & _ & Hsees' & Hq').
  rewrite Hret in Hq'. destruct Hq' as [_ Hidle]. unfold idle in Hidle.
  destruct Hsees as (Hp & _ & db & Hb & Hrv).
  destruct Hsees' as (_ & _ & db' & Hb' & Hrv'). simpl in *. rewrite Hidle in Hrv'.
  rewrite Hb, Hb'. f_equal. apply map_eq. intros k.
  destruct (decide (k = "request_vars")) as [->|Hk]; [congruence|].
  assert (Ht : tidy c lv b k (run_stage in_file c b sessions st)) by (by apply tidy_run_stage).
  destruct Ht as [_ Hkeep].
  specialize (Hkeep s Hp). unfold box_item in Hkeep. by rewrite Hb, Hb' in Hkeep.
Qed.

End BoxTheorems.

Section BoxExamples.
Import World.

Lemma stage_state_sees :
  sees 3 2 5 stage_heap
    (AState true {[ "host" := VData "localhost"; "tavern" := VRef 5%positive ]} None).
Proof.
  split_and!.
  - by exists {[ "variables" := VRef 2%positive ]}.
  - reflexivity.
  - by exists {[ "env_vars" := VRef 4%positive ]}.
Qed.

Lemma box_entries_kept_witness :
  st_heap (run_test_spec "f.yaml" (TestSpec None (Some "ping") (Some [stage_500])) 3 5
             stage_state).2 !! 5%positive ≫= (.!! "env_vars") =
  st_heap stage_state !! 5%positive ≫= (.!! "env_vars").
Proof.
  apply (box_entries_kept _ _ 3 2 5); try discriminate.
  by exists {[ "variables" := VRef 2%positive ]}.
Defined.

Lemma stage_box_round_trip_witness :
  st_heap (run_stage "f.yaml" 3 5 [] stage_ok stage_state).2 !! 5%positive =
  st_heap stage_state !! 5%positive.
Proof.
  apply (stage_box_round_trip "f.yaml" 3 2 5 [] stage_ok
           {[ "host" := VData "localhost"; "tavern" := VRef 5%positive ]} stage_state);
    try discriminate; [exact stage_state_sees|].
  vm_compute. reflexivity.
Defined.

End BoxExamples.


(** ** The whole file: sessions and objects *)

Section WholeFile.
Context `{Builtins} `{Collaborators}.

Lemma releases_run_test in_file doc g : releases (run_test in_file doc g).
Proof.
  unfold run_test.
  apply releases_bind; [apply calm_silent, silent_init_test_block_config|]. intros [c b].
  destruct doc as [spec|]; [destruct (truthy (Some spec))|];
    try solve [apply releases_calm, calm_emit; exact I].
  apply releases_run_test_spec.
Qed.

(** A computation that leaves every session it enters, and leaves the exit
    stack as it is. *)
Definition balanced {A} (f : M A) : Prop :=
  forall s, exists tr,
    trace (f s).2 = trace s ++ tr /\ acquired tr ≡ₚ released tr /\
    exit_callbacks (f s).2 = exit_callbacks s.

Lemma balanced_releases {A} (f : M A) : releases f -> balanced f.
Proof.
  intros Hf s. destruct (Hf s) as (body & excs & Htr & Hrel & Hlen & Hcbs).
  exists (body ++ zip_with ExitContext (rev (acquired body)) excs).
  destruct (exits_sessions (rev (acquired body)) excs) as [Hr Ha];
    [by rewrite length_rev|].
  rewrite acquired_app, released_app, Hr, Ha, Hrel, app_nil_r. simpl.
  split_and!; [done|apply Permutation_rev|done].
Qed.

Lemma balanced_calm {A} (f : M A) : calm f -> balanced f.
Proof.
  intros Hf s. destruct (Hf s) as (tr & Htr & Hall & Hcbs). exists tr.
  destruct (sessionless_acquired tr Hall) as [-> ->]. done.
Qed.

Lemma balanced_bind {A B} (f : M A) (k : A -> M B) :
  balanced f -> (forall a, balanced (k a)) -> balanced (bind f k).
Proof.
  intros Hf Hk s. destruct (Hf s) as (tr & Ht & Hp & Hc). unfold bind.
  destruct (f s) as [[a|e] s1]; simpl in *; [|by exists tr].
  destruct (Hk a s1) as (tr' & Ht' & Hp' & Hc'). exists (tr ++ tr').
  rewrite Ht', Ht, Hc', Hc, acquired_app, released_app, app_assoc.
  split_and!; [done|by apply Permutation_app|done].
Qed.

Lemma balanced_try_except {A} cls (f : M A) : balanced f -> balanced (try_except cls f).
Proof.
  intros Hf s. destruct (Hf s) as (tr & Ht & Hp & Hc). unfold try_except. exists tr.
  destruct (f s) as [[a|e] s1]; simpl in *; [done|]. by destruct (isinstance e cls).
Qed.

Lemma balanced_run_document in_file g doc passed :
  balanced (run_document in_file g doc passed).
Proof.
  unfold run_document.
  assert (Hwarn : forall msg, balanced (warning msg ;; ret passed)).
  { intros msg. apply balanced_calm, calm_bind; [by apply calm_emit|]. intros _.
    apply calm_silent, silent_ret. }
  destruct doc as [spec|]; [destruct (truthy (Some spec))|]; try apply Hwarn.
  apply balanced_bind.
  { apply balanced_calm, calm_try_except, calm_bind; [by apply calm_emit|]. intros _.
    apply calm_lift_check. }
  intros []; [|apply balanced_calm, calm_silent, silent_ret].
  apply balanced_bind; [|intros; apply balanced_calm, calm_silent, silent_ret].
  apply balanced_try_except, balanced_releases, releases_run_test.
Qed.

(** Whatever the documents of a file do, and whether [run] returns or
    raises, every session that was entered has been left when [run] ends,
    and the exit stack of the caller is as it was. *)
Theorem run_sessions_balanced in_file g docs s :
  exists tr,
    trace (run in_file g docs s).2 = trace s ++ tr /\
    acquired tr ≡ₚ released tr /\
    exit_callbacks (run in_file g docs s).2 = exit_callbacks s.
Proof.
  unfold run. generalize true. revert s.
  assert (Hall : forall passed, balanced (run_documents in_file g docs passed)).
  { induction docs as [|doc docs IH]; intros passed.
    - apply balanced_calm, calm_silent, silent_ret.
    - intros s. rewrite run_documents_cons. revert s.
      apply balanced_bind; [apply balanced_run_document|done]. }
  intros s passed. apply Hall.
Qed.

(** The objects one document leaves as they are, and the global
    configuration it leaves well formed. *)
Lemma run_document_frame in_file g doc passed (dg : gmap string value) (s : state) :
  st_heap s !! g = Some dg -> dg !! "variables" <> Some (VRef g) ->
  global_ok (st_heap s) g ->
  global_ok (st_heap (run_document in_file g doc passed s).2) g /\
  forall l, is_Some (st_heap s !! l) ->
    (forall lv, dg !! "variables" = Some (VRef lv) -> l <> lv) ->
    st_heap (run_document in_file g doc passed s).2 !! l = st_heap s !! l.
Proof.
  intros Hg Hself Hok. unfold run_document.
  assert (Hwarn : forall msg,
    global_ok (st_heap ((warning msg ;; ret passed) s).2) g /\
    forall l, is_Some (st_heap s !! l) ->
      (forall lv, dg !! "variables" = Some (VRef lv) -> l <> lv) ->
      st_heap ((warning msg ;; ret passed) s).2 !! l = st_heap s !! l) by done.
  destruct doc as [spec|]; [destruct (truthy (Some spec))|]; try apply Hwarn.
  unfold bind at 1 3. unfold try_except at 1 3, call_verify_tests, bind at 1 3.
  rewrite emit_run. unfold lift_check.
  set (s1 := log s [VerifyTests spec]).
  destruct (verify_tests spec) as [e|]; simpl.
  { by destruct (isinstance e BadSchemaError). }
  assert (Htest : global_ok (st_heap (run_test in_file (Some spec) g s1).2) g /\
    forall l, is_Some (st_heap s !! l) ->
      (forall lv, dg !! "variables" = Some (VRef lv) -> l <> lv) ->
      st_heap (run_test in_file (Some spec) g s1).2 !! l = st_heap s !! l).
  { destruct (run_test_frame in_file (Some spec) g s1 Hok) as (lv' & Hsame & Hframe).
    assert (Hkeep : forall l, is_Some (st_heap s !! l) ->
              (forall lv, dg !! "variables" = Some (VRef lv) -> l <> lv) ->
              st_heap (run_test in_file (Some spec) g s1).2 !! l = st_heap s !! l).
    { intros l Hl Hne. destruct (dg !! "variables") as [[x|lv]|] eqn:Hv.
      - destruct Hok as (dg' & Hg' & [Hn|(lv & Hlv & _)]); simpl in *; congruence.
      - pose proof (Hsame dg lv Hg Hv) as ->. apply (Hframe l Hl). by apply Hne.
      - exact (run_test_fresh_frame in_file (Some spec) g dg s1 Hg Hv l Hl). }
    split; [|exact Hkeep].
    assert (Hg' : st_heap (run_test in_file (Some spec) g s1).2 !! g = Some dg).
    { rewrite <- Hg. apply Hkeep; [by eexists|]. intros lv Hv ->. by apply Hself. }
    exists dg. split; [done|].
    destruct (dg !! "variables") as [[x|lv]|] eqn:Hv; [| |by left].
    - destruct Hok as (dg' & Hg'' & [Hn|(lv & Hlv & _)]); simpl in *; congruence.
    - right. exists lv. split; [done|].
      destruct Hok as (dg' & Hg'' & [Hn|(lv0 & Hlv0 & [E0 HE0])]); simpl in *; [congruence|].
      assert (lv0 = lv) as -> by congruence.
      assert (Hglv : g <> lv) by (intros ->; by apply Hself).
      destruct (run_test_shared g lv dg Hglv Hv in_file (Some spec) E0 s1 Hg HE0)
        as (tr & E' & _ & _ & HE' & _).
      by eexists. }
  unfold bind, try_except.
  destruct (run_test in_file (Some spec) g s1) as [[[]|e] s2]; simpl in *; try done.
  by destruct (isinstance e TestFailError).
Qed.

(** [run] leaves every object of the caller as it is, the mapping of the
    global variables apart: the global configuration itself is not
    written, and without global variables nothing of the caller is. *)
Theorem run_frame in_file g (dg : gmap string value) docs s l :
  st_heap s !! g = Some dg -> dg !! "variables" <> Some (VRef g) ->
  global_ok (st_heap s) g ->
  is_Some (st_heap s !! l) ->
  (forall lv, dg !! "variables" = Some (VRef lv) -> l <> lv) ->
  st_heap (run in_file g docs s).2 !! l = st_heap s !! l.
Proof.
  intros Hg Hself Hok Hl Hne. unfold run. generalize true. revert s Hg Hok Hl.
  induction docs as [|doc docs IH]; intros s Hg Hok Hl passed; [done|].
  rewrite run_documents_cons. unfold bind.
  destruct (run_document_frame in_file g doc passed dg s Hg Hself Hok) as [Hok' Hframe].
  pose proof (Hframe l Hl Hne) as Hl'.
  assert (Hg' : st_heap (run_document in_file g doc passed s).2 !! g = Some dg).
  { rewrite <- Hg. apply Hframe; [by eexists|]. intros lv Hv ->. by apply Hself. }
  destruct (run_document in_file g doc passed s) as [[p|e] s1]; simpl in *; [|done].
  rewrite <- Hl'. apply IH; [done|done|]. by rewrite Hl'.
Qed.

End WholeFile.

Section WholeFileExamples.
Import World.

Lemma run_frame_witness :
  st_heap (run "f.yaml" 1 [passing_document; failing_document] global_state).2 !! 1%positive =
  st_heap global_state !! 1%positive.
Proof.
  apply (run_frame "f.yaml" 1 {[ "variables" := VRef 2%positive ]}).
  - reflexivity.
  - discriminate.
  - exact global_heap_ok.
  - by eexists.
  - intros lv [= <-]. discriminate.
Defined.

End WholeFileExamples.


(** ** The response and the verifiers *)

Section Responses.
Context `{Builtins} `{Collaborators}.

(** The dump of a response holds its status line, every header as
    ["key: value"], and its text. *)
Theorem format_response_parts (rs : response) :
  occurs ("HTTP/1.1 " +:+ pretty (status_code rs) +:+ " " +:+ reason rs) (format_response rs) /\
  (forall k v, (k, v) ∈ headers rs -> occurs (k +:+ ": " +:+ v) (format_response rs)) /\
  occurs (text rs) (format_response rs).
Proof.
  unfold format_response. split_and!.
  - do 2 apply occurs_app_l. rewrite <- !string_app_assoc. apply occurs_here.
  - intros k v Hin. apply occurs_app_l, occurs_app_r, occurs_app_r.
    unfold format_dict. apply occurs_concat.
    apply (list_elem_of_fmap_2 (fun kv => fst kv +:+ ": " +:+ snd kv) (headers rs) (k, v) Hin).
  - do 3 apply occurs_app_r. apply occurs_here.
Qed.

(** A verifier that raises ends the stage with its exception: the call is
    the last event, the failure is not logged and the verifiers after it
    are not called. *)
Theorem verifier_exception_not_logged (in_file : string) (st : stage) (cfg : loc)
    (exp : expected) (resp : response) (before : list verifier) (v : verifier)
    (after : list verifier) (s s1 : state) (e : exn) :
  for_each before (run_verifier in_file st cfg exp resp) s = (Return tt, s1) ->
  verify v resp (st_heap s1) = Raise e ->
  for_each (before ++ v :: after) (run_verifier in_file st cfg exp resp) s =
    (Raise e,
     State (st_heap s1) (exit_callbacks s1) (trace s1 ++ [Verify v resp cfg (st_heap s1)])).
Proof.
  intros Hbefore Hv. rewrite (for_each_app _ _ _ _ _ Hbefore). simpl.
  unfold bind. by rewrite run_verifier_run, Hv.
Qed.

End Responses.

Section ResponseExamples.
Import World.

Definition raising_verifier : verifier :=
  Verifier "raising" (fun _ _ => Raise (Exn (OtherBuiltin "ValueError") "not JSON")).

Lemma verifier_exception_not_logged_witness :
  let resp := example_response 200 "OK" in
  for_each ([] ++ raising_verifier :: [status_verifier])
    (run_verifier "f.yaml" stage_ok 3 "status 200" resp) stage_state =
    (Raise (Exn (OtherBuiltin "ValueError") "not JSON"),
     State stage_heap [] (trace stage_state ++ [Verify raising_verifier resp 3 stage_heap])).
Proof.
  intros resp.
  apply (verifier_exception_not_logged "f.yaml" stage_ok 3 "status 200" resp
           [] raising_verifier [status_verifier] stage_state stage_state); reflexivity.
Defined.

End ResponseExamples.
